(** * jiveMediaPipe: pose timelines, pose differences and live scoring

    A shallow embedding of the numeric core of the React front end
    ([VideoPlayer.js], [PoseDiffVisualizer], the two [RealtimeScorer]
    components) and of the timeline comparator described in the design
    document; then of the components around them ([PoseDataViewer],
    [GameEnding], [AIChatCoach], [App]) and of the reducers of the store.

    JavaScript numbers are idealised as real numbers: every arithmetic
    operation is exact, there is no NaN and no infinity.  [null] and
    [undefined] are [None]; a thrown [TypeError] is an explicit result. *)

From Stdlib Require Import Reals Lra Lia List Sorted ZArith Bool String.
Import ListNotations.
Open Scope R_scope.

(** ** JavaScript numeric primitives *)

Module Js.

Definition number := R.

Definition Math_abs (x : number) : number := Rabs x.
Definition Math_sqrt (x : number) : number := sqrt x.
Definition Math_pow (x : number) (n : nat) : number := x ^ n.
Definition Math_max (x y : number) : number := Rmax x y.

(** [Math.round] rounds to the nearest integer, halves going up:
    it is [floor (x + 1/2)]. *)
Definition Math_round (x : number) : number := IZR (Int_part (x + / 2)).

(** The comparison operators, as booleans. *)
Definition gt (x y : number) : bool := if Rgt_dec x y then true else false.
Definition lt (x y : number) : bool := if Rlt_dec x y then true else false.
Definition ge (x y : number) : bool := if Rge_dec x y then true else false.

(** The result of code that may throw. *)
Inductive result (A : Type) : Type :=
| Ok (a : A)
| TypeError.
Arguments Ok {A} a.
Arguments TypeError {A}.

Definition bind {A B : Type} (r : result A) (k : A -> result B) : result B :=
  match r with
  | Ok a => k a
  | TypeError => TypeError
  end.

(** [a[i]] on an array: [undefined] outside of it. *)
Definition at_index {A : Type} (a : list A) (i : nat) : option A := nth_error a i.

(** [v[k]] where [v] may be [undefined]: reading a property of
    [undefined] throws. *)
Definition property {A B : Type} (v : option A) (field : A -> B) : result B :=
  match v with
  | Some a => Ok (field a)
  | None => TypeError
  end.

(** [for (let i = start; i < start + n; i++) body], threading the
    variables the body updates. *)
Fixpoint for_loop {S : Type} (n start : nat) (body : nat -> S -> result S)
  (s : S) : result S :=
  match n with
  | O => Ok s
  | Datatypes.S n' => bind (body start s) (for_loop n' (Datatypes.S start) body)
  end.

(** [o[k] = v] on an object used as a map, its keys kept in insertion
    order. *)
Fixpoint set_property {V : Type} (o : list (string * V)) (k : string) (v : V)
  : list (string * V) :=
  match o with
  | [] => [(k, v)]
  | (k', v') :: o' =>
      if String.eqb k' k then (k', v) :: o' else (k', v') :: set_property o' k v
  end.

End Js.

Import Js.

(** ** Data model *)

(** One entry of a [kp] array: [[x, y, z, visibility]]. *)
Record Landmark : Type := mkLandmark {
  lm_x : number;          (* [0] *)
  lm_y : number;          (* [1] *)
  lm_z : number;          (* [2] *)
  lm_visibility : number  (* [3] *)
}.

(** ** VideoPlayer.js *)

Module VideoPlayer.

(** A record of the pose timeline: [{t, ok, kp}]. *)
Record FrameRecord : Type := mkFrame {
  t : number;
  ok : bool;
  kp : option (list Landmark)
}.

(** The body of the [for (const pose of poseData)] loop, on the pair of
    the loop variables [closest] and [minDiff]. *)
Definition closerPose (time : number) (st : FrameRecord * number)
  (pose : FrameRecord) : FrameRecord * number :=
  let diff := Math_abs (t pose - time) in
  if lt diff (snd st) then (pose, diff) else st.

Definition findPoseForTime (poseData : option (list FrameRecord))
  (time : number) : option FrameRecord :=
  match poseData with
  | None => None
  | Some [] => None
  | Some ((first :: _) as frames) =>
      let closest := first in
      let minDiff := Math_abs (t first - time) in
      Some (fst (fold_left (closerPose time) frames (closest, minDiff)))
  end.

End VideoPlayer.

(** ** PoseDiffVisualizer *)

Module PoseDiffVisualizer.

(** What the component reads of a pose object: its [kp] array, which
    may be missing. *)
Record Pose : Type := mkPose { kp : option (list Landmark) }.

Inductive Severity : Type := high | medium | low.

Record Difference : Type := mkDifference {
  jointIndex : nat;
  distance : number;
  severity : Severity;
  currentPosition : number * number;
  referencePosition : number * number
}.

(** [p?.kp] *)
Definition optional_kp (p : option Pose) : option (list Landmark) :=
  match p with
  | Some pose => kp pose
  | None => None
  end.

(** The body of the loop of [calculatePoseDifferences] at index [i]. *)
Definition differenceAt (current_kp reference_kp : list Landmark) (i : nat)
  (differences : list Difference) : result (list Difference) :=
  let currentPoint := at_index current_kp i in
  let refPoint := at_index reference_kp i in
  bind (property currentPoint lm_visibility) (fun current_3 =>
  if gt current_3 0.5 then
    bind (property refPoint lm_visibility) (fun ref_3 =>
    if gt ref_3 0.5 then
      bind (property currentPoint lm_x) (fun current_0 =>
      bind (property refPoint lm_x) (fun ref_0 =>
      bind (property currentPoint lm_y) (fun current_1 =>
      bind (property refPoint lm_y) (fun ref_1 =>
        let distance :=
          Math_sqrt (Math_pow (current_0 - ref_0) 2 +
                     Math_pow (current_1 - ref_1) 2) in
        Ok (differences ++
            [ {| jointIndex := i;
                 distance := distance;
                 severity := if gt distance 0.1 then high
                             else if gt distance 0.05 then medium else low;
                 currentPosition := (current_0, current_1);
                 referencePosition := (ref_0, ref_1) |} ])))))
    else Ok differences)
  else Ok differences).

Definition calculatePoseDifferences (current reference : option Pose)
  : result (list Difference) :=
  match optional_kp current, optional_kp reference with
  | Some current_kp, Some reference_kp =>
      let differences := [] in
      let minLength := Nat.min (List.length current_kp) (List.length reference_kp) in
      for_loop minLength 0 (differenceAt current_kp reference_kp) differences
  | _, _ => Ok []
  end.

Inductive Status : Type := excellent | good | needsWork.

Record JointScore : Type := mkJointScore {
  accuracy : number;
  score_distance : number;   (* the field [distance] *)
  status : Status
}.

Definition criticalJoints : list (string * nat) :=
  [ ("leftShoulder", 11%nat); ("rightShoulder", 12%nat);
    ("leftElbow", 13%nat); ("rightElbow", 14%nat);
    ("leftWrist", 15%nat); ("rightWrist", 16%nat);
    ("leftHip", 23%nat); ("rightHip", 24%nat);
    ("leftKnee", 25%nat); ("rightKnee", 26%nat);
    ("leftAnkle", 27%nat); ("rightAnkle", 28%nat) ]%string.

(** [p?.kp?.[index]] *)
Definition optional_landmark (p : option Pose) (index : nat) : option Landmark :=
  match optional_kp p with
  | Some landmarks => at_index landmarks index
  | None => None
  end.

(** [const accuracy = Math.max(0, 100 - (distance * 1000))] *)
Definition accuracyOf (distance : number) : number :=
  Math_max 0 (100 - distance * 1000).

(** The callback given to [forEach], on the object [scores]. *)
Definition scoreJoint (current reference : option Pose)
  (scores : list (string * JointScore)) (entry : string * nat)
  : list (string * JointScore) :=
  let '(jointName, index) := entry in
  match optional_landmark current index, optional_landmark reference index with
  | Some currentPoint, Some refPoint =>
      let distance :=
        Math_sqrt (Math_pow (lm_x currentPoint - lm_x refPoint) 2 +
                   Math_pow (lm_y currentPoint - lm_y refPoint) 2) in
      let accuracy := accuracyOf distance in
      set_property scores jointName
        {| accuracy := Math_round accuracy;
           score_distance := distance;
           status := if gt accuracy 80 then excellent
                     else if gt accuracy 60 then good else needsWork |}
  | _, _ => scores
  end.

Definition calculateJointAccuracyScores (current reference : option Pose)
  : list (string * JointScore) :=
  fold_left (scoreJoint current reference) criticalJoints [].

End PoseDiffVisualizer.

(** ** RealtimeScorer, with refs (the component that reads
    [poseDataRef] and [isGameStartedRef])

    The component is a state machine.  Its state is what [useState] and
    [useRef] hold, together with what the browser holds for it: the
    interval timer, the requests still awaiting their answer and the
    pending [setTimeout]s.  Its events are a render with new props, a
    tick of the interval, and the answer or the failure of a request. *)

Module RealtimeScorer.

(** The [useState] cells. *)
Record Scores : Type := mkScores {
  totalScore : number;
  currentPoints : number;
  pointGain : option number;
  showPointGain : bool;
  accuracy : number;
  frameCount : nat
}.

Definition noScores : Scores :=
  {| totalScore := 0; currentPoints := 0; pointGain := None;
     showPointGain := false; accuracy := 0; frameCount := 0 |}.

(** The [useRef] cells; [poseDataRef] only by whether it holds a pose,
    [intervalRef] only by whether it holds a timer. *)
Record Refs : Type := mkRefs {
  totalScoreRef : number;
  intervalRef : bool;
  poseDataRef : bool;
  isGameStartedRef : bool
}.

Record State : Type := mkState {
  scores : Scores;
  refs : Refs;
  isGameStarted : bool;      (* the prop of the last render *)
  timerRunning : bool;       (* the interval is scheduled *)
  inFlight : nat;            (* requests awaiting their answer *)
  requests : nat;            (* [axios.post] calls made so far *)
  hideTimers : nat           (* pending [setTimeout]s *)
}.

Inductive Event : Type :=
| Render (isGameStarted poseData onScoreUpdateChanged : bool)
| Tick
| Response (points_earned : number)
| Failure
| HidePointGain.

(** [clearInterval(intervalRef.current)] when the ref holds a timer. *)
Definition clearIfSet (s : State) : State :=
  if intervalRef (refs s)
  then {| scores := scores s; refs := refs s; isGameStarted := isGameStarted s;
          timerRunning := false; inFlight := inFlight s;
          requests := requests s; hideTimers := hideTimers s |}
  else s.

(** The effect on [[poseData, isGameStarted]]. *)
Definition updateRefs (poseData started : bool) (s : State) : State :=
  {| scores := scores s;
     refs := {| totalScoreRef := totalScoreRef (refs s);
                intervalRef := intervalRef (refs s);
                poseDataRef := poseData;
                isGameStartedRef := started |};
     isGameStarted := isGameStarted s; timerRunning := timerRunning s;
     inFlight := inFlight s; requests := requests s;
     hideTimers := hideTimers s |}.

(** The effect on [[isGameStarted, onScoreUpdate]]: the cleanup of its
    previous run, then its body. *)
Definition intervalEffect (started : bool) (s : State) : State :=
  let s := clearIfSet s in        (* cleanup *)
  let s := clearIfSet s in        (* both branches clear a timer still held *)
  if started then
    {| scores := scores s;
       refs := {| totalScoreRef := totalScoreRef (refs s);
                  intervalRef := true;
                  poseDataRef := poseDataRef (refs s);
                  isGameStartedRef := isGameStartedRef (refs s) |};
       isGameStarted := isGameStarted s; timerRunning := true;
       inFlight := inFlight s; requests := requests s;
       hideTimers := hideTimers s |}
  else
    {| scores := noScores;
       refs := {| totalScoreRef := 0;
                  intervalRef := false;
                  poseDataRef := poseDataRef (refs s);
                  isGameStartedRef := isGameStartedRef (refs s) |};
       isGameStarted := isGameStarted s; timerRunning := timerRunning s;
       inFlight := inFlight s; requests := requests s;
       hideTimers := hideTimers s |}.

Definition withProps (started : bool) (s : State) : State :=
  {| scores := scores s; refs := refs s; isGameStarted := started;
     timerRunning := timerRunning s; inFlight := inFlight s;
     requests := requests s; hideTimers := hideTimers s |}.

Definition render (started poseData onScoreUpdateChanged : bool) (s : State)
  : State :=
  let depsChanged :=
    negb (Bool.eqb started (isGameStarted s)) || onScoreUpdateChanged in
  let s := updateRefs poseData started (withProps started s) in
  if depsChanged then intervalEffect started s else s.

(** The first render: every cell at its initial value, then both
    effects. *)
Definition mount (started poseData : bool) : State :=
  intervalEffect started
    (updateRefs poseData started
       {| scores := noScores;
          refs := {| totalScoreRef := 0; intervalRef := false;
                     poseDataRef := false; isGameStartedRef := false |};
          isGameStarted := started; timerRunning := false;
          inFlight := 0; requests := 0; hideTimers := 0 |}).

(** [sendPoseForScoring] up to its [await]: the guard, then the
    request. *)
Definition sendPoseForScoring_call (s : State) : State :=
  let currentPoseData := poseDataRef (refs s) in
  let currentGameStarted := isGameStartedRef (refs s) in
  if negb currentGameStarted || negb currentPoseData then s
  else {| scores := scores s; refs := refs s;
          isGameStarted := isGameStarted s; timerRunning := timerRunning s;
          inFlight := S (inFlight s); requests := S (requests s);
          hideTimers := hideTimers s |}.

(** [sendPoseForScoring] from its [await] on, with the [points_earned]
    of the answer. *)
Definition sendPoseForScoring_resume (points_earned : number) (s : State)
  : State :=
  let newTotalScore := totalScoreRef (refs s) + points_earned in
  let newFrameCount := (frameCount (scores s) + 1)%nat in
  let newAccuracy :=
    if (0 <? newFrameCount)%nat then newTotalScore / INR newFrameCount
    else points_earned in
  {| scores :=
       {| totalScore := newTotalScore;
          currentPoints := points_earned;
          pointGain := if gt points_earned 0 then Some points_earned
                       else pointGain (scores s);
          showPointGain := if gt points_earned 0 then true
                           else showPointGain (scores s);
          accuracy := Math_round newAccuracy;
          frameCount := newFrameCount |};
     refs := {| totalScoreRef := newTotalScore;
                intervalRef := intervalRef (refs s);
                poseDataRef := poseDataRef (refs s);
                isGameStartedRef := isGameStartedRef (refs s) |};
     isGameStarted := isGameStarted s; timerRunning := timerRunning s;
     inFlight := inFlight s; requests := requests s;
     hideTimers := if gt points_earned 0 then S (hideTimers s)
                   else hideTimers s |}.

Definition answered (s : State) : State :=
  {| scores := scores s; refs := refs s; isGameStarted := isGameStarted s;
     timerRunning := timerRunning s; inFlight := pred (inFlight s);
     requests := requests s; hideTimers := hideTimers s |}.

Definition hidePointGain (s : State) : State :=
  {| scores := {| totalScore := totalScore (scores s);
                  currentPoints := currentPoints (scores s);
                  pointGain := pointGain (scores s);
                  showPointGain := false;
                  accuracy := accuracy (scores s);
                  frameCount := frameCount (scores s) |};
     refs := refs s; isGameStarted := isGameStarted s;
     timerRunning := timerRunning s; inFlight := inFlight s;
     requests := requests s; hideTimers := pred (hideTimers s) |}.

(** One event; [None] when the event cannot happen in this state. *)
Definition step (s : State) (e : Event) : option State :=
  match e with
  | Render started poseData changed => Some (render started poseData changed s)
  | Tick => if timerRunning s then Some (sendPoseForScoring_call s) else None
  | Response points_earned =>
      if (0 <? inFlight s)%nat
      then Some (sendPoseForScoring_resume points_earned (answered s))
      else None
  | Failure => if (0 <? inFlight s)%nat then Some (answered s) else None
  | HidePointGain =>
      if (0 <? hideTimers s)%nat then Some (hidePointGain s) else None
  end.

Fixpoint run (s : State) (events : list Event) : option State :=
  match events with
  | [] => Some s
  | e :: events' =>
      match step s e with
      | Some s' => run s' events'
      | None => None
      end
  end.

(** The [points_earned] of the answers among the events. *)
Fixpoint pointsEarned (events : list Event) : list number :=
  match events with
  | [] => []
  | Response points_earned :: events' => points_earned :: pointsEarned events'
  | _ :: events' => pointsEarned events'
  end.

(** The game is not stopped by the event. *)
Definition keepsStarted (e : Event) : bool :=
  match e with
  | Render started _ _ => started
  | _ => true
  end.

(** The game is not started, and no request answered, by the event. *)
Definition keepsStopped (e : Event) : bool :=
  match e with
  | Render started _ _ => negb started
  | Response _ => false
  | _ => true
  end.

Definition sumOf (points : list number) : number := fold_right Rplus 0 points.

(** The state the stop of the game leaves: the game off for the props
    and for the ref, every score at its initial value. *)
Definition stopped (s : State) : Prop :=
  isGameStarted s = false /\ isGameStartedRef (refs s) = false /\
  scores s = noScores /\ totalScoreRef (refs s) = 0.

(** The state a session starts from: every score, and the ref of the
    total, at the initial value. *)
Definition sessionStart (s : State) : Prop :=
  scores s = noScores /\ totalScoreRef (refs s) = 0.

(** A running timer is the one [intervalRef] holds. *)
Definition timerHeld (s : State) : Prop :=
  timerRunning s = true -> intervalRef (refs s) = true.

End RealtimeScorer.

(** ** RealtimeScorer, with [useCallback] (the component whose
    [sendPoseForScoring] takes the pose as its argument)

    Its [sendPoseForScoring] is memoised on [[isGameStarted,
    onScoreUpdate]]: it reads the [isGameStarted] and the [frameCount] of
    the render that created it.  The state therefore also holds what the
    current callback captured, and every request awaiting its answer
    carries the [frameCount] captured by the callback that issued it. *)

Module RealtimeScorer2.

Record Scores : Type := mkScores {
  totalScore : number;
  currentPoints : number;
  pointGain : option number;
  showPointGain : bool;
  accuracy : number;
  frameCount : nat;
  gameStartTime : option number
}.

Definition noScores : Scores :=
  {| totalScore := 0; currentPoints := 0; pointGain := None;
     showPointGain := false; accuracy := 0; frameCount := 0;
     gameStartTime := None |}.

Record State : Type := mkState {
  scores : Scores;
  totalScoreRef : number;
  isGameStarted : bool;          (* the props of the last render *)
  poseData : bool;
  callbackGameStarted : bool;    (* captured by [sendPoseForScoring] *)
  callbackFrameCount : nat;
  timerRunning : bool;
  inFlight : list nat;
  requests : nat;
  hideTimers : nat
}.

Inductive Event : Type :=
| Render (isGameStarted poseData onScoreUpdateChanged : bool)
| Tick
| Response (request : nat) (points_earned : number)
| Failure (request : nat)
| HidePointGain.

(** The effect on [[isGameStarted]]: [setTotalScore(0)] and the like;
    [totalScoreRef] is left as it is. *)
Definition resetScores (s : Scores) : Scores :=
  {| totalScore := 0; currentPoints := 0; pointGain := None;
     showPointGain := false; accuracy := 0; frameCount := 0;
     gameStartTime := gameStartTime s |}.

Definition render (started pose onScoreUpdateChanged : bool) (s : State)
  : State :=
  let startedChanged := negb (Bool.eqb started (isGameStarted s)) in
  let callbackChanged := startedChanged || onScoreUpdateChanged in
  {| scores := if startedChanged && negb started
               then resetScores (scores s) else scores s;
     totalScoreRef := totalScoreRef s;
     isGameStarted := started;
     poseData := pose;
     callbackGameStarted :=
       if callbackChanged then started else callbackGameStarted s;
     callbackFrameCount :=
       if callbackChanged then frameCount (scores s) else callbackFrameCount s;
     timerRunning := pose && started;
     inFlight := inFlight s; requests := requests s;
     hideTimers := hideTimers s |}.

Definition mount (started pose : bool) : State :=
  {| scores := if negb started then resetScores noScores else noScores;
     totalScoreRef := 0;
     isGameStarted := started;
     poseData := pose;
     callbackGameStarted := started;
     callbackFrameCount := 0;
     timerRunning := pose && started;
     inFlight := []; requests := 0; hideTimers := 0 |}.

(** [sendPoseForScoring(poseData)] up to its [await]. *)
Definition sendPoseForScoring_call (s : State) : State :=
  if negb (callbackGameStarted s) || negb (poseData s) then s
  else {| scores := scores s; totalScoreRef := totalScoreRef s;
          isGameStarted := isGameStarted s; poseData := poseData s;
          callbackGameStarted := callbackGameStarted s;
          callbackFrameCount := callbackFrameCount s;
          timerRunning := timerRunning s;
          inFlight := inFlight s ++ [callbackFrameCount s];
          requests := S (requests s); hideTimers := hideTimers s |}.

(** [sendPoseForScoring] from its [await] on; [frameCount] is the one
    its callback captured. *)
Definition sendPoseForScoring_resume (frameCount_captured : nat)
  (points_earned : number) (s : State) : State :=
  let newTotalScore := totalScoreRef s + points_earned in
  let newAccuracy :=
    if (0 <? frameCount_captured)%nat
    then newTotalScore / INR (frameCount_captured + 1)
    else points_earned in
  {| scores :=
       {| totalScore := newTotalScore;
          currentPoints := points_earned;
          pointGain := if gt points_earned 0 then Some points_earned
                       else pointGain (scores s);
          showPointGain := if gt points_earned 0 then true
                           else showPointGain (scores s);
          accuracy := Math_round newAccuracy;
          frameCount := (frameCount (scores s) + 1)%nat;
          gameStartTime := gameStartTime (scores s) |};
     totalScoreRef := newTotalScore;
     isGameStarted := isGameStarted s; poseData := poseData s;
     callbackGameStarted := callbackGameStarted s;
     callbackFrameCount := callbackFrameCount s;
     timerRunning := timerRunning s; inFlight := inFlight s;
     requests := requests s;
     hideTimers := if gt points_earned 0 then S (hideTimers s)
                   else hideTimers s |}.

Definition answered (request : nat) (s : State) : State :=
  {| scores := scores s; totalScoreRef := totalScoreRef s;
     isGameStarted := isGameStarted s; poseData := poseData s;
     callbackGameStarted := callbackGameStarted s;
     callbackFrameCount := callbackFrameCount s;
     timerRunning := timerRunning s;
     inFlight := firstn request (inFlight s) ++ skipn (S request) (inFlight s);
     requests := requests s; hideTimers := hideTimers s |}.

Definition hidePointGain (s : State) : State :=
  {| scores := {| totalScore := totalScore (scores s);
                  currentPoints := currentPoints (scores s);
                  pointGain := pointGain (scores s);
                  showPointGain := false;
                  accuracy := accuracy (scores s);
                  frameCount := frameCount (scores s);
                  gameStartTime := gameStartTime (scores s) |};
     totalScoreRef := totalScoreRef s;
     isGameStarted := isGameStarted s; poseData := poseData s;
     callbackGameStarted := callbackGameStarted s;
     callbackFrameCount := callbackFrameCount s;
     timerRunning := timerRunning s; inFlight := inFlight s;
     requests := requests s; hideTimers := pred (hideTimers s) |}.

Definition step (s : State) (e : Event) : option State :=
  match e with
  | Render started pose changed => Some (render started pose changed s)
  | Tick => if timerRunning s then Some (sendPoseForScoring_call s) else None
  | Response request points_earned =>
      match nth_error (inFlight s) request with
      | Some frameCount_captured =>
          Some (sendPoseForScoring_resume frameCount_captured points_earned
                  (answered request s))
      | None => None
      end
  | Failure request =>
      match nth_error (inFlight s) request with
      | Some _ => Some (answered request s)
      | None => None
      end
  | HidePointGain =>
      if (0 <? hideTimers s)%nat then Some (hidePointGain s) else None
  end.

Fixpoint run (s : State) (events : list Event) : option State :=
  match events with
  | [] => Some s
  | e :: events' =>
      match step s e with
      | Some s' => run s' events'
      | None => None
      end
  end.

End RealtimeScorer2.

(** ** Timeline Aligner & Comparator *)

Module Comparator.

(** Modelled from the spec: the Timeline Aligner & Comparator, whose
    program ([compare_angles.py]) is not among the sources.  The
    definitions of this module follow section 4.5 of the design document
    step by step; a Timeline is the list of its Angle Records, a frame
    without angles having no record. *)
Record AngleRecord : Type := mkAngles {
  t : number;
  elbow_L : number;
  elbow_R : number;
  knee_L : number;
  knee_R : number
}.

(** Modelled from the spec: a Timeline, the ordered sequence of the Angle
    Records of one source. *)
Definition Timeline : Type := list AngleRecord.

(** Modelled from the spec: the 4-dimensional vector
    [(elbow_L, elbow_R, knee_L, knee_R)]. *)
Definition Vector4 : Type := (number * number * number * number)%type.

(** Modelled from the spec: the dot product [a·b] of the cosine
    similarity. *)
Definition dot (a b : Vector4) : number :=
  let '(a1, a2, a3, a4) := a in
  let '(b1, b2, b3, b4) := b in
  a1 * b1 + a2 * b2 + a3 * b3 + a4 * b4.

(** Modelled from the spec: the magnitude [|a|]. *)
Definition magnitude (a : Vector4) : number := sqrt (dot a a).

(** Modelled from the spec: [min] over the timestamps or the scores of a
    non-empty list. *)
Definition least (xs : list number) : number :=
  match xs with
  | [] => 0
  | x :: xs' => fold_left Rmin xs' x
  end.

(** Modelled from the spec: [max] over the timestamps or the scores of a
    non-empty list. *)
Definition greatest (xs : list number) : number :=
  match xs with
  | [] => 0
  | x :: xs' => fold_left Rmax xs' x
  end.

(** Modelled from the spec, step 1: [t_start = max(min(ref.t),
    min(usr.t))], [t_end = min(max(ref.t), max(usr.t))]; there is no
    window when [t_start >= t_end], nor for a timeline without
    records. *)
Definition window (ref usr : Timeline) : option (number * number) :=
  match ref, usr with
  | _ :: _, _ :: _ =>
      let t_start := Rmax (least (map t ref)) (least (map t usr)) in
      let t_end := Rmin (greatest (map t ref)) (greatest (map t usr)) in
      if ge t_start t_end then None else Some (t_start, t_end)
  | _, _ => None
  end.

(** Modelled from the spec, step 2: [N] evenly spaced timestamps across
    [[t_start, t_end]], both ends included. *)
Definition grid (t_start t_end : number) (N : nat) : list number :=
  map (fun i => t_start + (t_end - t_start) * INR i / INR (N - 1)) (seq 0 N).

(** Modelled from the spec, step 3: one channel resampled at [x] by
    linear interpolation between the two bracketing records; a timestamp
    that falls on a record takes the value of the record. *)
Fixpoint interpolate (channel : AngleRecord -> number) (tl : Timeline)
  (x : number) : number :=
  match tl with
  | [] => 0
  | r0 :: rest =>
      if ge (t r0) x then channel r0
      else match rest with
           | [] => channel r0
           | r1 :: _ =>
               if lt x (t r1)
               then channel r0
                    + (channel r1 - channel r0) * (x - t r0) / (t r1 - t r0)
               else interpolate channel rest x
           end
  end.

(** Modelled from the spec, step 3: the four channels, each resampled on
    its own. *)
Definition resample (tl : Timeline) (x : number) : Vector4 :=
  (interpolate elbow_L tl x, interpolate elbow_R tl x,
   interpolate knee_L tl x, interpolate knee_R tl x).

(** Modelled from the spec, step 4: clamping to [[-1, 1]]. *)
Definition clamp (x : number) : number := Rmax (-1) (Rmin 1 x).

(** Modelled from the spec, step 4: the cosine similarity
    [(a·b)/(|a||b|)], clamped and mapped to [[0, 1]] by
    [(cos_sim + 1) / 2]; undefined when a vector has magnitude 0. *)
Definition similarity (a b : Vector4) : option number :=
  if Req_dec_T (magnitude a) 0 then None
  else if Req_dec_T (magnitude b) 0 then None
  else let cos_sim := dot a b / (magnitude a * magnitude b) in
       Some ((clamp cos_sim + 1) / 2).

(** Modelled from the spec, step 4: the sample at timestamp [x], left out
    of the series when its similarity is undefined. *)
Definition sample (ref usr : Timeline) (x : number) : list (number * number) :=
  match similarity (resample ref x) (resample usr x) with
  | Some score => [(x, score)]
  | None => []
  end.

(** Modelled from the spec: the comparison report [{mean, min, max}] with
    its per-sample series, and the two failure modes. *)
Inductive Outcome : Type :=
| Report (mean min max : number) (series : list (number * number))
| NoOverlap
| InsufficientSamples.

(** Modelled from the spec, step 5: the mean of the scores. *)
Definition mean (xs : list number) : number :=
  fold_right Rplus 0 xs / INR (List.length xs).

(** Modelled from the spec, steps 1 to 5: "no overlap" without a window,
    "insufficient valid samples" with fewer than 2 defined samples,
    otherwise the mean, the minimum and the maximum of the scores with
    the series itself. *)
Definition compare (ref usr : Timeline) (N : nat) : Outcome :=
  match window ref usr with
  | None => NoOverlap
  | Some (t_start, t_end) =>
      let series := flat_map (sample ref usr) (grid t_start t_end N) in
      let scores := map snd series in
      if (List.length series <? 2)%nat then InsufficientSamples
      else Report (mean scores) (least scores) (greatest scores) series
  end.

End Comparator.

(** ** Closed forms used to state the properties *)

Module PoseDiffSpec.

Import PoseDiffVisualizer.

(** The record pushed for index [i], landmarks [c] (live) and [r]
    (reference). *)
Definition differenceOf (i : nat) (c r : Landmark) : Difference :=
  let d := sqrt ((lm_x c - lm_x r) ^ 2 + (lm_y c - lm_y r) ^ 2) in
  {| jointIndex := i;
     distance := d;
     severity := if gt d 0.1 then high else if gt d 0.05 then medium else low;
     currentPosition := (lm_x c, lm_y c);
     referencePosition := (lm_x r, lm_y r) |}.

(** What index [i] contributes to the list of differences. *)
Definition contributionAt (current_kp reference_kp : list Landmark) (i : nat)
  : list Difference :=
  match nth_error current_kp i, nth_error reference_kp i with
  | Some c, Some r =>
      if gt (lm_visibility c) 0.5 && gt (lm_visibility r) 0.5
      then [differenceOf i c r] else []
  | _, _ => []
  end.

(** The score stored for landmarks [c] (live) and [r] (reference). *)
Definition jointScoreOf (c r : Landmark) : JointScore :=
  let d := sqrt ((lm_x c - lm_x r) ^ 2 + (lm_y c - lm_y r) ^ 2) in
  {| accuracy := Math_round (accuracyOf d);
     score_distance := d;
     status := if gt (accuracyOf d) 80 then excellent
               else if gt (accuracyOf d) 60 then good else needsWork |}.

(** What one critical joint contributes to the object of scores. *)
Definition scoreEntry (current reference : option Pose) (entry : string * nat)
  : list (string * JointScore) :=
  match optional_landmark current (snd entry),
        optional_landmark reference (snd entry) with
  | Some c, Some r => [(fst entry, jointScoreOf c r)]
  | _, _ => []
  end.

(** The twelve landmark indices named in the design document: shoulders,
    elbows, wrists, hips, knees, ankles. *)
Definition keyJointIndices : list nat :=
  [11; 12; 13; 14; 15; 16; 23; 24; 25; 26; 27; 28]%nat.

(** Every landmark of the pose is at or below the visibility threshold. *)
Definition allHidden (p : option Pose) : Prop :=
  forall landmarks, optional_kp p = Some landmarks ->
    Forall (fun lm => lm_visibility lm <= 0.5) landmarks.

(** Every key joint of the pose is at or below the visibility threshold. *)
Definition keyJointsHidden (p : option Pose) : Prop :=
  forall index, In index keyJointIndices ->
    exists lm, optional_landmark p index = Some lm /\ lm_visibility lm <= 0.5.

End PoseDiffSpec.

(** ** Concrete inputs *)

Module Inputs.

Import PoseDiffVisualizer.

(** A landmark the detector saw, and one it did not. *)
Definition seen : Landmark := mkLandmark 0.5 0.2 0 0.9.
Definition unseen : Landmark := mkLandmark 0.5 0.5 0 0.

(** 33 landmarks of which only the nose (index 0) is visible. *)
Definition noseOnly : Pose := {| kp := Some (seen :: repeat unseen 32) |}.

(** 33 landmarks, none of them visible. *)
Definition nothingSeen : Pose := {| kp := Some (repeat unseen 33) |}.

(** 33 landmarks, all of them visible. *)
Definition allSeen : Pose := {| kp := Some (repeat seen 33) |}.

(** Three records of a pose timeline, half a second apart. *)
Definition frame0 : VideoPlayer.FrameRecord := VideoPlayer.mkFrame 0 false None.
Definition frame1 : VideoPlayer.FrameRecord := VideoPlayer.mkFrame 0.5 false None.
Definition frame2 : VideoPlayer.FrameRecord := VideoPlayer.mkFrame 1 false None.

(** The reference timeline of the end-to-end scenario of the design
    document, and its first record alone. *)
Definition referenceTimeline : Comparator.Timeline :=
  [ Comparator.mkAngles 0 (PI / 2) (PI / 2) PI PI;
    Comparator.mkAngles 1 (PI / 4) (PI / 4) (PI / 2) (PI / 2) ].

Definition singleRecord : Comparator.Timeline :=
  [ Comparator.mkAngles 0 (PI / 2) (PI / 2) PI PI ].

End Inputs.

(** ** PoseDiffVisualizer: the summary under the canvas *)

Module PoseDiffSummary.

Import PoseDiffVisualizer.

(** [d.severity === s] *)
Definition has_severity (s : Severity) (d : Difference) : bool :=
  match severity d, s with
  | high, high | medium, medium | low, low => true
  | _, _ => false
  end.

(** The three figures of the "Pose Analysis Summary": major issues, minor
    issues and accuracy. *)
Definition majorIssues (poseDifferences : list Difference) : nat :=
  List.length (filter (has_severity high) poseDifferences).

Definition minorIssues (poseDifferences : list Difference) : nat :=
  List.length (filter (has_severity medium) poseDifferences).

Definition accuracyPercent (poseDifferences : list Difference) : number :=
  Math_round
    (INR (List.length (filter (has_severity low) poseDifferences))
     / INR (List.length poseDifferences) * 100).

(** The summary is rendered when [diffState.poseDifferences] is there and
    not empty. *)
Definition summary (poseDifferences : option (list Difference))
  : option (nat * nat * number) :=
  match poseDifferences with
  | None => None
  | Some [] => None
  | Some differences =>
      Some (majorIssues differences, minorIssues differences,
            accuracyPercent differences)
  end.

End PoseDiffSummary.

(** ** More closed forms for the pose differences *)

Module PoseDiffFacts.

Import PoseDiffVisualizer.

(** A difference read from the other side: the two positions exchanged. *)
Definition exchanged (d : Difference) : Difference :=
  {| jointIndex := jointIndex d;
     distance := distance d;
     severity := severity d;
     currentPosition := referencePosition d;
     referencePosition := currentPosition d |}.

(** The landmarks of a [kp] array above the visibility threshold. *)
Definition visible (landmarks : list Landmark) : list Landmark :=
  filter (fun lm => gt (lm_visibility lm) 0.5) landmarks.

End PoseDiffFacts.


(** ** The canvas *)

Module Canvas.

(** What is done to a 2D context, in the order it is done: the
    properties set and the methods called. *)
Inductive Command : Type :=
| clearRect (x y w h : number)
| strokeStyle (style : string)
| fillStyle (style : string)
| lineWidth (width : number)
| lineCap (cap : string)
| beginPath
| moveTo (x y : number)
| lineTo (x y : number)
| stroke
| arc (x y radius startAngle endAngle : number)
| fill.

(** The point a command puts on the canvas, if it puts one. *)
Definition drawsAt (c : Command) : option (number * number) :=
  match c with
  | moveTo x y | lineTo x y | arc x y _ _ _ => Some (x, y)
  | _ => None
  end.

Definition isArc (c : Command) : bool :=
  match c with arc _ _ _ _ _ => true | _ => false end.

Definition isStroke (c : Command) : bool :=
  match c with stroke => true | _ => false end.

(** [!x] on a number. *)
Definition not_number (x : number) : bool :=
  if Req_dec_T x 0 then true else false.

End Canvas.

(** ** VideoPlayer.js: the overlay *)

Module VideoPlayerOverlay.

Import Canvas.

Definition POSE_CONNECTIONS : list (nat * nat) :=
  [ (11, 12); (11, 13); (13, 15); (12, 14); (14, 16);
    (11, 23); (12, 24); (23, 24);
    (23, 25); (25, 27); (24, 26); (26, 28);
    (15, 17); (15, 19); (15, 21); (16, 18); (16, 20); (16, 22);
    (27, 29); (27, 31); (28, 30); (28, 32) ]%nat.

(** [{ x, y, visibility }] *)
Record ScreenLandmark : Type := mkScreen {
  x : number;
  y : number;
  visibility : number
}.

(** The function mapped over [landmarks]: world coordinates, recognised
    by a coordinate beyond 1, are shifted by half a frame; normalised
    ones are scaled. *)
Definition toScreen (videoWidth videoHeight : number) (lm : Landmark)
  : ScreenLandmark :=
  if gt (Math_abs (lm_x lm)) 1 || gt (Math_abs (lm_y lm)) 1 then
    {| x := (lm_x lm + 0.5) * videoWidth;
       y := (lm_y lm + 0.5) * videoHeight;
       visibility := lm_visibility lm |}
  else
    {| x := lm_x lm * videoWidth;
       y := lm_y lm * videoHeight;
       visibility := lm_visibility lm |}.

(** The callback of [POSE_CONNECTIONS.forEach]. *)
Definition drawConnection (screenLandmarks : list ScreenLandmark)
  (connection : nat * nat) : list Command :=
  let '(startIdx, endIdx) := connection in
  match at_index screenLandmarks startIdx, at_index screenLandmarks endIdx with
  | Some start, Some end_ =>
      if gt (visibility start) 0.5 && gt (visibility end_) 0.5
      then [beginPath; moveTo (x start) (y start); lineTo (x end_) (y end_);
            stroke]
      else []
  | _, _ => []
  end.

(** The callback of [screenLandmarks.forEach]. *)
Definition drawLandmark (lm : ScreenLandmark) : list Command :=
  if gt (visibility lm) 0.5
  then [beginPath; arc (x lm) (y lm) 3 0 (2 * PI); fill]
  else [].

Definition drawSkeleton (landmarks : option (list Landmark))
  (videoWidth videoHeight : number) : list Command :=
  match landmarks with
  | None => []
  | Some [] => []
  | Some landmarks =>
      let screenLandmarks := map (toScreen videoWidth videoHeight) landmarks in
      [strokeStyle "#00ff00"; lineWidth 2; lineCap "round"]
      ++ flat_map (drawConnection screenLandmarks) POSE_CONNECTIONS
      ++ [fillStyle "#ff0000"]
      ++ flat_map drawLandmark screenLandmarks
  end.

(** [drawPose], for the pose timeline and the current time of the
    component, the size of the video and the size of the canvas. *)
Definition drawPose (poseData : option (list VideoPlayer.FrameRecord))
  (currentTime videoWidth videoHeight canvasWidth canvasHeight : number)
  : list Command :=
  if not_number videoWidth || not_number videoHeight then []
  else
    clearRect 0 0 canvasWidth canvasHeight
    :: match VideoPlayer.findPoseForTime poseData currentTime with
       | None => []
       | Some currentPose =>
           if negb (VideoPlayer.ok currentPose) then []
           else drawSkeleton (VideoPlayer.kp currentPose) videoWidth videoHeight
       end.

End VideoPlayerOverlay.

(** ** PoseDataViewer *)

Module PoseDataViewer.

(** [handleFrameChange], on the state [selectedFrame]. *)
Definition handleFrameChange (totalFrames : Z) (direction : string)
  (selectedFrame : Z) : Z :=
  if String.eqb direction "prev" && (0 <? selectedFrame)%Z
  then (selectedFrame - 1)%Z
  else if String.eqb direction "next" && (selectedFrame <? totalFrames - 1)%Z
  then (selectedFrame + 1)%Z
  else selectedFrame.

(** [handleFrameJump], with the whole number [parseInt] read from the
    slider. *)
Definition handleFrameJump (totalFrames : Z) (frameIndex : Z) : Z :=
  Z.max 0 (Z.min frameIndex (totalFrames - 1)).

(** What the user does. *)
Inductive Action : Type :=
| change (direction : string)
| jump (frameIndex : Z).

Definition act (totalFrames : Z) (selectedFrame : Z) (a : Action) : Z :=
  match a with
  | change direction => handleFrameChange totalFrames direction selectedFrame
  | jump frameIndex => handleFrameJump totalFrames frameIndex
  end.

(** [poseData[selectedFrame]] *)
Definition frameAt (poseData : list VideoPlayer.FrameRecord) (selectedFrame : Z)
  : option VideoPlayer.FrameRecord :=
  if (selectedFrame <? 0)%Z then None
  else at_index poseData (Z.to_nat selectedFrame).

(** What is rendered of the frame controls and of the pose status. *)
Record Controls : Type := mkControls {
  frameNumber : Z;            (* Frame {selectedFrame + 1} *)
  totalFrames : Z;            (* of {totalFrames} *)
  time : number;              (* currentPose.t *)
  prevDisabled : bool;
  nextDisabled : bool;
  poseDetected : bool;        (* currentPose.ok *)
  landmarkCount : option nat  (* currentPose.kp.length, shown when ok *)
}.

Inductive Rendered : Type :=
| noPoseData
| viewer (controls : Controls).

Definition render (poseData : option (list VideoPlayer.FrameRecord))
  (selectedFrame : Z) : result Rendered :=
  match poseData with
  | None => Ok noPoseData
  | Some [] => Ok noPoseData
  | Some frames =>
      let currentPose := frameAt frames selectedFrame in
      let totalFrames := Z.of_nat (List.length frames) in
      bind (property currentPose VideoPlayer.t) (fun t =>
      bind (property currentPose VideoPlayer.ok) (fun ok =>
      bind (if ok
            then bind (property currentPose VideoPlayer.kp) (fun kp =>
                 bind (property kp (@List.length Landmark)) (fun n =>
                 Ok (Some n)))
            else Ok None) (fun count =>
      Ok (viewer {| frameNumber := selectedFrame + 1;
                    totalFrames := totalFrames;
                    time := t;
                    prevDisabled := (selectedFrame =? 0)%Z;
                    nextDisabled := (selectedFrame =? totalFrames - 1)%Z;
                    poseDetected := ok;
                    landmarkCount := count |}))))
  end.

End PoseDataViewer.

(** ** GameEnding (the component with grades) *)

Module GameEnding.

Definition getScoreMessage (score : number) : string :=
  if ge score 2000 then "INCREDIBLE! 🏆"
  else if ge score 1500 then "AMAZING! 🌟"
  else if ge score 1000 then "GREAT JOB! 🎉"
  else if ge score 500 then "GOOD WORK! 👏"
  else if ge score 100 then "NICE TRY! 💪"
  else "KEEP PRACTICING! 💃".

Definition getScoreGrade (score : number) : string :=
  if ge score 2000 then "S+"
  else if ge score 1500 then "S"
  else if ge score 1000 then "A"
  else if ge score 500 then "B"
  else if ge score 100 then "C"
  else "D".

(** The grades with their messages, from the best to the worst. *)
Definition brackets : list (string * string) :=
  [ ("S+", "INCREDIBLE! 🏆"); ("S", "AMAZING! 🌟"); ("A", "GREAT JOB! 🎉");
    ("B", "GOOD WORK! 👏"); ("C", "NICE TRY! 💪");
    ("D", "KEEP PRACTICING! 💃") ]%string.

(** The place of a grade in that list: 0 for "S+", 5 for "D". *)
Definition gradeRank (grade : string) : nat :=
  if String.eqb grade "S+" then 0
  else if String.eqb grade "S" then 1
  else if String.eqb grade "A" then 2
  else if String.eqb grade "B" then 3
  else if String.eqb grade "C" then 4
  else 5.

End GameEnding.

(** ** AIChatCoach.js *)

Module AIChatCoach.

(** [{ joint, suggestion, priority }] *)
Record Suggestion : Type := mkSuggestion {
  joint : string;
  suggestion : string;
  priority : string
}.

Definition generateImprovementSuggestions (similarity : number)
  (pose : option PoseDiffVisualizer.Pose) : list Suggestion :=
  let suggestions := [] in
  let suggestions :=
    if lt similarity 70
    then suggestions ++
         [ {| joint := "arms";
              suggestion := "Focus on matching the arm positions more precisely";
              priority := "high" |} ]
    else suggestions in
  let suggestions :=
    if lt similarity 60
    then suggestions ++
         [ {| joint := "legs";
              suggestion := "Adjust your leg stance to better match the reference";
              priority := "high" |} ]
    else suggestions in
  let suggestions :=
    if lt similarity 50
    then suggestions ++
         [ {| joint := "torso";
              suggestion := "Work on your torso alignment and posture";
              priority := "medium" |} ]
    else suggestions in
  suggestions.

(** What is dispatched to the store of the coach, in order. *)
Inductive Action : Type :=
| addMessage (content type : string)
| updateCurrentTip (tip : string)
| addImprovementSuggestion (s : Suggestion).

Definition analyzePosePerformance (similarity : number)
  (currentPose : option PoseDiffVisualizer.Pose) : list Action :=
  let '(tip, suggestionType) :=
    if ge similarity 90
    then ("🎯 Excellent form! You're nailing this pose!", "success")%string
    else if ge similarity 75
    then ("👍 Great job! Minor adjustments will perfect this pose.",
          "success")%string
    else if ge similarity 60
    then ("💪 Good effort! Focus on matching the reference pose more closely.",
          "tip")%string
    else if ge similarity 40
    then ("📐 Check your arm and leg positioning - they need adjustment.",
          "warning")%string
    else ("🔄 Let's work on this pose - focus on the key body positions.",
          "warning")%string in
  let suggestions := generateImprovementSuggestions similarity currentPose in
  [addMessage tip suggestionType; updateCurrentTip tip]
  ++ map addImprovementSuggestion suggestions.

(** The [similarity] prop as the component receives it: a number,
    [null], or left out ([undefined]).  The guard of the effect tells
    [null] from [undefined], so the two are kept apart here. *)
Inductive SimilarityProp : Type :=
| omitted
| isNull
| aNumber (similarity : number).

(** [similarity >= n] and [similarity < n] on the prop: [null] compares
    as 0, [undefined] compares false with every number. *)
Definition geProp (similarity : SimilarityProp) (n : number) : bool :=
  match similarity with
  | aNumber x => ge x n
  | isNull => ge 0 n
  | omitted => false
  end.

Definition ltProp (similarity : SimilarityProp) (n : number) : bool :=
  match similarity with
  | aNumber x => lt x n
  | isNull => lt 0 n
  | omitted => false
  end.

(** [generateImprovementSuggestions] and [analyzePosePerformance] as the
    effect calls them, on the prop. *)
Definition generateImprovementSuggestionsOf (similarity : SimilarityProp)
  (pose : option PoseDiffVisualizer.Pose) : list Suggestion :=
  let suggestions := [] in
  let suggestions :=
    if ltProp similarity 70
    then suggestions ++
         [ {| joint := "arms";
              suggestion := "Focus on matching the arm positions more precisely";
              priority := "high" |} ]
    else suggestions in
  let suggestions :=
    if ltProp similarity 60
    then suggestions ++
         [ {| joint := "legs";
              suggestion := "Adjust your leg stance to better match the reference";
              priority := "high" |} ]
    else suggestions in
  let suggestions :=
    if ltProp similarity 50
    then suggestions ++
         [ {| joint := "torso";
              suggestion := "Work on your torso alignment and posture";
              priority := "medium" |} ]
    else suggestions in
  suggestions.

Definition analyzePosePerformanceOf (similarity : SimilarityProp)
  (currentPose : option PoseDiffVisualizer.Pose) : list Action :=
  let '(tip, suggestionType) :=
    if geProp similarity 90
    then ("🎯 Excellent form! You're nailing this pose!", "success")%string
    else if geProp similarity 75
    then ("👍 Great job! Minor adjustments will perfect this pose.",
          "success")%string
    else if geProp similarity 60
    then ("💪 Good effort! Focus on matching the reference pose more closely.",
          "tip")%string
    else if geProp similarity 40
    then ("📐 Check your arm and leg positioning - they need adjustment.",
          "warning")%string
    else ("🔄 Let's work on this pose - focus on the key body positions.",
          "warning")%string in
  let suggestions := generateImprovementSuggestionsOf similarity currentPose in
  [addMessage tip suggestionType; updateCurrentTip tip]
  ++ map addImprovementSuggestion suggestions.

(** The effect on [[currentPose, similarity, score, gameActive]]:
    [if (currentPose && similarity !== null && gameActive)]. *)
Definition analysisEffect (currentPose : option PoseDiffVisualizer.Pose)
  (similarity : SimilarityProp) (gameActive : bool) : list Action :=
  match currentPose with
  | Some _ =>
      match similarity with
      | isNull => []
      | _ =>
          if gameActive then analyzePosePerformanceOf similarity currentPose
          else []
      end
  | None => []
  end.

(** An entry of [poseState.poseHistory], of which [similarity] is read;
    it may be missing. *)
Record HistoryEntry : Type := mkEntry { similarity : option number }.

(** [p.similarity || 0] *)
Definition similarityOr0 (p : HistoryEntry) : number :=
  match similarity p with
  | Some s => s
  | None => 0
  end.

(** [history.slice(-n)] and [history.slice(-from, -to)]. *)
Definition sliceLast {A : Type} (n : nat) (history : list A) : list A :=
  skipn (List.length history - n) history.

Definition sliceBetween {A : Type} (from to : nat) (history : list A) : list A :=
  firstn ((List.length history - to) - (List.length history - from))
    (skipn (List.length history - from) history).

(** [xs.reduce((sum, p) => sum + (p.similarity || 0), 0) / xs.length] *)
Definition averageOf (xs : list HistoryEntry) : number :=
  fold_left (fun sum p => sum + similarityOr0 p) xs 0 / INR (List.length xs).

Definition calculateImprovementTrend (poseHistory : list HistoryEntry) : string :=
  let recent := sliceLast 10 poseHistory in
  let older := sliceBetween 20 10 poseHistory in
  if (List.length recent =? 0)%nat || (List.length older =? 0)%nat
  then "neutral"
  else
    let recentAvg := averageOf recent in
    let olderAvg := averageOf older in
    if gt recentAvg (olderAvg + 5) then "improving"
    else if lt recentAvg (olderAvg - 5) then "declining"
    else "stable".

(** The [averageSimilarity] of [getPerformanceAnalysis]. *)
Definition averageSimilarity (poseHistory : list HistoryEntry) : number :=
  if (0 <? List.length poseHistory)%nat then averageOf poseHistory else 0.

End AIChatCoach.

(** ** Counting the events of the scorers *)

Module ScorerFacts.

Import RealtimeScorer.

(** The ticks of the interval among the events. *)
Fixpoint ticks (events : list Event) : nat :=
  match events with
  | [] => 0
  | Tick :: events' => S (ticks events')
  | _ :: events' => ticks events'
  end.

(** The requests that came back, answered or failed, among the events. *)
Fixpoint settled (events : list Event) : nat :=
  match events with
  | [] => 0
  | Response _ :: events' => S (settled events')
  | Failure :: events' => S (settled events')
  | _ :: events' => settled events'
  end.

(** No render of the events hands a pose to the component. *)
Definition withoutPose (e : Event) : bool :=
  match e with
  | Render _ poseData _ => negb poseData
  | _ => true
  end.

(** What holds of the component between any two events. *)
Definition consistent (s : State) : Prop :=
  timerRunning s = isGameStarted s /\
  intervalRef (refs s) = isGameStarted s /\
  isGameStartedRef (refs s) = isGameStarted s /\
  totalScoreRef (refs s) = totalScore (scores s) /\
  (frameCount (scores s) = 0%nat ->
   totalScore (scores s) = 0 /\ accuracy (scores s) = 0) /\
  ((0 < frameCount (scores s))%nat ->
   accuracy (scores s)
   = Math_round (totalScore (scores s) / INR (frameCount (scores s)))).

(** The [points_earned] of the answers to the second scorer. *)
Fixpoint pointsEarned2 (events : list RealtimeScorer2.Event) : list number :=
  match events with
  | [] => []
  | RealtimeScorer2.Response _ points_earned :: events' =>
      points_earned :: pointsEarned2 events'
  | _ :: events' => pointsEarned2 events'
  end.

End ScorerFacts.

(** ** App (src/frontend/src/App.js)

    The component as a state machine: its [useState] cells, and the
    timers the browser holds for it.  The events are the clicks, the
    callbacks of its children and the timers that fire. *)

Module App.

Record State : Type := mkState {
  isGameStarted : bool;
  isPaused : bool;
  uploadedFile : bool;             (* a file is selected *)
  isProcessing : bool;
  gameStartCountdown : option nat; (* [null] or the seconds left *)
  currentPoseData : bool;          (* a pose is held *)
  isGameEnded : bool;
  finalScore : number;
  countdownTimer : option nat;     (* the pending 1000 ms timer, with the
                                      countdown its callback captured *)
  goTimers : nat;                  (* pending 500 ms timers *)
  processingTimers : nat           (* pending 2000 ms timers *)
}.

Inductive Event : Type :=
| FileUpload (file : bool)
| ProcessingDone
| StartClick
| ResetClick
| PlayAgainClick
| VideoEnd
| PoseDetected (poseData : bool)
| ScoreUpdate (score : number)
| CountdownTimer
| GoTimer.

Definition initial : State :=
  {| isGameStarted := false; isPaused := false; uploadedFile := false;
     isProcessing := false; gameStartCountdown := None;
     currentPoseData := false; isGameEnded := false; finalScore := 0;
     countdownTimer := None; goTimers := 0; processingTimers := 0 |}.

Definition sameCountdown (a b : option nat) : bool :=
  match a, b with
  | None, None => true
  | Some m, Some n => (m =? n)%nat
  | _, _ => false
  end.

(** The effect on [[gameStartCountdown]], run after a render in which
    the countdown changed from [previous]: the cleanup the previous run
    returned, then its body. *)
Definition countdownEffect (previous : option nat) (s : State) : State :=
  let timerLeft :=
    match previous with
    | Some (S _) => None                  (* [clearTimeout(timer)] *)
    | _ => countdownTimer s
    end in
  match gameStartCountdown s with
  | Some (S n) =>
      {| isGameStarted := isGameStarted s; isPaused := isPaused s;
         uploadedFile := uploadedFile s; isProcessing := isProcessing s;
         gameStartCountdown := gameStartCountdown s;
         currentPoseData := currentPoseData s; isGameEnded := isGameEnded s;
         finalScore := finalScore s;
         countdownTimer := Some (S n);
         goTimers := goTimers s; processingTimers := processingTimers s |}
  | Some 0%nat =>
      {| isGameStarted := isGameStarted s; isPaused := isPaused s;
         uploadedFile := uploadedFile s; isProcessing := isProcessing s;
         gameStartCountdown := gameStartCountdown s;
         currentPoseData := currentPoseData s; isGameEnded := isGameEnded s;
         finalScore := finalScore s;
         countdownTimer := timerLeft;
         goTimers := S (goTimers s); processingTimers := processingTimers s |}
  | None =>
      {| isGameStarted := isGameStarted s; isPaused := isPaused s;
         uploadedFile := uploadedFile s; isProcessing := isProcessing s;
         gameStartCountdown := gameStartCountdown s;
         currentPoseData := currentPoseData s; isGameEnded := isGameEnded s;
         finalScore := finalScore s;
         countdownTimer := timerLeft;
         goTimers := goTimers s; processingTimers := processingTimers s |}
  end.

(** A handler's writes to the cells, then the render and its effect;
    the effect runs only when the countdown changed. *)
Definition commit (started paused : bool) (countdown : option nat)
  (ended : bool) (score : number) (s : State) : State :=
  let s' :=
    {| isGameStarted := started; isPaused := paused;
       uploadedFile := uploadedFile s; isProcessing := isProcessing s;
       gameStartCountdown := countdown;
       currentPoseData := currentPoseData s; isGameEnded := ended;
       finalScore := score;
       countdownTimer := countdownTimer s;
       goTimers := goTimers s; processingTimers := processingTimers s |} in
  if sameCountdown countdown (gameStartCountdown s) then s'
  else countdownEffect (gameStartCountdown s) s'.

Definition setGameStartCountdown (countdown : option nat) (s : State) : State :=
  commit (isGameStarted s) (isPaused s) countdown (isGameEnded s)
    (finalScore s) s.

Definition handleVideoEnd (s : State) : State :=
  commit false (isPaused s) (gameStartCountdown s) true (finalScore s) s.

Definition handleFileUpload (file : bool) (s : State) : State :=
  if file then
    {| isGameStarted := isGameStarted s; isPaused := isPaused s;
       uploadedFile := true; isProcessing := true;
       gameStartCountdown := gameStartCountdown s;
       currentPoseData := currentPoseData s; isGameEnded := isGameEnded s;
       finalScore := finalScore s; countdownTimer := countdownTimer s;
       goTimers := goTimers s; processingTimers := S (processingTimers s) |}
  else s.

(** The callback of the 2000 ms timer. *)
Definition processingDone (s : State) : State :=
  {| isGameStarted := isGameStarted s; isPaused := isPaused s;
     uploadedFile := uploadedFile s; isProcessing := false;
     gameStartCountdown := gameStartCountdown s;
     currentPoseData := currentPoseData s; isGameEnded := isGameEnded s;
     finalScore := finalScore s; countdownTimer := countdownTimer s;
     goTimers := goTimers s; processingTimers := pred (processingTimers s) |}.

Definition startGame (s : State) : State :=
  match gameStartCountdown s with
  | None => setGameStartCountdown (Some 5%nat) s
  | Some _ => s
  end.

Definition resetGame (s : State) : State := commit false false None false 0 s.

Definition handlePlayAgain (s : State) : State :=
  commit (isGameStarted s) (isPaused s) (Some 5%nat) false 0 s.

Definition handlePoseDetected (poseData : bool) (s : State) : State :=
  {| isGameStarted := isGameStarted s; isPaused := isPaused s;
     uploadedFile := uploadedFile s; isProcessing := isProcessing s;
     gameStartCountdown := gameStartCountdown s;
     currentPoseData := poseData; isGameEnded := isGameEnded s;
     finalScore := finalScore s; countdownTimer := countdownTimer s;
     goTimers := goTimers s; processingTimers := processingTimers s |}.

Definition setFinalScore (score : number) (s : State) : State :=
  commit (isGameStarted s) (isPaused s) (gameStartCountdown s)
    (isGameEnded s) score s.

(** The callback of the 1000 ms timer:
    [setGameStartCountdown(gameStartCountdown - 1)] with the countdown of
    the render that set the timer. *)
Definition countdownTick (captured : nat) (s : State) : State :=
  setGameStartCountdown (Some (captured - 1)%nat)
    {| isGameStarted := isGameStarted s; isPaused := isPaused s;
       uploadedFile := uploadedFile s; isProcessing := isProcessing s;
       gameStartCountdown := gameStartCountdown s;
       currentPoseData := currentPoseData s; isGameEnded := isGameEnded s;
       finalScore := finalScore s; countdownTimer := None;
       goTimers := goTimers s; processingTimers := processingTimers s |}.

(** The callback of the 500 ms timer. *)
Definition go (s : State) : State :=
  commit true false None (isGameEnded s) (finalScore s)
    {| isGameStarted := isGameStarted s; isPaused := isPaused s;
       uploadedFile := uploadedFile s; isProcessing := isProcessing s;
       gameStartCountdown := gameStartCountdown s;
       currentPoseData := currentPoseData s; isGameEnded := isGameEnded s;
       finalScore := finalScore s; countdownTimer := countdownTimer s;
       goTimers := pred (goTimers s);
       processingTimers := processingTimers s |}.

(** [disabled] of the start button. *)
Definition startDisabled (s : State) : bool :=
  negb (uploadedFile s) || isProcessing s
  || match gameStartCountdown s with Some _ => true | None => false end.

(** What the countdown overlay shows, if it is rendered. *)
Inductive Overlay : Type :=
| seconds (n : nat)
| GO.

Definition overlay (s : State) : option Overlay :=
  match gameStartCountdown s with
  | None => None
  | Some (S n) => Some (seconds (S n))
  | Some 0%nat => Some GO
  end.

(** The scorer and the ending screen are rendered. *)
Definition showsScorer (s : State) : bool := isGameStarted s.
Definition showsEnding (s : State) : bool := isGameEnded s.

(** One event; [None] when it cannot happen in this state: a click on
    a button that is disabled or not rendered, a timer that is not
    pending. *)
Definition step (s : State) (e : Event) : option State :=
  match e with
  | FileUpload file => Some (handleFileUpload file s)
  | ProcessingDone =>
      if (0 <? processingTimers s)%nat then Some (processingDone s) else None
  | StartClick => if startDisabled s then None else Some (startGame s)
  | ResetClick => Some (resetGame s)
  | PlayAgainClick => if showsEnding s then Some (handlePlayAgain s) else None
  | VideoEnd => Some (handleVideoEnd s)
  | PoseDetected poseData => Some (handlePoseDetected poseData s)
  | ScoreUpdate score => Some (setFinalScore score s)
  | CountdownTimer =>
      match countdownTimer s with
      | Some captured => Some (countdownTick captured s)
      | None => None
      end
  | GoTimer => if (0 <? goTimers s)%nat then Some (go s) else None
  end.

Fixpoint run (s : State) (events : list Event) : option State :=
  match events with
  | [] => Some s
  | e :: events' =>
      match step s e with
      | Some s' => run s' events'
      | None => None
      end
  end.

(** The overlay after each event of a run. *)
Fixpoint overlays (s : State) (events : list Event) : list (option Overlay) :=
  match events with
  | [] => []
  | e :: events' =>
      match step s e with
      | Some s' => overlay s' :: overlays s' events'
      | None => []
      end
  end.

(** The timers agree with the countdown: the 1000 ms timer is pending
    exactly while the countdown is positive, and captured it; a 500 ms
    timer is pending while the countdown is at 0; a 2000 ms timer is
    pending while a file is processed. *)
Definition timersAgree (s : State) : Prop :=
  countdownTimer s
  = match gameStartCountdown s with
    | Some (S n) => Some (S n)
    | _ => None
    end /\
  (gameStartCountdown s = Some 0%nat -> (0 < goTimers s)%nat) /\
  (isProcessing s = true -> (0 < processingTimers s)%nat) /\
  (forall n, gameStartCountdown s = Some n -> (n <= 5)%nat).

End App.

(** ** store/cedarStore.js: the reducers of the slices

    A reducer is a function from the state of its slice and the payload
    of the action to the next state.  [Date.now()] is an input: [now]
    is what it answers while the reducer runs. *)

Module cedarStore.

(** [xs.push(x)], then [xs = xs.slice(-n)] when [xs.length > n]. *)
Definition pushKeeping {A : Type} (n : nat) (xs : list A) (x : A) : list A :=
  let xs := xs ++ [x] in
  if (n <? List.length xs)%nat then AIChatCoach.sliceLast n xs else xs.

Module poseState.

Record HistoryEntry (Pose : Type) : Type := mkEntry {
  pose : Pose;
  timestamp : number;
  frame : nat
}.
Arguments mkEntry {Pose}.
Arguments pose {Pose}.
Arguments timestamp {Pose}.
Arguments frame {Pose}.

Record State (Pose : Type) : Type := mkState {
  currentPose : option Pose;
  referencePose : option Pose;
  similarity : number;
  score : number;
  isGameActive : bool;
  gameStartTime : option number;
  totalScore : number;
  poseHistory : list (HistoryEntry Pose);
  frameCount : nat
}.
Arguments mkState {Pose}.
Arguments currentPose {Pose}.
Arguments referencePose {Pose}.
Arguments similarity {Pose}.
Arguments score {Pose}.
Arguments isGameActive {Pose}.
Arguments gameStartTime {Pose}.
Arguments totalScore {Pose}.
Arguments poseHistory {Pose}.
Arguments frameCount {Pose}.

Inductive Action (Pose : Type) : Type :=
| updateCurrentPose (payload : option Pose)
| updateReferencePose (payload : option Pose)
| updateSimilarity (payload : number)
| updateScore (payload : number)
| startGame
| endGame
| resetGame.
Arguments updateCurrentPose {Pose}.
Arguments updateReferencePose {Pose}.
Arguments updateSimilarity {Pose}.
Arguments updateScore {Pose}.
Arguments startGame {Pose}.
Arguments endGame {Pose}.
Arguments resetGame {Pose}.

Definition initialState {Pose : Type} : State Pose :=
  {| currentPose := None; referencePose := None; similarity := 0; score := 0;
     isGameActive := false; gameStartTime := None; totalScore := 0;
     poseHistory := []; frameCount := 0 |}.

Definition reducer {Pose : Type} (now : number) (state : State Pose)
  (action : Action Pose) : State Pose :=
  match action with
  | updateCurrentPose payload =>
      match payload with
      | Some p =>
          {| currentPose := payload;
             referencePose := referencePose state;
             similarity := similarity state; score := score state;
             isGameActive := isGameActive state;
             gameStartTime := gameStartTime state;
             totalScore := totalScore state;
             poseHistory :=
               pushKeeping 100 (poseHistory state)
                 {| pose := p; timestamp := now;
                    frame := frameCount state |};    (* [frameCount++] *)
             frameCount := S (frameCount state) |}
      | None =>
          {| currentPose := payload;
             referencePose := referencePose state;
             similarity := similarity state; score := score state;
             isGameActive := isGameActive state;
             gameStartTime := gameStartTime state;
             totalScore := totalScore state;
             poseHistory := poseHistory state;
             frameCount := frameCount state |}
      end
  | updateReferencePose payload =>
      {| currentPose := currentPose state; referencePose := payload;
         similarity := similarity state; score := score state;
         isGameActive := isGameActive state;
         gameStartTime := gameStartTime state;
         totalScore := totalScore state;
         poseHistory := poseHistory state; frameCount := frameCount state |}
  | updateSimilarity payload =>
      {| currentPose := currentPose state;
         referencePose := referencePose state;
         similarity := payload; score := score state;
         isGameActive := isGameActive state;
         gameStartTime := gameStartTime state;
         totalScore := totalScore state;
         poseHistory := poseHistory state; frameCount := frameCount state |}
  | updateScore payload =>
      {| currentPose := currentPose state;
         referencePose := referencePose state;
         similarity := similarity state; score := payload;
         isGameActive := isGameActive state;
         gameStartTime := gameStartTime state;
         totalScore := totalScore state + payload;
         poseHistory := poseHistory state; frameCount := frameCount state |}
  | startGame =>
      {| currentPose := currentPose state;
         referencePose := referencePose state;
         similarity := similarity state; score := score state;
         isGameActive := true; gameStartTime := Some now;
         totalScore := 0; poseHistory := []; frameCount := 0 |}
  | endGame =>
      {| currentPose := currentPose state;
         referencePose := referencePose state;
         similarity := similarity state; score := score state;
         isGameActive := false;
         gameStartTime := gameStartTime state;
         totalScore := totalScore state;
         poseHistory := poseHistory state; frameCount := frameCount state |}
  | resetGame => initialState
  end.

(** The actions dispatched one after the other, each with the instant
    at which its reducer runs. *)
Definition dispatchAll {Pose : Type} (state : State Pose)
  (actions : list (number * Action Pose)) : State Pose :=
  fold_left (fun state a => reducer (fst a) state (snd a)) actions state.

End poseState.

Module aiCoaching.

Record Message : Type := mkMessage {
  id : number;
  content : string;
  type : string;
  timestamp : number
}.

Record ChatMessage : Type := mkChatMessage {
  chat_id : number;
  message : string;
  sender : string;
  chat_timestamp : number
}.

(** The [performanceAnalysis] cell is written by
    [updatePerformanceAnalysis] only; its payload is kept as it is. *)
Record State (Analysis : Type) : Type := mkState {
  messages : list Message;
  isTyping : bool;
  currentTip : option string;
  improvementSuggestions : list AIChatCoach.Suggestion;
  performanceAnalysis : option Analysis;
  chatHistory : list ChatMessage
}.
Arguments mkState {Analysis}.
Arguments messages {Analysis}.
Arguments isTyping {Analysis}.
Arguments currentTip {Analysis}.
Arguments improvementSuggestions {Analysis}.
Arguments performanceAnalysis {Analysis}.
Arguments chatHistory {Analysis}.

Inductive Action (Analysis : Type) : Type :=
| addMessage (content : string) (type : option string)
| setTyping (payload : bool)
| updateCurrentTip (payload : option string)
| addImprovementSuggestion (payload : AIChatCoach.Suggestion)
| updatePerformanceAnalysis (payload : option Analysis)
| addChatMessage (message sender : string)
| clearMessages.
Arguments addMessage {Analysis}.
Arguments setTyping {Analysis}.
Arguments updateCurrentTip {Analysis}.
Arguments addImprovementSuggestion {Analysis}.
Arguments updatePerformanceAnalysis {Analysis}.
Arguments addChatMessage {Analysis}.
Arguments clearMessages {Analysis}.

Definition initialState {Analysis : Type} : State Analysis :=
  {| messages := []; isTyping := false; currentTip := None;
     improvementSuggestions := []; performanceAnalysis := None;
     chatHistory := [] |}.

(** [type || 'info']: the empty string is as good as none. *)
Definition typeOrInfo (type : option string) : string :=
  match type with
  | Some EmptyString => "info"
  | Some t => t
  | None => "info"
  end.

Definition reducer {Analysis : Type} (now : number) (state : State Analysis)
  (action : Action Analysis) : State Analysis :=
  match action with
  | addMessage c t =>
      {| messages :=
           pushKeeping 50 (messages state)
             {| id := now; content := c; type := typeOrInfo t;
                timestamp := now |};
         isTyping := isTyping state; currentTip := currentTip state;
         improvementSuggestions := improvementSuggestions state;
         performanceAnalysis := performanceAnalysis state;
         chatHistory := chatHistory state |}
  | setTyping payload =>
      {| messages := messages state;
         isTyping := payload; currentTip := currentTip state;
         improvementSuggestions := improvementSuggestions state;
         performanceAnalysis := performanceAnalysis state;
         chatHistory := chatHistory state |}
  | updateCurrentTip payload =>
      {| messages := messages state;
         isTyping := isTyping state; currentTip := payload;
         improvementSuggestions := improvementSuggestions state;
         performanceAnalysis := performanceAnalysis state;
         chatHistory := chatHistory state |}
  | addImprovementSuggestion payload =>
      {| messages := messages state;
         isTyping := isTyping state; currentTip := currentTip state;
         improvementSuggestions :=
           pushKeeping 10 (improvementSuggestions state) payload;
         performanceAnalysis := performanceAnalysis state;
         chatHistory := chatHistory state |}
  | updatePerformanceAnalysis payload =>
      {| messages := messages state;
         isTyping := isTyping state; currentTip := currentTip state;
         improvementSuggestions := improvementSuggestions state;
         performanceAnalysis := payload;
         chatHistory := chatHistory state |}
  | addChatMessage m s =>
      {| messages := messages state;
         isTyping := isTyping state; currentTip := currentTip state;
         improvementSuggestions := improvementSuggestions state;
         performanceAnalysis := performanceAnalysis state;
         chatHistory :=
           chatHistory state
           ++ [ {| chat_id := now; message := m; sender := s;
                   chat_timestamp := now |} ] |}
  | clearMessages =>
      {| messages := [];
         isTyping := isTyping state; currentTip := None;
         improvementSuggestions := improvementSuggestions state;
         performanceAnalysis := performanceAnalysis state;
         chatHistory := chatHistory state |}
  end.

Definition dispatchAll {Analysis : Type} (state : State Analysis)
  (actions : list (number * Action Analysis)) : State Analysis :=
  fold_left (fun state a => reducer (fst a) state (snd a)) actions state.

(** What the coach dispatches, as an action of the slice. *)
Definition ofCoach {Analysis : Type} (a : AIChatCoach.Action)
  : Action Analysis :=
  match a with
  | AIChatCoach.addMessage c t => addMessage c (Some t)
  | AIChatCoach.updateCurrentTip tip => updateCurrentTip (Some tip)
  | AIChatCoach.addImprovementSuggestion s => addImprovementSuggestion s
  end.

End aiCoaching.

Module voiceControl.

Record Command : Type := mkCommand {
  command : string;
  timestamp : number;
  executed : bool
}.

(** [recognition] is [null] in the initial state and no reducer writes
    it; it is left out. *)
Record State : Type := mkState {
  isListening : bool;
  lastCommand : option string;
  voiceFeedbackEnabled : bool;
  availableCommands : list string;
  commandHistory : list Command
}.

Inductive Action : Type :=
| setListening (payload : bool)
| addCommand (payload : string)
| markCommandExecuted
| toggleVoiceFeedback
| setRecognition.

Definition initialState : State :=
  {| isListening := false; lastCommand := None;
     voiceFeedbackEnabled := true;
     availableCommands :=
       [ "start game"; "pause game"; "resume game"; "reset game";
         "show tips"; "hide tips"; "switch video";
         "analyze performance" ]%string;
     commandHistory := [] |}.

(** [history[history.length - 1].executed = true] *)
Definition markLast (history : list Command) : list Command :=
  match List.length history with
  | 0%nat => history
  | S k =>
      match nth_error history k with
      | Some c =>
          firstn k history
          ++ [ {| command := command c; timestamp := timestamp c;
                  executed := true |} ]
      | None => history
      end
  end.

Definition reducer (now : number) (state : State) (action : Action) : State :=
  match action with
  | setListening payload =>
      {| isListening := payload; lastCommand := lastCommand state;
         voiceFeedbackEnabled := voiceFeedbackEnabled state;
         availableCommands := availableCommands state;
         commandHistory := commandHistory state |}
  | addCommand payload =>
      {| isListening := isListening state; lastCommand := Some payload;
         voiceFeedbackEnabled := voiceFeedbackEnabled state;
         availableCommands := availableCommands state;
         commandHistory :=
           pushKeeping 20 (commandHistory state)
             {| command := payload; timestamp := now; executed := false |} |}
  | markCommandExecuted =>
      {| isListening := isListening state; lastCommand := lastCommand state;
         voiceFeedbackEnabled := voiceFeedbackEnabled state;
         availableCommands := availableCommands state;
         commandHistory :=
           if (0 <? List.length (commandHistory state))%nat
           then markLast (commandHistory state)
           else commandHistory state |}
  | toggleVoiceFeedback =>
      {| isListening := isListening state; lastCommand := lastCommand state;
         voiceFeedbackEnabled := negb (voiceFeedbackEnabled state);
         availableCommands := availableCommands state;
         commandHistory := commandHistory state |}
  | setRecognition => state
  end.

Definition dispatchAll (state : State) (actions : list (number * Action))
  : State :=
  fold_left (fun state a => reducer (fst a) state (snd a)) actions state.

End voiceControl.

End cedarStore.

(** ** What the store is asked for *)

Module StoreFacts.

(** The suggestions dispatched to the slice of the coach, in order. *)
Fixpoint suggestionsOf {Analysis : Type}
  (actions : list (number * cedarStore.aiCoaching.Action Analysis))
  : list AIChatCoach.Suggestion :=
  match actions with
  | [] => []
  | (_, cedarStore.aiCoaching.addImprovementSuggestion s) :: actions' =>
      s :: suggestionsOf actions'
  | _ :: actions' => suggestionsOf actions'
  end.

(** The contents of the messages dispatched since the last
    [clearMessages], in order, after those in [contents]. *)
Fixpoint contentsSinceClear {Analysis : Type} (contents : list string)
  (actions : list (number * cedarStore.aiCoaching.Action Analysis))
  : list string :=
  match actions with
  | [] => contents
  | (_, cedarStore.aiCoaching.addMessage c _) :: actions' =>
      contentsSinceClear (contents ++ [c]) actions'
  | (_, cedarStore.aiCoaching.clearMessages) :: actions' =>
      contentsSinceClear [] actions'
  | _ :: actions' => contentsSinceClear contents actions'
  end.

(** An entry of the pose history as the coach reads it: the reducer
    writes [pose], [timestamp] and [frame], so that [similarity] is
    [undefined]. *)
Definition asRead {Pose : Type} (entry : cedarStore.poseState.HistoryEntry Pose)
  : AIChatCoach.HistoryEntry :=
  {| AIChatCoach.similarity := None |}.

(** [array[array.length - 1]] *)
Definition newest {A : Type} (xs : list A) : option A :=
  nth_error xs (List.length xs - 1).

(** The history holds the last frames, at most 100, numbered as the
    counter went. *)
Definition framesInOrder {Pose : Type} (s : cedarStore.poseState.State Pose)
  : Prop :=
  List.length (cedarStore.poseState.poseHistory s)
  = Nat.min (cedarStore.poseState.frameCount s) 100 /\
  map cedarStore.poseState.frame (cedarStore.poseState.poseHistory s)
  = seq (cedarStore.poseState.frameCount s
         - List.length (cedarStore.poseState.poseHistory s))
      (List.length (cedarStore.poseState.poseHistory s)).

End StoreFacts.

(** ** What the voice slice keeps *)

Module VoiceFacts.

(** At most 20 commands are held, [lastCommand] is the command of the
    newest of them, and the list of available commands is the initial
    one. *)
Definition heard (s : cedarStore.voiceControl.State) : Prop :=
  (List.length (cedarStore.voiceControl.commandHistory s) <= 20)%nat /\
  cedarStore.voiceControl.lastCommand s
  = option_map cedarStore.voiceControl.command
      (StoreFacts.newest (cedarStore.voiceControl.commandHistory s)) /\
  cedarStore.voiceControl.availableCommands s
  = cedarStore.voiceControl.availableCommands
      cedarStore.voiceControl.initialState.

End VoiceFacts.

(** ** The scorer inside the App

    [App] renders the scorer as [{isGameStarted && <RealtimeScorer
    isGameStarted={isGameStarted} poseData={currentPoseData}
    onScoreUpdate={setFinalScore} />}]: the scorer is mounted when a
    render of the App finds the game started and unmounted when one
    finds it not started.  An unmounted instance is gone for React, but
    not for the browser: the requests it issued are still answered and
    its timers still fire, in closures that hold its refs.  The state
    of the program is therefore the state of the App, the mounted
    scorer if there is one, and the instances unmounted so far. *)

Module Program.

Record State : Type := mkState {
  app : App.State;
  scorer : option RealtimeScorer.State;
  unmounted : list RealtimeScorer.State
}.

(** An event of the App, an event of the mounted scorer (a tick, an
    answer, a failure, the timer of the point gain), or one of these for
    an unmounted instance. *)
Inductive Event : Type :=
| ofApp (e : App.Event)
| ofScorer (e : RealtimeScorer.Event)
| ofUnmounted (instance : nat) (e : RealtimeScorer.Event).

Definition initial : State :=
  {| app := App.initial; scorer := None; unmounted := [] |}.

(** The unmount runs the cleanup of the interval effect. *)
Definition unmount (s : RealtimeScorer.State) : RealtimeScorer.State :=
  RealtimeScorer.clearIfSet s.

(** A render of the App in state [a]: the scorer is mounted, rendered
    again with the props of this render, or unmounted.
    [setFinalScore] is the same function in every render. *)
Definition renderApp (a : App.State) (p : State) : State :=
  if App.showsScorer a then
    {| app := a;
       scorer :=
         Some match scorer p with
              | Some s =>
                  RealtimeScorer.render true (App.currentPoseData a) false s
              | None => RealtimeScorer.mount true (App.currentPoseData a)
              end;
       unmounted := unmounted p |}
  else
    {| app := a;
       scorer := None;
       unmounted :=
         match scorer p with
         | Some s => unmounted p ++ [unmount s]
         | None => unmounted p
         end |}.

(** [onScoreUpdate(newTotalScore, ...)] in the continuation of
    [sendPoseForScoring]: the App takes the new total as its final
    score.  Its render leaves the props of the scorer as they are. *)
Definition onScoreUpdate (e : RealtimeScorer.Event)
  (after : RealtimeScorer.State) (a : App.State) : App.State :=
  match e with
  | RealtimeScorer.Response _ =>
      App.setFinalScore
        (RealtimeScorer.totalScoreRef (RealtimeScorer.refs after)) a
  | _ => a
  end.

(** React drops the state updates of an unmounted component; what its
    closures do to the refs and to the browser stays. *)
Definition dropUpdates (before after : RealtimeScorer.State)
  : RealtimeScorer.State :=
  {| RealtimeScorer.scores := RealtimeScorer.scores before;
     RealtimeScorer.refs := RealtimeScorer.refs after;
     RealtimeScorer.isGameStarted := RealtimeScorer.isGameStarted after;
     RealtimeScorer.timerRunning := RealtimeScorer.timerRunning after;
     RealtimeScorer.inFlight := RealtimeScorer.inFlight after;
     RealtimeScorer.requests := RealtimeScorer.requests after;
     RealtimeScorer.hideTimers := RealtimeScorer.hideTimers after |}.

Fixpoint replaceAt {A : Type} (i : nat) (x : A) (xs : list A) : list A :=
  match xs, i with
  | [], _ => []
  | _ :: xs', 0%nat => x :: xs'
  | y :: xs', S i' => y :: replaceAt i' x xs'
  end.

(** The events a scorer takes from the browser; its renders come from
    the App. *)
Definition fromBrowser (e : RealtimeScorer.Event) : bool :=
  match e with
  | RealtimeScorer.Render _ _ _ => false
  | _ => true
  end.

(** One event; [None] when it cannot happen in this state. *)
Definition step (p : State) (e : Event) : option State :=
  match e with
  | ofApp (App.ScoreUpdate _) => None   (* only the scorer calls it *)
  | ofApp e =>
      match App.step (app p) e with
      | Some a => Some (renderApp a p)
      | None => None
      end
  | ofScorer e =>
      if fromBrowser e then
        match scorer p with
        | Some s =>
            match RealtimeScorer.step s e with
            | Some s' =>
                Some {| app := onScoreUpdate e s' (app p);
                        scorer := Some s';
                        unmounted := unmounted p |}
            | None => None
            end
        | None => None
        end
      else None
  | ofUnmounted instance e =>
      if fromBrowser e then
        match nth_error (unmounted p) instance with
        | Some s =>
            match RealtimeScorer.step s e with
            | Some s' =>
                Some {| app := onScoreUpdate e s' (app p);
                        scorer := scorer p;
                        unmounted :=
                          replaceAt instance (dropUpdates s s')
                            (unmounted p) |}
            | None => None
            end
        | None => None
        end
      else None
  end.

Fixpoint run (p : State) (events : list Event) : option State :=
  match events with
  | [] => Some p
  | e :: events' =>
      match step p e with
      | Some p' => run p' events'
      | None => None
      end
  end.





End Program.

(** * Properties *)

(** ** Comparison helpers *)

Lemma lt_true (x y : number) : x < y -> lt x y = true.
Proof. intros H; unfold lt; destruct (Rlt_dec x y); [reflexivity | lra]. Qed.

Lemma lt_false (x y : number) : y <= x -> lt x y = false.
Proof. intros H; unfold lt; destruct (Rlt_dec x y); [lra | reflexivity]. Qed.

Lemma gt_true (x y : number) : x > y -> gt x y = true.
Proof. intros H; unfold gt; destruct (Rgt_dec x y); [reflexivity | lra]. Qed.

Lemma gt_false (x y : number) : x <= y -> gt x y = false.
Proof. intros H; unfold gt; destruct (Rgt_dec x y); [lra | reflexivity]. Qed.

(** ** Nearest record of a timeline *)

Section FindPoseForTime.

Import VideoPlayer.

Variable q : number.

Let dist (p : FrameRecord) : number := Math_abs (t p - q).

(** The loop started on [c0] ends on a record at least as close as
    [c0] and as every record it went through; it is [c0] itself unless
    a strictly closer record occurred, and then it is the first of the
    closest ones. *)
Lemma closest_loop (frames : list FrameRecord) :
  forall c0 : FrameRecord,
    let r := fold_left (closerPose q) frames (c0, dist c0) in
    snd r = dist (fst r) /\
    dist (fst r) <= dist c0 /\
    (forall p, In p frames -> dist (fst r) <= dist p) /\
    ((fst r = c0 /\ forall p, In p frames -> dist c0 <= dist p) \/
     (exists i, nth_error frames i = Some (fst r) /\
                dist (fst r) < dist c0 /\
                forall j p, (j < i)%nat -> nth_error frames j = Some p ->
                            dist (fst r) < dist p)).
Proof.
  induction frames as [| x xs IH]; intros c0; cbn zeta.
  - cbn. repeat split; try lra.
    + intros p [].
    + left. split; [reflexivity | intros p []].
  - cbn [fold_left].
    assert (Hstep : closerPose q (c0, dist c0) x =
                    if lt (dist x) (dist c0) then (x, dist x) else (c0, dist c0))
      by reflexivity.
    rewrite Hstep; clear Hstep. unfold lt.
    destruct (Rlt_dec (dist x) (dist c0)) as [Hlt | Hge].
    + destruct (IH x) as (Hs & Hle & Hall & Hfirst).
      set (r := fold_left (closerPose q) xs (x, dist x)) in *.
      repeat split; [exact Hs | lra | |].
      * intros p [<- | Hp]; [exact Hle | exact (Hall p Hp)].
      * right. destruct Hfirst as [[Heq Hmin] | (i & Hi & Hlt' & Hbefore)].
        -- exists 0%nat. cbn. rewrite Heq. repeat split; [exact Hlt |].
           intros j p Hj; lia.
        -- exists (S i). cbn [nth_error]. repeat split; [exact Hi | lra |].
           intros [| j] p Hj Hp; cbn in Hp.
           ++ injection Hp as <-. exact Hlt'.
           ++ apply (Hbefore j p); [lia | exact Hp].
    + destruct (IH c0) as (Hs & Hle & Hall & Hfirst).
      set (r := fold_left (closerPose q) xs (c0, dist c0)) in *.
      repeat split; [exact Hs | exact Hle | |].
      * intros p [<- | Hp]; [lra | exact (Hall p Hp)].
      * destruct Hfirst as [[Heq Hmin] | (i & Hi & Hlt' & Hbefore)].
        -- left. split; [exact Heq |].
           intros p [<- | Hp]; [lra | exact (Hmin p Hp)].
        -- right. exists (S i). cbn [nth_error]. repeat split; [exact Hi | exact Hlt' |].
           intros [| j] p Hj Hp; cbn in Hp.
           ++ injection Hp as <-. lra.
           ++ apply (Hbefore j p); [lia | exact Hp].
Qed.

End FindPoseForTime.

Lemma sorted_nth_error (frames : list VideoPlayer.FrameRecord) :
  StronglySorted (fun a b => VideoPlayer.t a <= VideoPlayer.t b) frames ->
  forall i j a b, (i <= j)%nat ->
    nth_error frames i = Some a -> nth_error frames j = Some b ->
    VideoPlayer.t a <= VideoPlayer.t b.
Proof.
  induction 1 as [| x xs Hsorted IH Hall]; intros i j a b Hij Ha Hb.
  - destruct i; discriminate.
  - destruct i as [| i], j as [| j]; cbn in Ha, Hb.
    + injection Ha as <-. injection Hb as <-. lra.
    + injection Ha as <-. rewrite Forall_forall in Hall.
      apply Hall. eapply nth_error_In. exact Hb.
    + lia.
    + apply (IH i j a b); [lia | exact Ha | exact Hb].
Qed.

(** C1.  [findPoseForTime] answers [null] exactly for an absent or an
    empty timeline; on any other timeline it answers one of its records,
    whose timestamp is at least as close to the query time as that of
    every record, and strictly closer than that of every record before
    it: it is the earliest of the closest ones, and on a timeline in the
    order of its timestamps no equally close record has a smaller
    timestamp. *)
Theorem findPoseForTime_nearest :
  forall (poseData : option (list VideoPlayer.FrameRecord)) (q : number),
    (VideoPlayer.findPoseForTime poseData q = None <->
       poseData = None \/ poseData = Some []) /\
    (forall first rest, poseData = Some (first :: rest) ->
       exists r i,
         VideoPlayer.findPoseForTime poseData q = Some r /\
         nth_error (first :: rest) i = Some r /\
         (forall p, In p (first :: rest) ->
            Rabs (VideoPlayer.t r - q) <= Rabs (VideoPlayer.t p - q)) /\
         (forall j p, (j < i)%nat -> nth_error (first :: rest) j = Some p ->
            Rabs (VideoPlayer.t r - q) < Rabs (VideoPlayer.t p - q)) /\
         (StronglySorted (fun a b => VideoPlayer.t a <= VideoPlayer.t b)
            (first :: rest) ->
          forall p, In p (first :: rest) ->
            Rabs (VideoPlayer.t p - q) = Rabs (VideoPlayer.t r - q) ->
            VideoPlayer.t r <= VideoPlayer.t p)).
Proof.
  intros poseData q. split.
  - destruct poseData as [[| first rest] |]; cbn; split; intros H;
      try reflexivity; try discriminate; auto.
    + destruct H as [H | H]; discriminate.
  - intros first rest ->.
    pose proof (closest_loop q (first :: rest) first) as H. cbn zeta in H.
    destruct H as (_ & _ & Hall & Hfirst).
    change (VideoPlayer.findPoseForTime (Some (first :: rest)) q)
      with (Some (fst (fold_left (VideoPlayer.closerPose q) (first :: rest)
                         (first, Math_abs (VideoPlayer.t first - q))))).
    set (r := fold_left (VideoPlayer.closerPose q) (first :: rest)
                (first, Math_abs (VideoPlayer.t first - q))) in *.
    unfold Math_abs in Hall, Hfirst.
    assert (Hindex : exists i,
              nth_error (first :: rest) i = Some (fst r) /\
              forall j p, (j < i)%nat -> nth_error (first :: rest) j = Some p ->
                Rabs (VideoPlayer.t (fst r) - q) < Rabs (VideoPlayer.t p - q)).
    { destruct Hfirst as [[Heq Hmin] | (i & Hi & Hlt & Hbefore)].
      - exists 0%nat. split; [cbn [nth_error]; now rewrite Heq |].
        intros j p Hj; lia.
      - exists i. split; assumption. }
    destruct Hindex as (i & Hi & Hbefore).
    exists (fst r), i. repeat split; try assumption.
    intros Hsorted p Hp Hsame.
    apply In_nth_error in Hp. destruct Hp as (j & Hj).
    destruct (Nat.lt_ge_cases j i) as [Hlt | Hge].
    + specialize (Hbefore j p Hlt Hj). lra.
    + apply (sorted_nth_error _ Hsorted i j); assumption.
Qed.

(** At 0.75 s the records at 0.5 s and at 1 s are equally close: the
    earlier one is answered. *)
Example findPoseForTime_tie :
  VideoPlayer.findPoseForTime
    (Some [Inputs.frame0; Inputs.frame1; Inputs.frame2]) 0.75
  = Some Inputs.frame1.
Proof.
  unfold VideoPlayer.findPoseForTime. f_equal.
  cbn [fold_left]. unfold VideoPlayer.closerPose, Math_abs.
  cbn [snd VideoPlayer.t Inputs.frame0 Inputs.frame1 Inputs.frame2].
  replace (Rabs (0 - 0.75)) with 0.75
    by (rewrite Rabs_left by lra; lra).
  replace (Rabs (0.5 - 0.75)) with 0.25
    by (rewrite Rabs_left by lra; lra).
  replace (Rabs (1 - 0.75)) with 0.25
    by (rewrite Rabs_right by lra; lra).
  rewrite (lt_false 0.75 0.75) by lra. cbn [snd].
  rewrite (lt_true 0.25 0.75) by lra. cbn [snd].
  rewrite (lt_false 0.25 0.25) by lra. reflexivity.
Qed.

Lemma findPoseForTime_nearest_witness :
  exists r i,
    VideoPlayer.findPoseForTime
      (Some [Inputs.frame0; Inputs.frame1; Inputs.frame2]) 0.75 = Some r /\
    nth_error [Inputs.frame0; Inputs.frame1; Inputs.frame2] i = Some r /\
    (forall p, In p [Inputs.frame0; Inputs.frame1; Inputs.frame2] ->
       Rabs (VideoPlayer.t r - 0.75) <= Rabs (VideoPlayer.t p - 0.75)) /\
    (forall j p, (j < i)%nat ->
       nth_error [Inputs.frame0; Inputs.frame1; Inputs.frame2] j = Some p ->
       Rabs (VideoPlayer.t r - 0.75) < Rabs (VideoPlayer.t p - 0.75)) /\
    (StronglySorted (fun a b => VideoPlayer.t a <= VideoPlayer.t b)
       [Inputs.frame0; Inputs.frame1; Inputs.frame2] ->
     forall p, In p [Inputs.frame0; Inputs.frame1; Inputs.frame2] ->
       Rabs (VideoPlayer.t p - 0.75) = Rabs (VideoPlayer.t r - 0.75) ->
       VideoPlayer.t r <= VideoPlayer.t p).
Proof.
  apply (proj2 (findPoseForTime_nearest
                  (Some [Inputs.frame0; Inputs.frame1; Inputs.frame2]) 0.75)
           Inputs.frame0 [Inputs.frame1; Inputs.frame2] eq_refl).
Defined.

(** ** Pose differences *)

Section PoseDifferences.

Import PoseDiffVisualizer PoseDiffSpec.

(** Inside both arrays the loop body never throws, and appends the
    contribution of its index. *)
Lemma differenceAt_in_range (ckp rkp : list Landmark) (i : nat)
  (acc : list Difference) :
  (i < List.length ckp)%nat -> (i < List.length rkp)%nat ->
  differenceAt ckp rkp i acc = Ok (acc ++ contributionAt ckp rkp i).
Proof.
  intros Hc Hr. unfold differenceAt, contributionAt, at_index.
  destruct (nth_error ckp i) as [c |] eqn:Ec;
    [| apply nth_error_None in Ec; lia].
  destruct (nth_error rkp i) as [r |] eqn:Er;
    [| apply nth_error_None in Er; lia].
  cbn [property bind].
  destruct (gt (lm_visibility c) 0.5); cbn [andb];
    [destruct (gt (lm_visibility r) 0.5) |];
    try (now rewrite app_nil_r).
  reflexivity.
Qed.

Lemma differences_loop (ckp rkp : list Landmark) (n : nat) :
  forall (start : nat) (acc : list Difference),
    (start + n <= List.length ckp)%nat -> (start + n <= List.length rkp)%nat ->
    for_loop n start (differenceAt ckp rkp) acc =
    Ok (acc ++ flat_map (contributionAt ckp rkp) (seq start n)).
Proof.
  induction n as [| n IH]; intros start acc Hc Hr.
  - cbn. now rewrite app_nil_r.
  - cbn [for_loop seq flat_map].
    rewrite differenceAt_in_range by lia. cbn [bind].
    rewrite IH by lia. now rewrite <- app_assoc.
Qed.

(** [calculatePoseDifferences] never throws; its answer is the list of the
    contributions of the indices below both lengths, in order. *)
Lemma calculatePoseDifferences_closed_form (current reference : option Pose) :
  calculatePoseDifferences current reference =
  Ok match optional_kp current, optional_kp reference with
     | Some ckp, Some rkp =>
         flat_map (contributionAt ckp rkp)
           (seq 0 (Nat.min (List.length ckp) (List.length rkp)))
     | _, _ => []
     end.
Proof.
  unfold calculatePoseDifferences.
  destruct (optional_kp current) as [ckp |]; [| reflexivity].
  destruct (optional_kp reference) as [rkp |]; [| reflexivity].
  cbn zeta. rewrite differences_loop by lia. reflexivity.
Qed.

Lemma in_contributionAt (ckp rkp : list Landmark) (i : nat) (d : Difference) :
  In d (contributionAt ckp rkp i) <->
  exists c r, nth_error ckp i = Some c /\ nth_error rkp i = Some r /\
              lm_visibility c > 0.5 /\ lm_visibility r > 0.5 /\
              d = differenceOf i c r.
Proof.
  unfold contributionAt, gt. split.
  - destruct (nth_error ckp i) as [c |]; [| intros []].
    destruct (nth_error rkp i) as [r |]; [| intros []].
    destruct (Rgt_dec (lm_visibility c) 0.5); [| intros []].
    destruct (Rgt_dec (lm_visibility r) 0.5); [| intros []].
    intros [<- | []]. exists c, r. repeat split; assumption.
  - intros (c & r & -> & -> & Hc & Hr & ->).
    destruct (Rgt_dec (lm_visibility c) 0.5); [| lra].
    destruct (Rgt_dec (lm_visibility r) 0.5); [| lra].
    now left.
Qed.

Lemma contributionAt_hidden (ckp rkp : list Landmark) (i : nat) :
  (forall c, nth_error ckp i = Some c -> lm_visibility c <= 0.5) \/
  (forall r, nth_error rkp i = Some r -> lm_visibility r <= 0.5) ->
  contributionAt ckp rkp i = [].
Proof.
  intros H. unfold contributionAt.
  destruct (nth_error ckp i) as [c |]; [| reflexivity].
  destruct (nth_error rkp i) as [r |]; [| reflexivity].
  destruct H as [H | H].
  - now rewrite (gt_false _ _ (H c eq_refl)).
  - rewrite (gt_false (lm_visibility r) _ (H r eq_refl)).
    now rewrite andb_false_r.
Qed.

Lemma flat_map_nil {A B : Type} (f : A -> list B) (l : list A) :
  (forall a, In a l -> f a = []) -> flat_map f l = [].
Proof.
  induction l as [| a l IH]; intros H; cbn; [reflexivity |].
  rewrite (H a) by now left. apply IH. intros b Hb. apply H. now right.
Qed.

End PoseDifferences.

(** C10.  [calculatePoseDifferences] answers a list for every pair of
    poses, whatever the lengths of their [kp] arrays and also when a pose
    or its [kp] is missing: nothing is thrown.  The list is empty when a
    [kp] is missing; the loop runs over the indices below both lengths,
    where both arrays have a landmark, and the [jointIndex] of every
    entry is such an index. *)
Theorem calculatePoseDifferences_total_in_bounds :
  forall current reference : option PoseDiffVisualizer.Pose,
    exists differences,
      PoseDiffVisualizer.calculatePoseDifferences current reference
        = Ok differences /\
      (PoseDiffVisualizer.optional_kp current = None \/
       PoseDiffVisualizer.optional_kp reference = None -> differences = []) /\
      (forall ckp rkp,
         PoseDiffVisualizer.optional_kp current = Some ckp ->
         PoseDiffVisualizer.optional_kp reference = Some rkp ->
         let minLength := Nat.min (List.length ckp) (List.length rkp) in
         PoseDiffVisualizer.calculatePoseDifferences current reference
           = for_loop minLength 0 (PoseDiffVisualizer.differenceAt ckp rkp) [] /\
         (forall i, In i (seq 0 minLength) ->
            exists c r, at_index ckp i = Some c /\ at_index rkp i = Some r) /\
         (forall d, In d differences ->
            (PoseDiffVisualizer.jointIndex d < minLength)%nat)).
Proof.
  intros current reference.
  rewrite calculatePoseDifferences_closed_form.
  eexists. split; [reflexivity |]. split.
  - intros [-> | ->]; [reflexivity |].
    now destruct (PoseDiffVisualizer.optional_kp current).
  - intros ckp rkp -> ->. cbn zeta. repeat split.
    + rewrite differences_loop by lia. reflexivity.
    + intros i Hi. apply in_seq in Hi. unfold at_index.
      destruct (nth_error ckp i) as [c |] eqn:Ec;
        [| apply nth_error_None in Ec; lia].
      destruct (nth_error rkp i) as [r |] eqn:Er;
        [| apply nth_error_None in Er; lia].
      now exists c, r.
    + intros d Hd.
      apply in_flat_map in Hd. destruct Hd as (i & Hi & Hd).
      apply in_seq in Hi. apply in_contributionAt in Hd.
      destruct Hd as (c & r & _ & _ & _ & _ & ->). cbn. lia.
Qed.

(** A live pose of three landmarks against a reference of two: the
    indices 0 and 1 are compared, the third landmark is never read. *)
Example calculatePoseDifferences_unequal_lengths :
  PoseDiffVisualizer.calculatePoseDifferences
    (Some {| PoseDiffVisualizer.kp :=
               Some [Inputs.seen; Inputs.unseen; Inputs.seen] |})
    (Some {| PoseDiffVisualizer.kp := Some [Inputs.seen; Inputs.seen] |})
  = Ok [PoseDiffSpec.differenceOf 0 Inputs.seen Inputs.seen].
Proof.
  unfold PoseDiffVisualizer.calculatePoseDifferences.
  cbn [PoseDiffVisualizer.optional_kp PoseDiffVisualizer.kp List.length Nat.min
       for_loop].
  unfold PoseDiffVisualizer.differenceAt, at_index.
  cbn [nth_error property bind Inputs.seen Inputs.unseen lm_visibility lm_x lm_y].
  rewrite (gt_true 0.9 0.5), (gt_false 0 0.5) by lra.
  cbn [bind app]. reflexivity.
Qed.

Lemma hidden_pose_no_difference
  (current reference : option PoseDiffVisualizer.Pose) :
  PoseDiffSpec.allHidden current \/ PoseDiffSpec.allHidden reference ->
  PoseDiffVisualizer.calculatePoseDifferences current reference = Ok [].
Proof.
  intros H.
  rewrite calculatePoseDifferences_closed_form. f_equal.
  unfold PoseDiffSpec.allHidden in H.
  destruct (PoseDiffVisualizer.optional_kp current) as [ckp |]; [| reflexivity].
  destruct (PoseDiffVisualizer.optional_kp reference) as [rkp |]; [| reflexivity].
  apply flat_map_nil. intros i _. apply contributionAt_hidden.
  destruct H as [H | H]; [left | right]; intros lm Hlm;
    specialize (H _ eq_refl); rewrite Forall_forall in H;
    apply H; eapply nth_error_In; exact Hlm.
Qed.

(** C6, as amended.  When every landmark of the live pose, or every
    landmark of the reference pose, has visibility at or below 0.5,
    [calculatePoseDifferences] answers the empty list and throws
    nothing. *)
Theorem calculatePoseDifferences_all_hidden :
  forall current reference : option PoseDiffVisualizer.Pose,
    PoseDiffSpec.allHidden current \/ PoseDiffSpec.allHidden reference ->
    PoseDiffVisualizer.calculatePoseDifferences current reference = Ok [].
Proof. exact hidden_pose_no_difference. Qed.

Lemma calculatePoseDifferences_all_hidden_witness :
  PoseDiffVisualizer.calculatePoseDifferences
    (Some Inputs.nothingSeen) (Some Inputs.allSeen) = Ok [].
Proof.
  apply calculatePoseDifferences_all_hidden. left.
  intros landmarks H. injection H as <-.
  apply Forall_forall. intros lm Hlm.
  apply (repeat_spec 33 Inputs.unseen) in Hlm. subst lm.
  cbn. lra.
Defined.

(** C6, as stated, fails: with the twelve key joints of both poses
    invisible and the nose visible in both, the list of differences is
    not empty. *)
Lemma calculatePoseDifferences_key_joints_hidden_counterexample :
  PoseDiffSpec.keyJointsHidden (Some Inputs.noseOnly) /\
  PoseDiffVisualizer.calculatePoseDifferences
    (Some Inputs.noseOnly) (Some Inputs.noseOnly)
  = Ok [PoseDiffSpec.differenceOf 0 Inputs.seen Inputs.seen] /\
  PoseDiffVisualizer.calculatePoseDifferences
    (Some Inputs.noseOnly) (Some Inputs.noseOnly) <> Ok [].
Proof.
  assert (Hrun : PoseDiffVisualizer.calculatePoseDifferences
                   (Some Inputs.noseOnly) (Some Inputs.noseOnly)
                 = Ok [PoseDiffSpec.differenceOf 0 Inputs.seen Inputs.seen]).
  { rewrite calculatePoseDifferences_closed_form. f_equal.
    cbn [PoseDiffVisualizer.optional_kp PoseDiffVisualizer.kp Inputs.noseOnly].
    change (Nat.min _ _) with 33%nat.
    change (seq 0 33) with (0%nat :: seq 1 32). cbn [flat_map].
    rewrite (flat_map_nil _ (seq 1 32)).
    - unfold PoseDiffSpec.contributionAt. cbn [nth_error Inputs.seen lm_visibility].
      rewrite gt_true by lra. reflexivity.
    - intros i Hi. apply in_seq in Hi. apply contributionAt_hidden. left.
      intros c Hc. destruct i as [| i]; [lia |]. cbn [nth_error] in Hc.
      apply nth_error_In, repeat_spec in Hc. subst c. cbn. lra. }
  split; [| split; [exact Hrun | rewrite Hrun; discriminate]].
  intros index Hindex. exists Inputs.unseen. split; [| cbn; lra].
  cbn in Hindex.
  repeat (destruct Hindex as [<- | Hindex]; [reflexivity |]).
  destruct Hindex.
Qed.

(** ** Rounding *)

Lemma Math_round_spec (x : number) (z : Z) :
  IZR z - / 2 <= x < IZR z + / 2 -> Math_round x = IZR z.
Proof.
  intros H. unfold Math_round. f_equal. symmetry.
  apply Int_part_spec. lra.
Qed.

Lemma Math_round_IZR (z : Z) : Math_round (IZR z) = IZR z.
Proof. apply Math_round_spec. lra. Qed.

Lemma Math_round_mono (x y : number) :
  x <= y -> Math_round x <= Math_round y.
Proof.
  intros Hxy. unfold Math_round. apply IZR_le.
  destruct (base_Int_part (x + / 2)) as [Hx _].
  destruct (base_Int_part (y + / 2)) as [_ Hy].
  destruct (Z_le_gt_dec (Int_part (x + / 2)) (Int_part (y + / 2)))
    as [Hle | Hgt]; [exact Hle | exfalso].
  assert (H1 : (Int_part (y + / 2) + 1 <= Int_part (x + / 2))%Z) by lia.
  apply IZR_le in H1. rewrite plus_IZR in H1. lra.
Qed.

(** ** Joint accuracy *)

Section JointAccuracy.

Import PoseDiffVisualizer PoseDiffSpec.

Lemma accuracyOf_high (d : number) : d <= 0.1 -> accuracyOf d = 100 - d * 1000.
Proof. intros H. unfold accuracyOf, Math_max. apply Rmax_right. lra. Qed.

Lemma accuracyOf_low (d : number) : 0.1 <= d -> accuracyOf d = 0.
Proof. intros H. unfold accuracyOf, Math_max. apply Rmax_left. lra. Qed.

Lemma accuracyOf_antitone (d1 d2 : number) :
  d1 <= d2 -> accuracyOf d2 <= accuracyOf d1.
Proof.
  intros H. unfold accuracyOf, Math_max. apply Rle_max_compat_l. lra.
Qed.

Lemma accuracyOf_range (d : number) : 0 <= d -> 0 <= accuracyOf d <= 100.
Proof.
  intros H. unfold accuracyOf, Math_max. split.
  - apply Rmax_l.
  - apply Rmax_lub; lra.
Qed.

Lemma set_property_fresh {V : Type} (o : list (string * V)) (k : string) (v : V) :
  ~ In k (map fst o) -> set_property o k v = o ++ [(k, v)].
Proof.
  induction o as [| [k' v'] o IH]; intros Hk; cbn; [reflexivity |].
  destruct (String.eqb_spec k' k) as [-> | Hne].
  - exfalso. apply Hk. now left.
  - f_equal. apply IH. intros Hin. apply Hk. now right.
Qed.

Lemma scoreJoint_fresh (current reference : option Pose)
  (scores : list (string * JointScore)) (entry : string * nat) :
  ~ In (fst entry) (map fst scores) ->
  scoreJoint current reference scores entry
  = scores ++ scoreEntry current reference entry.
Proof.
  intros Hk. destruct entry as [jointName index].
  unfold scoreJoint, scoreEntry. cbn [fst snd] in *.
  destruct (optional_landmark current index) as [c |];
    [| now rewrite app_nil_r].
  destruct (optional_landmark reference index) as [r |];
    [| now rewrite app_nil_r].
  now rewrite set_property_fresh.
Qed.

Lemma scoreEntry_keys (current reference : option Pose) (entry : string * nat)
  (k : string) :
  In k (map fst (scoreEntry current reference entry)) -> k = fst entry.
Proof.
  unfold scoreEntry.
  destruct (optional_landmark current (snd entry)); [| intros []].
  destruct (optional_landmark reference (snd entry)); [| intros []].
  intros [<- | []]. reflexivity.
Qed.

Lemma scores_fold (current reference : option Pose) (joints : list (string * nat)) :
  forall scores : list (string * JointScore),
    NoDup (map fst joints) ->
    (forall k, In k (map fst joints) -> ~ In k (map fst scores)) ->
    fold_left (scoreJoint current reference) joints scores
    = scores ++ flat_map (scoreEntry current reference) joints.
Proof.
  induction joints as [| entry joints IH]; intros scores Hnd Hfresh.
  - cbn. now rewrite app_nil_r.
  - cbn [fold_left flat_map]. cbn [map] in Hnd, Hfresh.
    inversion Hnd as [| k ks Hk Hnd']; subst.
    rewrite scoreJoint_fresh by (apply Hfresh; now left).
    rewrite IH; [now rewrite <- app_assoc | exact Hnd' |].
    intros k Hk' Hin. rewrite map_app, in_app_iff in Hin.
    destruct Hin as [Hin | Hin].
    + apply (Hfresh k); [now right | exact Hin].
    + apply scoreEntry_keys in Hin. subst k. contradiction.
Qed.

Lemma criticalJoints_names_distinct : NoDup (map fst criticalJoints).
Proof.
  cbn. repeat constructor; cbn; intros H;
    repeat (destruct H as [H | H]; [discriminate H |]); exact H.
Qed.

(** The object of scores holds, in the order of [criticalJoints], one
    entry for each critical joint that both poses have. *)
Lemma calculateJointAccuracyScores_closed_form (current reference : option Pose) :
  calculateJointAccuracyScores current reference
  = flat_map (scoreEntry current reference) criticalJoints.
Proof.
  unfold calculateJointAccuracyScores.
  rewrite scores_fold; [reflexivity | apply criticalJoints_names_distinct |].
  intros k _ [].
Qed.

End JointAccuracy.

(** C2.  The accuracy given to a joint at distance [d], before and after
    rounding, does not increase with [d]; it is 100 at [d = 0] and at
    most 100 for every [d >= 0]; it is never negative, and it is 0 from
    [d = 0.1] on. *)
Theorem accuracyOf_monotone_bounded :
  (forall d1 d2 : number, d1 <= d2 ->
     PoseDiffVisualizer.accuracyOf d2 <= PoseDiffVisualizer.accuracyOf d1 /\
     Math_round (PoseDiffVisualizer.accuracyOf d2)
       <= Math_round (PoseDiffVisualizer.accuracyOf d1)) /\
  (PoseDiffVisualizer.accuracyOf 0 = 100 /\
   Math_round (PoseDiffVisualizer.accuracyOf 0) = 100) /\
  (forall d : number, 0 <= d ->
     PoseDiffVisualizer.accuracyOf d <= 100 /\
     Math_round (PoseDiffVisualizer.accuracyOf d) <= 100) /\
  (forall d : number,
     0 <= PoseDiffVisualizer.accuracyOf d /\
     0 <= Math_round (PoseDiffVisualizer.accuracyOf d)) /\
  (forall d : number, 0.1 <= d ->
     PoseDiffVisualizer.accuracyOf d = 0 /\
     Math_round (PoseDiffVisualizer.accuracyOf d) = 0).
Proof.
  assert (H100 : PoseDiffVisualizer.accuracyOf 0 = 100)
    by (rewrite accuracyOf_high; lra).
  assert (Hfloor : forall d, 0 <= PoseDiffVisualizer.accuracyOf d)
    by (intros d; apply Rmax_l).
  repeat split.
  - now apply accuracyOf_antitone.
  - now apply Math_round_mono, accuracyOf_antitone.
  - exact H100.
  - rewrite H100. apply (Math_round_IZR 100).
  - now apply accuracyOf_range.
  - rewrite <- (Math_round_IZR 100). apply Math_round_mono.
    now apply accuracyOf_range.
  - apply Hfloor.
  - rewrite <- (Math_round_IZR 0). apply Math_round_mono, Hfloor.
  - now apply accuracyOf_low.
  - rewrite accuracyOf_low by assumption. apply (Math_round_IZR 0).
Qed.

Lemma accuracyOf_monotone_bounded_witness :
  PoseDiffVisualizer.accuracyOf 0.05 <= PoseDiffVisualizer.accuracyOf 0.02 /\
  Math_round (PoseDiffVisualizer.accuracyOf 0.05)
    <= Math_round (PoseDiffVisualizer.accuracyOf 0.02).
Proof.
  apply (proj1 accuracyOf_monotone_bounded 0.02 0.05); lra.
Defined.

(** A distance of 0.02 scores 80, which is not yet
    "excellent"; 0.05 apart scores 50. *)
Example accuracyOf_values :
  PoseDiffVisualizer.accuracyOf 0.02 = 80 /\
  PoseDiffVisualizer.accuracyOf 0.05 = 50.
Proof. split; rewrite accuracyOf_high; lra. Qed.

(** C5.  The indices of [criticalJoints] are 11 to 16 and 23 to 28.  Every
    entry of the object of scores belongs to one of these twelve joints,
    present in both poses, and every such joint present in both poses
    has its entry: no other landmark index contributes a score. *)
Theorem jointScores_exactly_critical :
  map snd PoseDiffVisualizer.criticalJoints
    = [11; 12; 13; 14; 15; 16; 23; 24; 25; 26; 27; 28]%nat /\
  forall current reference : option PoseDiffVisualizer.Pose,
    (forall name score,
       In (name, score)
          (PoseDiffVisualizer.calculateJointAccuracyScores current reference) ->
       exists index c r,
         In (name, index) PoseDiffVisualizer.criticalJoints /\
         In index [11; 12; 13; 14; 15; 16; 23; 24; 25; 26; 27; 28]%nat /\
         PoseDiffVisualizer.optional_landmark current index = Some c /\
         PoseDiffVisualizer.optional_landmark reference index = Some r /\
         score = PoseDiffSpec.jointScoreOf c r) /\
    (forall name index c r,
       In (name, index) PoseDiffVisualizer.criticalJoints ->
       PoseDiffVisualizer.optional_landmark current index = Some c ->
       PoseDiffVisualizer.optional_landmark reference index = Some r ->
       In (name, PoseDiffSpec.jointScoreOf c r)
          (PoseDiffVisualizer.calculateJointAccuracyScores current reference)).
Proof.
  split; [reflexivity |].
  intros current reference.
  rewrite calculateJointAccuracyScores_closed_form. split.
  - intros name score Hin.
    apply in_flat_map in Hin. destruct Hin as ([name' index] & Hentry & Hin).
    unfold PoseDiffSpec.scoreEntry in Hin. cbn [fst snd] in Hin.
    destruct (PoseDiffVisualizer.optional_landmark current index) as [c |] eqn:Ec;
      [| destruct Hin].
    destruct (PoseDiffVisualizer.optional_landmark reference index) as [r |] eqn:Er;
      [| destruct Hin].
    destruct Hin as [Heq | []]. injection Heq as <- <-.
    exists index, c, r. repeat split; try assumption; try reflexivity.
    change [11; 12; 13; 14; 15; 16; 23; 24; 25; 26; 27; 28]%nat
      with (map snd PoseDiffVisualizer.criticalJoints).
    apply (in_map snd _ _ Hentry).
  - intros name index c r Hentry Hc Hr.
    apply in_flat_map. exists (name, index). split; [exact Hentry |].
    unfold PoseDiffSpec.scoreEntry. cbn [fst snd]. rewrite Hc, Hr. now left.
Qed.

Lemma jointScores_exactly_critical_witness :
  In ("leftShoulder"%string,
      PoseDiffSpec.jointScoreOf Inputs.seen Inputs.seen)
     (PoseDiffVisualizer.calculateJointAccuracyScores
        (Some Inputs.allSeen) (Some Inputs.allSeen)).
Proof.
  apply (proj2 (proj2 jointScores_exactly_critical _ _)
           "leftShoulder"%string 11%nat);
    [now left | reflexivity | reflexivity].
Defined.

(** ** The visibility gate *)

(** In [calculatePoseDifferences] an index contributes exactly when both
    landmarks are more than 0.5 visible, and what it contributes carries
    the planar distance of the two landmarks. *)
Lemma calculatePoseDifferences_gated :
  forall (ckp rkp : list Landmark) (d : PoseDiffVisualizer.Difference),
    In d (PoseDiffSpec.contributionAt ckp rkp (PoseDiffVisualizer.jointIndex d)) ->
    exists c r,
      nth_error ckp (PoseDiffVisualizer.jointIndex d) = Some c /\
      nth_error rkp (PoseDiffVisualizer.jointIndex d) = Some r /\
      lm_visibility c > 0.5 /\ lm_visibility r > 0.5 /\
      PoseDiffVisualizer.distance d
        = sqrt ((lm_x c - lm_x r) ^ 2 + (lm_y c - lm_y r) ^ 2).
Proof.
  intros ckp rkp d Hd. apply in_contributionAt in Hd.
  destruct Hd as (c & r & Hc & Hr & Hvc & Hvr & Hd).
  exists c, r. repeat split; try assumption. now rewrite Hd.
Qed.

Lemma jointScoreOf_same (lm : Landmark) :
  PoseDiffSpec.jointScoreOf lm lm
  = {| PoseDiffVisualizer.accuracy := 100;
       PoseDiffVisualizer.score_distance := 0;
       PoseDiffVisualizer.status := PoseDiffVisualizer.excellent |}.
Proof.
  unfold PoseDiffSpec.jointScoreOf.
  replace ((lm_x lm - lm_x lm) ^ 2 + (lm_y lm - lm_y lm) ^ 2) with 0 by ring.
  rewrite sqrt_0.
  assert (H100 : PoseDiffVisualizer.accuracyOf 0 = 100)
    by (rewrite accuracyOf_high; lra).
  rewrite H100, (Math_round_IZR 100), gt_true by lra. reflexivity.
Qed.

(** C3 at its failing input.  With 33 landmarks of visibility 0 in both
    poses, [calculateJointAccuracyScores] still takes the distance of each
    of the twelve critical joints and scores it (here 100, "excellent"),
    while [calculatePoseDifferences] lets none of them contribute. *)
Theorem jointScores_ignore_visibility :
  Forall (fun lm => lm_visibility lm <= 0.5) (repeat Inputs.unseen 33) /\
  PoseDiffVisualizer.calculateJointAccuracyScores
    (Some Inputs.nothingSeen) (Some Inputs.nothingSeen)
  = map (fun entry =>
           (fst entry,
            {| PoseDiffVisualizer.accuracy := 100;
               PoseDiffVisualizer.score_distance := 0;
               PoseDiffVisualizer.status := PoseDiffVisualizer.excellent |}))
        PoseDiffVisualizer.criticalJoints /\
  PoseDiffVisualizer.calculatePoseDifferences
    (Some Inputs.nothingSeen) (Some Inputs.nothingSeen) = Ok [].
Proof.
  assert (Hhidden : Forall (fun lm => lm_visibility lm <= 0.5)
                      (repeat Inputs.unseen 33)).
  { apply Forall_forall. intros lm Hlm.
    apply (repeat_spec 33 Inputs.unseen) in Hlm. subst lm. cbn. lra. }
  split; [exact Hhidden |]. split.
  - rewrite calculateJointAccuracyScores_closed_form.
    unfold PoseDiffVisualizer.criticalJoints, PoseDiffSpec.scoreEntry.
    cbn [flat_map map fst snd app].
    change (PoseDiffVisualizer.optional_landmark (Some Inputs.nothingSeen))
      with (nth_error (repeat Inputs.unseen 33)).
    cbn [nth_error repeat app].
    rewrite jointScoreOf_same. reflexivity.
  - apply hidden_pose_no_difference. left.
    intros landmarks H. injection H as <-. exact Hhidden.
Qed.

(** ** The score state of the scorer with refs *)

Section ScoreState.

Import RealtimeScorer.

Lemma resume_adds (points_earned : number) (s : State) :
  let s' := sendPoseForScoring_resume points_earned s in
  totalScore (scores s') = totalScoreRef (refs s) + points_earned /\
  totalScoreRef (refs s') = totalScore (scores s') /\
  frameCount (scores s') = S (frameCount (scores s)).
Proof.
  cbn. repeat split. apply Nat.add_1_r.
Qed.

Lemma clearIfSet_scores (s : State) : scores (clearIfSet s) = scores s.
Proof. unfold clearIfSet. now destruct (intervalRef (refs s)). Qed.

Lemma clearIfSet_refs (s : State) : refs (clearIfSet s) = refs s.
Proof. unfold clearIfSet. now destruct (intervalRef (refs s)). Qed.

Lemma session_step (s s' : State) (e : Event) :
  keepsStarted e = true -> step s e = Some s' ->
  totalScoreRef (refs s')
    = totalScoreRef (refs s) + sumOf (pointsEarned [e]) /\
  frameCount (scores s')
    = (frameCount (scores s) + List.length (pointsEarned [e]))%nat /\
  (totalScoreRef (refs s) = totalScore (scores s) ->
   totalScoreRef (refs s') = totalScore (scores s')).
Proof.
  destruct e as [started poseData changed | | points_earned | |];
    cbn [keepsStarted step pointsEarned sumOf fold_right List.length];
    intros Hkeep Hstep.
  - subst started. injection Hstep as <-. unfold render.
    destruct (negb (Bool.eqb true (isGameStarted s)) || changed);
      cbn; rewrite ?clearIfSet_scores, ?clearIfSet_refs; cbn;
      (repeat split; try lra; try lia; auto).
  - destruct (timerRunning s); [| discriminate]. injection Hstep as <-.
    unfold sendPoseForScoring_call.
    destruct (negb (isGameStartedRef (refs s)) || negb (poseDataRef (refs s)));
      cbn; (repeat split; try lra; try lia; auto).
  - destruct (0 <? inFlight s)%nat; [| discriminate]. injection Hstep as <-.
    cbn. repeat split; try lra; try lia; auto.
  - destruct (0 <? inFlight s)%nat; [| discriminate]. injection Hstep as <-.
    cbn. repeat split; try lra; try lia; auto.
  - destruct (0 <? hideTimers s)%nat; [| discriminate]. injection Hstep as <-.
    cbn. repeat split; try lra; try lia; auto.
Qed.

Lemma session_run (events : list Event) :
  forall s s' : State,
    forallb keepsStarted events = true -> run s events = Some s' ->
    totalScoreRef (refs s')
      = totalScoreRef (refs s) + sumOf (pointsEarned events) /\
    frameCount (scores s')
      = (frameCount (scores s) + List.length (pointsEarned events))%nat /\
    (totalScoreRef (refs s) = totalScore (scores s) ->
     totalScoreRef (refs s') = totalScore (scores s')).
Proof.
  induction events as [| e events IH]; intros s s' Hkeep Hrun.
  - injection Hrun as <-. cbn. repeat split; try lra; try lia; auto.
  - cbn [forallb] in Hkeep. apply andb_prop in Hkeep. destruct Hkeep as [He Hes].
    cbn [run] in Hrun. destruct (step s e) as [s1 |] eqn:Hstep; [| discriminate].
    destruct (session_step s s1 e He Hstep) as (Ht & Hf & Hi).
    destruct (IH s1 s' Hes Hrun) as (Ht' & Hf' & Hi').
    assert (Hsum : sumOf (pointsEarned (e :: events))
                   = sumOf (pointsEarned [e]) + sumOf (pointsEarned events)).
    { unfold sumOf. destruct e; cbn [pointsEarned fold_right]; lra. }
    assert (Hlen : List.length (pointsEarned (e :: events))
                   = (List.length (pointsEarned [e])
                      + List.length (pointsEarned events))%nat).
    { destruct e; reflexivity. }
    rewrite Hsum, Hlen, Ht', Hf', Ht, Hf. repeat split; try lra; try lia; auto.
Qed.

End ScoreState.

(** C4.  Every answer adds its [points_earned] to the total and one to
    the frame count.  A session starts with every score at 0, at the
    mount of the component as after a stop; from there, and for as long
    as the game stays started, the total is the sum of the
    [points_earned] answered and the frame count is their number. *)
Theorem scoring_accumulates :
  (forall (s s' : RealtimeScorer.State) (points_earned : number),
     RealtimeScorer.step s (RealtimeScorer.Response points_earned) = Some s' ->
     RealtimeScorer.totalScore (RealtimeScorer.scores s')
       = RealtimeScorer.totalScoreRef (RealtimeScorer.refs s) + points_earned /\
     RealtimeScorer.totalScoreRef (RealtimeScorer.refs s')
       = RealtimeScorer.totalScore (RealtimeScorer.scores s') /\
     RealtimeScorer.frameCount (RealtimeScorer.scores s')
       = S (RealtimeScorer.frameCount (RealtimeScorer.scores s))) /\
  (forall poseData : bool,
     RealtimeScorer.sessionStart (RealtimeScorer.mount true poseData)) /\
  (forall (s : RealtimeScorer.State) (poseData changed : bool),
     RealtimeScorer.stopped s ->
     RealtimeScorer.sessionStart (RealtimeScorer.render true poseData changed s)) /\
  (forall (s0 s : RealtimeScorer.State) (events : list RealtimeScorer.Event),
     RealtimeScorer.sessionStart s0 ->
     forallb RealtimeScorer.keepsStarted events = true ->
     RealtimeScorer.run s0 events = Some s ->
     RealtimeScorer.totalScore (RealtimeScorer.scores s)
       = RealtimeScorer.sumOf (RealtimeScorer.pointsEarned events) /\
     RealtimeScorer.frameCount (RealtimeScorer.scores s)
       = List.length (RealtimeScorer.pointsEarned events)).
Proof.
  split; [| split; [| split]].
  - intros s s' points_earned Hstep. cbn [RealtimeScorer.step] in Hstep.
    destruct (0 <? RealtimeScorer.inFlight s)%nat; [| discriminate].
    injection Hstep as <-.
    apply (resume_adds points_earned (RealtimeScorer.answered s)).
  - intros poseData. split; reflexivity.
  - intros s poseData changed (Hprop & _ & Hscores & Htotal).
    unfold RealtimeScorer.sessionStart, RealtimeScorer.render.
    rewrite Hprop. cbn [Bool.eqb negb orb].
    unfold RealtimeScorer.intervalEffect.
    cbn [RealtimeScorer.scores RealtimeScorer.refs RealtimeScorer.totalScoreRef].
    rewrite !clearIfSet_scores, !clearIfSet_refs. cbn. now split.
  - intros s0 s events (Hscores & Htotal) Hkeep Hrun.
    destruct (session_run events s0 s Hkeep Hrun) as (Ht & Hf & Hi).
    rewrite Hscores, Htotal in *. cbn in Ht, Hf, Hi.
    rewrite <- Hi by reflexivity. rewrite Ht, Hf.
    split; [lra | lia].
Qed.

Lemma scoring_accumulates_witness :
  exists s,
    RealtimeScorer.run (RealtimeScorer.mount true true)
      [RealtimeScorer.Tick; RealtimeScorer.Response 10;
       RealtimeScorer.Tick; RealtimeScorer.Response 5] = Some s /\
    RealtimeScorer.totalScore (RealtimeScorer.scores s) = 10 + (5 + 0) /\
    RealtimeScorer.frameCount (RealtimeScorer.scores s) = 2%nat.
Proof.
  eexists. split; [reflexivity |].
  apply (proj2 (proj2 (proj2 scoring_accumulates))
           (RealtimeScorer.mount true true) _
           [RealtimeScorer.Tick; RealtimeScorer.Response 10;
            RealtimeScorer.Tick; RealtimeScorer.Response 5]);
    [split |  | ]; reflexivity.
Defined.

(** ** The end of a session *)

Section SessionEnd.

Import RealtimeScorer.



(** The render that stops the game clears the interval and puts every
    score back to its initial value; it issues no request. *)
Lemma stop_resets (s : State) (poseData changed : bool) :
  isGameStarted s = true -> timerHeld s ->
  let s' := render false poseData changed s in
  stopped s' /\ timerRunning s' = false /\
  requests s' = requests s /\ inFlight s' = inFlight s.
Proof.
  unfold timerHeld, stopped. intros Hstarted Hheld.
  unfold render. rewrite Hstarted. cbn [Bool.eqb negb orb].
  unfold intervalEffect, clearIfSet.
  cbn [refs intervalRef updateRefs withProps].
  destruct (intervalRef (refs s)) eqn:Href; cbn; rewrite ?Href; cbn.
  - repeat split.
  - repeat split. destruct (timerRunning s); [| reflexivity].
    symmetry. now apply Hheld.
Qed.

(** While the game is stopped, and as long as no request is answered,
    the scores stay at their initial value and no request is issued. *)
Lemma stopped_step (s s' : State) (e : Event) :
  stopped s -> timerRunning s = false -> keepsStopped e = true ->
  step s e = Some s' ->
  stopped s' /\ timerRunning s' = false /\ requests s' = requests s.
Proof.
  unfold stopped. intros (Hprop & Href & Hscores & Htotal) Htimer Hkeep Hstep.
  destruct e as [started poseData changed | | p | |];
    cbn [keepsStopped step] in Hkeep, Hstep; try discriminate.
  - destruct started; [discriminate |]. injection Hstep as <-.
    unfold render. rewrite Hprop. cbn [Bool.eqb negb orb].
    unfold intervalEffect, clearIfSet.
    cbn [refs intervalRef updateRefs withProps].
    destruct changed; [destruct (intervalRef (refs s)) eqn:Hi |];
      cbn; rewrite ?Hi; cbn; repeat split; assumption.
  - rewrite Htimer in Hstep. discriminate.
  - destruct (0 <? inFlight s)%nat; [| discriminate]. injection Hstep as <-.
    cbn. repeat split; assumption.
  - destruct (0 <? hideTimers s)%nat; [| discriminate]. injection Hstep as <-.
    cbn. rewrite Hscores. repeat split; assumption.
Qed.

Lemma stopped_run (events : list Event) :
  forall s s' : State,
    stopped s -> timerRunning s = false ->
    forallb keepsStopped events = true -> run s events = Some s' ->
    stopped s' /\ timerRunning s' = false /\ requests s' = requests s.
Proof.
  induction events as [| e events IH]; intros s s' Hs Htimer Hkeep Hrun.
  - injection Hrun as <-. split; [exact Hs | split; [exact Htimer | reflexivity]].
  - cbn [forallb] in Hkeep. apply andb_prop in Hkeep. destruct Hkeep as [He Hes].
    cbn [run] in Hrun. destruct (step s e) as [s1 |] eqn:Hstep; [| discriminate].
    destruct (stopped_step s s1 e Hs Htimer He Hstep) as (Hs1 & Ht1 & Hr1).
    destruct (IH s1 s' Hs1 Ht1 Hes Hrun) as (Hs' & Ht' & Hr').
    split; [exact Hs' | split; [exact Ht' | congruence]].
Qed.

End SessionEnd.

(** ** The two scorers side by side *)

Section TwoScorers.

(** On the same answer both scorers move the total, the ref, the current
    points and the frame count alike. *)
Lemma resume_same_total (points_earned : number) (captured : nat)
  (s1 : RealtimeScorer.State) (s2 : RealtimeScorer2.State) :
  RealtimeScorer.totalScoreRef (RealtimeScorer.refs s1)
    = RealtimeScorer2.totalScoreRef s2 ->
  RealtimeScorer.frameCount (RealtimeScorer.scores s1)
    = RealtimeScorer2.frameCount (RealtimeScorer2.scores s2) ->
  let s1' := RealtimeScorer.sendPoseForScoring_resume points_earned s1 in
  let s2' := RealtimeScorer2.sendPoseForScoring_resume captured points_earned s2 in
  RealtimeScorer.totalScore (RealtimeScorer.scores s1')
    = RealtimeScorer2.totalScore (RealtimeScorer2.scores s2') /\
  RealtimeScorer.totalScoreRef (RealtimeScorer.refs s1')
    = RealtimeScorer2.totalScoreRef s2' /\
  RealtimeScorer.currentPoints (RealtimeScorer.scores s1')
    = RealtimeScorer2.currentPoints (RealtimeScorer2.scores s2') /\
  RealtimeScorer.frameCount (RealtimeScorer.scores s1')
    = RealtimeScorer2.frameCount (RealtimeScorer2.scores s2').
Proof.
  intros Href Hcount. cbn. rewrite Href, Hcount. repeat split.
Qed.

(** They show the same accuracy when the callback of the second one
    captured the frame count of the moment, the ref being 0 as long as
    no frame was counted. *)
Lemma resume_same_accuracy (points_earned : number)
  (s1 : RealtimeScorer.State) (s2 : RealtimeScorer2.State) :
  RealtimeScorer.totalScoreRef (RealtimeScorer.refs s1)
    = RealtimeScorer2.totalScoreRef s2 ->
  RealtimeScorer.frameCount (RealtimeScorer.scores s1)
    = RealtimeScorer2.frameCount (RealtimeScorer2.scores s2) ->
  (RealtimeScorer2.frameCount (RealtimeScorer2.scores s2) = 0%nat ->
   RealtimeScorer2.totalScoreRef s2 = 0) ->
  RealtimeScorer.accuracy
    (RealtimeScorer.scores
       (RealtimeScorer.sendPoseForScoring_resume points_earned s1))
  = RealtimeScorer2.accuracy
      (RealtimeScorer2.scores
         (RealtimeScorer2.sendPoseForScoring_resume
            (RealtimeScorer2.frameCount (RealtimeScorer2.scores s2))
            points_earned s2)).
Proof.
  intros Href Hcount Hzero. cbn [RealtimeScorer.sendPoseForScoring_resume
    RealtimeScorer2.sendPoseForScoring_resume RealtimeScorer.scores
    RealtimeScorer2.scores RealtimeScorer.accuracy RealtimeScorer2.accuracy].
  rewrite Href, Hcount. f_equal.
  destruct (RealtimeScorer2.frameCount (RealtimeScorer2.scores s2)) as [| n].
  - rewrite (Hzero eq_refl). cbn. lra.
  - replace (0 <? S n + 1)%nat with true by (symmetry; apply Nat.ltb_lt; lia).
    reflexivity.
Qed.

End TwoScorers.

(** C9 at its failing input.  Both components are mounted with the game
    started and a pose, and [onScoreUpdate] does not change; the
    interval ticks, 10 points are answered, the interval ticks again and
    0 points are answered.  The totals agree (10), the accuracies do not:
    5 with refs, and 0 with [useCallback], whose callback still reads the
    frame count 0 of the first render.  When the parent renders again
    after the first answer (a new [onScoreUpdate], as an inline function
    gives), the callback reads the frame count 1 from then on: after two
    more answers of 0 points the accuracies are 3 and 5. *)
Theorem scorers_accuracy_diverges :
  (exists s1 s2,
     RealtimeScorer.run (RealtimeScorer.mount true true)
       [RealtimeScorer.Tick; RealtimeScorer.Response 10;
        RealtimeScorer.Tick; RealtimeScorer.Response 0] = Some s1 /\
     RealtimeScorer2.run (RealtimeScorer2.mount true true)
       [RealtimeScorer2.Tick; RealtimeScorer2.Response 0 10;
        RealtimeScorer2.Tick; RealtimeScorer2.Response 0 0] = Some s2 /\
     RealtimeScorer.totalScore (RealtimeScorer.scores s1) = 10 /\
     RealtimeScorer2.totalScore (RealtimeScorer2.scores s2) = 10 /\
     RealtimeScorer.frameCount (RealtimeScorer.scores s1) = 2%nat /\
     RealtimeScorer2.frameCount (RealtimeScorer2.scores s2) = 2%nat /\
     RealtimeScorer.accuracy (RealtimeScorer.scores s1) = 5 /\
     RealtimeScorer2.accuracy (RealtimeScorer2.scores s2) = 0) /\
  (exists s1 s2,
     RealtimeScorer.run (RealtimeScorer.mount true true)
       [RealtimeScorer.Tick; RealtimeScorer.Response 10;
        RealtimeScorer.Render true true true;
        RealtimeScorer.Tick; RealtimeScorer.Response 0;
        RealtimeScorer.Tick; RealtimeScorer.Response 0] = Some s1 /\
     RealtimeScorer2.run (RealtimeScorer2.mount true true)
       [RealtimeScorer2.Tick; RealtimeScorer2.Response 0 10;
        RealtimeScorer2.Render true true true;
        RealtimeScorer2.Tick; RealtimeScorer2.Response 0 0;
        RealtimeScorer2.Tick; RealtimeScorer2.Response 0 0] = Some s2 /\
     RealtimeScorer.totalScore (RealtimeScorer.scores s1) = 10 /\
     RealtimeScorer2.totalScore (RealtimeScorer2.scores s2) = 10 /\
     RealtimeScorer.frameCount (RealtimeScorer.scores s1) = 3%nat /\
     RealtimeScorer2.frameCount (RealtimeScorer2.scores s2) = 3%nat /\
     RealtimeScorer.accuracy (RealtimeScorer.scores s1) = 3 /\
     RealtimeScorer2.accuracy (RealtimeScorer2.scores s2) = 5).
Proof.
  split.
  - do 2 eexists.
    split; [lazy -[IZR INR Math_round Rplus Rdiv gt]; reflexivity |].
    split; [lazy -[IZR INR Math_round Rplus Rdiv gt]; reflexivity |].
    cbn. repeat split; try lra.
    + apply (Math_round_spec _ 5). lra.
    + apply (Math_round_IZR 0).
  - do 2 eexists.
    split; [lazy -[IZR INR Math_round Rplus Rdiv gt]; reflexivity |].
    split; [lazy -[IZR INR Math_round Rplus Rdiv gt]; reflexivity |].
    cbn. repeat split; try lra.
    + apply (Math_round_spec _ 3). lra.
    + apply (Math_round_spec _ 5). lra.
Qed.

(** ** A timeline compared with itself *)

Section SelfComparison.

Import Comparator.

Lemma dot_self_nonneg (a : Vector4) : 0 <= dot a a.
Proof. destruct a as [[[a1 a2] a3] a4]. cbn. nra. Qed.

Lemma similarity_self (a : Vector4) :
  magnitude a <> 0 -> similarity a a = Some 1.
Proof.
  intros Hm. unfold similarity.
  destruct (Req_dec_T (magnitude a) 0) as [H0 | _]; [contradiction |].
  f_equal. unfold magnitude in *.
  rewrite sqrt_sqrt by apply dot_self_nonneg.
  assert (Hd : dot a a <> 0) by (intros H; apply Hm; rewrite H; apply sqrt_0).
  replace (dot a a / dot a a) with 1 by (field; exact Hd).
  unfold clamp. rewrite Rmin_left by lra. rewrite Rmax_right by lra. lra.
Qed.

Lemma sample_self (tl : Timeline) (x : number) :
  sample tl tl x
  = if Req_dec_T (magnitude (resample tl x)) 0 then [] else [(x, 1)].
Proof.
  unfold sample.
  destruct (Req_dec_T (magnitude (resample tl x)) 0) as [H0 | Hm].
  - unfold similarity. now destruct (Req_dec_T (magnitude (resample tl x)) 0).
  - now rewrite similarity_self.
Qed.

Lemma series_self_ones (tl : Timeline) (xs : list number) :
  Forall (fun score => score = 1) (map snd (flat_map (sample tl tl) xs)).
Proof.
  induction xs as [| x xs IH]; cbn [flat_map map]; [constructor |].
  rewrite map_app. apply Forall_app. split; [| exact IH].
  rewrite sample_self.
  destruct (Req_dec_T (magnitude (resample tl x)) 0); repeat constructor.
Qed.

Lemma series_self_full (tl : Timeline) (xs : list number) :
  (forall x, In x xs -> magnitude (resample tl x) <> 0) ->
  flat_map (sample tl tl) xs = map (fun x => (x, 1)) xs.
Proof.
  induction xs as [| x xs IH]; intros H; cbn [flat_map map]; [reflexivity |].
  rewrite sample_self, IH by (intros y Hy; apply H; now right).
  destruct (Req_dec_T (magnitude (resample tl x)) 0) as [H0 | _];
    [| reflexivity].
  exfalso. apply (H x); [now left | exact H0].
Qed.

Lemma sum_ones (xs : list number) :
  Forall (fun x => x = 1) xs -> fold_right Rplus 0 xs = INR (List.length xs).
Proof.
  induction 1 as [| x xs Hx _ IH]; [reflexivity |].
  cbn [fold_right List.length]. rewrite S_INR, IH, Hx. lra.
Qed.

Lemma mean_ones (xs : list number) :
  xs <> [] -> Forall (fun x => x = 1) xs -> mean xs = 1.
Proof.
  intros Hne Hall. unfold mean. rewrite sum_ones by exact Hall.
  apply Rdiv_diag. apply not_0_INR. destruct xs; [contradiction | discriminate].
Qed.

Lemma fold_min_ones (xs : list number) :
  Forall (fun x => x = 1) xs -> fold_left Rmin xs 1 = 1.
Proof.
  induction 1 as [| x xs Hx _ IH]; [reflexivity |].
  cbn [fold_left]. rewrite Hx, Rmin_left by lra. exact IH.
Qed.

Lemma fold_max_ones (xs : list number) :
  Forall (fun x => x = 1) xs -> fold_left Rmax xs 1 = 1.
Proof.
  induction 1 as [| x xs Hx _ IH]; [reflexivity |].
  cbn [fold_left]. rewrite Hx, Rmax_left by lra. exact IH.
Qed.

Lemma aggregate_ones (xs : list number) :
  xs <> [] -> Forall (fun x => x = 1) xs ->
  mean xs = 1 /\ least xs = 1 /\ greatest xs = 1.
Proof.
  intros Hne Hall. split; [now apply mean_ones |].
  destruct xs as [| x xs]; [contradiction |].
  inversion Hall as [| ? ? Hx Hxs]; subst. cbn [least greatest].
  split; [now apply fold_min_ones | now apply fold_max_ones].
Qed.

Lemma grid_length (t_start t_end : number) (N : nat) :
  List.length (grid t_start t_end N) = N.
Proof. unfold grid. now rewrite length_map, length_seq. Qed.

End SelfComparison.

(** C8, as amended.  Whenever the comparison of a Timeline with itself
    gives a report, every score of its series is 1 and its mean, minimum
    and maximum are 1.  It gives a report, with one score for each of the
    [N] timestamps, when the Timeline has a window ([t_start < t_end]),
    [N] is at least 2 and no resampled vector has magnitude 0. *)
Theorem compare_self :
  forall (tl : Comparator.Timeline) (N : nat),
    (forall mean min max series,
       Comparator.compare tl tl N = Comparator.Report mean min max series ->
       mean = 1 /\ min = 1 /\ max = 1 /\
       forall x score, In (x, score) series -> score = 1) /\
    (forall t_start t_end,
       Comparator.window tl tl = Some (t_start, t_end) ->
       (2 <= N)%nat ->
       (forall x, In x (Comparator.grid t_start t_end N) ->
          Comparator.magnitude (Comparator.resample tl x) <> 0) ->
       Comparator.compare tl tl N
       = Comparator.Report 1 1 1
           (map (fun x => (x, 1)) (Comparator.grid t_start t_end N))).
Proof.
  intros tl N.
  assert (Hreport : forall t_start t_end mean min max series,
            Comparator.window tl tl = Some (t_start, t_end) ->
            Comparator.compare tl tl N = Comparator.Report mean min max series ->
            series = flat_map (Comparator.sample tl tl)
                       (Comparator.grid t_start t_end N) /\
            mean = 1 /\ min = 1 /\ max = 1).
  { intros t_start t_end mean min max series Hw Hc.
    unfold Comparator.compare in Hc. rewrite Hw in Hc.
    set (ser := flat_map (Comparator.sample tl tl)
                  (Comparator.grid t_start t_end N)) in *.
    destruct (List.length ser <? 2)%nat eqn:Hlen; [discriminate |].
    apply Nat.ltb_ge in Hlen.
    injection Hc as <- <- <- <-. split; [reflexivity |].
    apply aggregate_ones.
    - intros Hnil. apply (f_equal (@List.length number)) in Hnil.
      rewrite length_map in Hnil. cbn in Hnil. lia.
    - apply series_self_ones. }
  split.
  - intros mean min max series Hc.
    destruct (Comparator.window tl tl) as [[t_start t_end] |] eqn:Hw.
    + destruct (Hreport _ _ _ _ _ _ eq_refl Hc) as (Hser & Hmean & Hmin & Hmax).
      repeat split; try assumption.
      intros x score Hin. subst series.
      pose proof (series_self_ones tl (Comparator.grid t_start t_end N)) as Hall.
      rewrite Forall_forall in Hall. apply Hall.
      apply (in_map snd _ _ Hin).
    + unfold Comparator.compare in Hc. rewrite Hw in Hc. discriminate.
  - intros t_start t_end Hw HN Hmag.
    unfold Comparator.compare. rewrite Hw. cbv zeta.
    rewrite series_self_full by exact Hmag.
    rewrite length_map, grid_length.
    replace (N <? 2)%nat with false by (symmetry; apply Nat.ltb_ge; exact HN).
    assert (Hones : Forall (fun x => x = 1)
              (map snd (map (fun x : number => (x, 1))
                          (Comparator.grid t_start t_end N)))).
    { rewrite map_map. cbn [snd]. apply Forall_forall.
      intros y Hy. apply in_map_iff in Hy. now destruct Hy as (? & <- & _). }
    assert (Hne : map snd (map (fun x : number => (x, 1))
                             (Comparator.grid t_start t_end N)) <> []).
    { intros Hnil. apply (f_equal (@List.length number)) in Hnil.
      rewrite !length_map, grid_length in Hnil. cbn in Hnil. lia. }
    destruct (aggregate_ones _ Hne Hones) as (Hmean & Hmin & Hmax).
    f_equal; [exact Hmean | exact Hmin | exact Hmax].
Qed.

(** C8, as stated, fails: a Timeline with a single record compared with
    itself has [t_start = t_end], which is "no overlap"; there is no
    series and no mean, minimum or maximum. *)
Lemma compare_self_single_record_counterexample :
  Comparator.compare Inputs.singleRecord Inputs.singleRecord 3
    = Comparator.NoOverlap /\
  ~ (exists mean min max series,
       Comparator.compare Inputs.singleRecord Inputs.singleRecord 3
         = Comparator.Report mean min max series /\
       List.length series = 3%nat /\ mean = 1 /\ min = 1 /\ max = 1).
Proof.
  assert (H : Comparator.compare Inputs.singleRecord Inputs.singleRecord 3
              = Comparator.NoOverlap).
  { unfold Comparator.compare, Comparator.window, Inputs.singleRecord.
    cbn [map Comparator.t Comparator.least Comparator.greatest fold_left].
    rewrite Rmax_left, Rmin_left by lra.
    unfold ge. destruct (Rge_dec 0 0) as [_ | Hn]; [reflexivity | lra]. }
  split; [exact H |].
  intros (mean & min & max & series & Hc & _). rewrite H in Hc. discriminate.
Qed.

Lemma magnitude_positive_channel (a1 a2 a3 a4 : number) :
  0 < a1 -> Comparator.magnitude (a1, a2, a3, a4) <> 0.
Proof.
  intros H. unfold Comparator.magnitude.
  assert (Hd : 0 < Comparator.dot (a1, a2, a3, a4) (a1, a2, a3, a4))
    by (cbn; nra).
  apply sqrt_lt_R0 in Hd. lra.
Qed.

Lemma referenceTimeline_window :
  Comparator.window Inputs.referenceTimeline Inputs.referenceTimeline
  = Some (0, 1).
Proof.
  unfold Comparator.window, Inputs.referenceTimeline.
  cbn [map Comparator.t Comparator.least Comparator.greatest fold_left].
  rewrite (Rmin_left 0 1), (Rmax_right 0 1) by lra.
  rewrite Rmax_left, Rmin_left by lra.
  unfold ge. destruct (Rge_dec 0 1) as [Hn | _]; [lra | reflexivity].
Qed.

Lemma referenceTimeline_never_zero (x : number) :
  Comparator.magnitude (Comparator.resample Inputs.referenceTimeline x) <> 0.
Proof.
  pose proof PI_RGT_0 as Hpi.
  unfold Comparator.resample. apply magnitude_positive_channel.
  unfold Inputs.referenceTimeline.
  cbn [Comparator.interpolate Comparator.t Comparator.elbow_L].
  unfold ge, lt.
  destruct (Rge_dec 0 x); [lra |].
  destruct (Rlt_dec x 1).
  - replace (PI / 2 + (PI / 4 - PI / 2) * (x - 0) / (1 - 0))
      with (PI / 4 * (2 - x)) by field.
    apply Rmult_lt_0_compat; lra.
  - destruct (Rge_dec 1 x); lra.
Qed.

Lemma compare_self_witness :
  Comparator.compare Inputs.referenceTimeline Inputs.referenceTimeline 3
  = Comparator.Report 1 1 1
      (map (fun x => (x, 1)) (Comparator.grid 0 1 3)).
Proof.
  apply (proj2 (compare_self Inputs.referenceTimeline 3) 0 1).
  - exact referenceTimeline_window.
  - lia.
  - intros x _. apply referenceTimeline_never_zero.
Defined.

(** * Further properties *)

(** ** Pose differences: order, symmetry, a pose against itself *)

Section PoseDifferencesMore.

Import PoseDiffVisualizer PoseDiffSpec PoseDiffFacts.

Lemma contributionAt_index (ckp rkp : list Landmark) (i : nat) :
  contributionAt ckp rkp i = [] \/
  exists d, contributionAt ckp rkp i = [d] /\ jointIndex d = i.
Proof.
  unfold contributionAt.
  destruct (nth_error ckp i) as [c |]; [| now left].
  destruct (nth_error rkp i) as [r |]; [| now left].
  destruct (gt (lm_visibility c) 0.5 && gt (lm_visibility r) 0.5);
    [right | now left].
  now exists (differenceOf i c r).
Qed.

Lemma contributions_sorted (ckp rkp : list Landmark) (n : nat) :
  forall start,
    StronglySorted Nat.lt
      (map jointIndex (flat_map (contributionAt ckp rkp) (seq start n))) /\
    (List.length (flat_map (contributionAt ckp rkp) (seq start n)) <= n)%nat /\
    Forall (fun i => (start <= i)%nat)
      (map jointIndex (flat_map (contributionAt ckp rkp) (seq start n))).
Proof.
  induction n as [| n IH]; intros start; cbn [seq flat_map].
  - cbn. repeat split; constructor.
  - destruct (IH (S start)) as (Hsorted & Hlen & Hfrom).
    destruct (contributionAt_index ckp rkp start) as [-> | (d & -> & Hd)];
      cbn [app map List.length].
    + repeat split; [exact Hsorted | lia |].
      eapply Forall_impl; [| exact Hfrom]. cbn. intros; lia.
    + repeat split.
      * constructor; [exact Hsorted |].
        eapply Forall_impl; [| exact Hfrom]. cbn. intros; lia.
      * lia.
      * constructor; [lia |].
        eapply Forall_impl; [| exact Hfrom]. cbn. intros; lia.
Qed.

Lemma contributionAt_exchanged (ckp rkp : list Landmark) (i : nat) :
  contributionAt rkp ckp i = map exchanged (contributionAt ckp rkp i).
Proof.
  unfold contributionAt.
  destruct (nth_error ckp i) as [c |], (nth_error rkp i) as [r |];
    try reflexivity.
  rewrite andb_comm.
  destruct (gt (lm_visibility c) 0.5 && gt (lm_visibility r) 0.5);
    [| reflexivity].
  cbn [map]. f_equal. unfold differenceOf.
  replace ((lm_x r - lm_x c) ^ 2 + (lm_y r - lm_y c) ^ 2)
    with ((lm_x c - lm_x r) ^ 2 + (lm_y c - lm_y r) ^ 2) by ring.
  reflexivity.
Qed.

Lemma flat_map_map_pointwise {A B : Type} (f g : A -> list B) (h : B -> B)
  (l : list A) :
  (forall a, g a = map h (f a)) -> flat_map g l = map h (flat_map f l).
Proof.
  intros H. induction l as [| a l IH]; cbn; [reflexivity |].
  now rewrite map_app, H, IH.
Qed.

Lemma contributionAt_self (kp : list Landmark) (i : nat) :
  contributionAt kp kp i
  = match nth_error kp i with
    | Some lm =>
        if gt (lm_visibility lm) 0.5
        then [ {| jointIndex := i; distance := 0; severity := low;
                  currentPosition := (lm_x lm, lm_y lm);
                  referencePosition := (lm_x lm, lm_y lm) |} ]
        else []
    | None => []
    end.
Proof.
  unfold contributionAt. destruct (nth_error kp i) as [lm |]; [| reflexivity].
  rewrite andb_diag. destruct (gt (lm_visibility lm) 0.5); [| reflexivity].
  unfold differenceOf.
  replace ((lm_x lm - lm_x lm) ^ 2 + (lm_y lm - lm_y lm) ^ 2) with 0 by ring.
  rewrite sqrt_0, !gt_false by lra. reflexivity.
Qed.

Lemma self_contributions (kp : list Landmark) :
  forall (pre : list Landmark),
    let ds := flat_map (contributionAt (pre ++ kp) (pre ++ kp))
                (seq (List.length pre) (List.length kp)) in
    List.length ds = List.length (visible kp) /\
    Forall (fun d => distance d = 0 /\ severity d = low /\
                     currentPosition d = referencePosition d) ds.
Proof.
  induction kp as [| lm kp IH]; intros pre; cbn zeta.
  - cbn. split; [reflexivity | constructor].
  - cbn [List.length seq flat_map visible filter].
    rewrite contributionAt_self.
    rewrite nth_error_app2, Nat.sub_diag by lia. cbn [nth_error].
    specialize (IH (pre ++ [lm])). cbn zeta in IH.
    rewrite <- app_assoc, length_app, Nat.add_1_r in IH. cbn [app] in IH.
    destruct IH as (Hlen & Hall).
    destruct (gt (lm_visibility lm) 0.5); cbn [app List.length].
    + split; [unfold visible in Hlen; now rewrite Hlen |].
      constructor; [now cbn | exact Hall].
    + split; assumption.
Qed.

End PoseDifferencesMore.

(** X1.  The entries of [calculatePoseDifferences] come in strictly
    increasing [jointIndex]: no landmark is reported twice, and there are
    never more entries than the shorter [kp] array has landmarks. *)
Theorem calculatePoseDifferences_sorted :
  forall current reference : option PoseDiffVisualizer.Pose,
    exists differences,
      PoseDiffVisualizer.calculatePoseDifferences current reference
        = Ok differences /\
      StronglySorted Nat.lt (map PoseDiffVisualizer.jointIndex differences) /\
      NoDup (map PoseDiffVisualizer.jointIndex differences) /\
      forall ckp rkp,
        PoseDiffVisualizer.optional_kp current = Some ckp ->
        PoseDiffVisualizer.optional_kp reference = Some rkp ->
        (List.length differences
           <= Nat.min (List.length ckp) (List.length rkp))%nat.
Proof.
  intros current reference.
  rewrite calculatePoseDifferences_closed_form. eexists. split; [reflexivity |].
  destruct (PoseDiffVisualizer.optional_kp current) as [ckp |];
    [| repeat split; try constructor; intros; discriminate].
  destruct (PoseDiffVisualizer.optional_kp reference) as [rkp |];
    [| repeat split; try constructor; intros; discriminate].
  destruct (contributions_sorted ckp rkp
              (Nat.min (List.length ckp) (List.length rkp)) 0)
    as (Hsorted & Hlen & _).
  repeat split.
  - exact Hsorted.
  - clear Hlen. induction Hsorted as [| i l _ IH Hall]; constructor.
    + intros Hin. rewrite Forall_forall in Hall. specialize (Hall i Hin). lia.
    + exact IH.
  - intros ckp' rkp' H1 H2. injection H1 as <-. injection H2 as <-. exact Hlen.
Qed.

(** X2.  Exchanging the live and the reference pose exchanges the two
    positions of every entry and changes nothing else: the same joints
    are reported, with the same distances and severities. *)
Theorem calculatePoseDifferences_symmetric :
  forall a b : option PoseDiffVisualizer.Pose,
    exists differences,
      PoseDiffVisualizer.calculatePoseDifferences a b = Ok differences /\
      PoseDiffVisualizer.calculatePoseDifferences b a
        = Ok (map PoseDiffFacts.exchanged differences).
Proof.
  intros a b. rewrite !calculatePoseDifferences_closed_form.
  eexists. split; [reflexivity |]. f_equal.
  destruct (PoseDiffVisualizer.optional_kp a) as [akp |],
           (PoseDiffVisualizer.optional_kp b) as [bkp |]; try reflexivity.
  rewrite (Nat.min_comm (List.length bkp)).
  apply flat_map_map_pointwise. intros i. apply contributionAt_exchanged.
Qed.

(** X3.  A pose compared with itself gives one entry for each of its
    landmarks above the visibility threshold, each with distance 0,
    severity low and twice the same position. *)
Theorem calculatePoseDifferences_self :
  forall (pose : PoseDiffVisualizer.Pose) (landmarks : list Landmark),
    PoseDiffVisualizer.kp pose = Some landmarks ->
    exists differences,
      PoseDiffVisualizer.calculatePoseDifferences (Some pose) (Some pose)
        = Ok differences /\
      List.length differences
        = List.length (PoseDiffFacts.visible landmarks) /\
      Forall (fun d => PoseDiffVisualizer.distance d = 0 /\
                       PoseDiffVisualizer.severity d = PoseDiffVisualizer.low /\
                       PoseDiffVisualizer.currentPosition d
                         = PoseDiffVisualizer.referencePosition d)
        differences.
Proof.
  intros pose landmarks Hkp.
  rewrite calculatePoseDifferences_closed_form. cbn [PoseDiffVisualizer.optional_kp].
  rewrite Hkp, Nat.min_id. eexists. split; [reflexivity |].
  exact (self_contributions landmarks []).
Qed.

Lemma calculatePoseDifferences_self_witness :
  exists differences,
    PoseDiffVisualizer.calculatePoseDifferences
      (Some Inputs.noseOnly) (Some Inputs.noseOnly) = Ok differences /\
    List.length differences
      = List.length (PoseDiffFacts.visible (Inputs.seen :: repeat Inputs.unseen 32)) /\
    Forall (fun d => PoseDiffVisualizer.distance d = 0 /\
                     PoseDiffVisualizer.severity d = PoseDiffVisualizer.low /\
                     PoseDiffVisualizer.currentPosition d
                       = PoseDiffVisualizer.referencePosition d)
      differences.
Proof.
  apply (calculatePoseDifferences_self Inputs.noseOnly). reflexivity.
Defined.

(** ** Joint scores: range, status, keys, symmetry *)

Section JointScoresMore.

Import PoseDiffVisualizer PoseDiffSpec.

Lemma accuracyOf_above (d bound : number) :
  0 <= bound -> (accuracyOf d > bound <-> d < (100 - bound) / 1000).
Proof.
  intros Hb. unfold accuracyOf, Math_max, Rmax.
  destruct (Rle_dec 0 (100 - d * 1000)); split; intros H; lra.
Qed.

Lemma jointScoreOf_facts (c r : Landmark) :
  let sc := jointScoreOf c r in
  0 <= score_distance sc /\
  (exists z : Z, accuracy sc = IZR z /\ (0 <= z <= 100)%Z) /\
  (status sc = excellent <-> score_distance sc < 0.02) /\
  (status sc = good <-> 0.02 <= score_distance sc < 0.04) /\
  (status sc = needsWork <-> 0.04 <= score_distance sc) /\
  (status sc = excellent -> 80 <= accuracy sc) /\
  (80 < accuracy sc -> status sc = excellent).
Proof.
  cbn zeta. unfold jointScoreOf. cbn [score_distance accuracy status].
  set (d := sqrt ((lm_x c - lm_x r) ^ 2 + (lm_y c - lm_y r) ^ 2)).
  assert (Hd : 0 <= d) by apply sqrt_pos.
  pose proof (accuracyOf_range d Hd) as Hrange.
  pose proof (accuracyOf_above d 80 ltac:(lra)) as H80.
  pose proof (accuracyOf_above d 60 ltac:(lra)) as H60.
  assert (Hround : forall x y : number, x <= y -> Math_round x <= Math_round y)
    by exact Math_round_mono.
  split; [exact Hd |]. split.
  { exists (Int_part (accuracyOf d + / 2)). split; [reflexivity |].
    pose proof (Hround 0 (accuracyOf d) (proj1 Hrange)) as H0.
    pose proof (Hround (accuracyOf d) 100 (proj2 Hrange)) as H100.
    rewrite (Math_round_IZR 0) in H0. rewrite (Math_round_IZR 100) in H100.
    unfold Math_round in H0, H100.
    split; apply le_IZR; assumption. }
  unfold gt.
  destruct (Rgt_dec (accuracyOf d) 80) as [Hgt80 | Hle80].
  - assert (d < 0.02) by (apply H80 in Hgt80; lra).
    repeat split; try (intros; lra); try discriminate; try reflexivity.
    intros _. rewrite <- (Math_round_IZR 80). apply Hround. lra.
  - assert (0.02 <= d).
    { destruct (Rlt_dec d 0.02) as [Hlt |]; [| lra].
      exfalso. apply Hle80, H80. lra. }
    assert (Hnot : 80 < Math_round (accuracyOf d) -> False).
    { intros Hlt. assert (Hle : accuracyOf d <= 80) by lra.
      apply Hround in Hle. rewrite (Math_round_IZR 80) in Hle. lra. }
    destruct (Rgt_dec (accuracyOf d) 60) as [Hgt60 | Hle60].
    + assert (d < 0.04) by (apply H60 in Hgt60; lra).
      repeat split; try (intros; lra); try discriminate; try reflexivity;
        try (intros Habs; exfalso; now apply Hnot).
    + assert (0.04 <= d).
      { destruct (Rlt_dec d 0.04) as [Hlt |]; [| lra].
        exfalso. apply Hle60, H60. lra. }
      repeat split; try (intros; lra); try discriminate; try reflexivity;
        try (intros Habs; exfalso; now apply Hnot).
Qed.

Lemma jointScoreOf_symmetric (c r : Landmark) :
  jointScoreOf c r = jointScoreOf r c.
Proof.
  unfold jointScoreOf.
  replace ((lm_x r - lm_x c) ^ 2 + (lm_y r - lm_y c) ^ 2)
    with ((lm_x c - lm_x r) ^ 2 + (lm_y c - lm_y r) ^ 2) by ring.
  reflexivity.
Qed.

Lemma scoreEntry_symmetric (a b : option Pose) (entry : string * nat) :
  scoreEntry a b entry = scoreEntry b a entry.
Proof.
  unfold scoreEntry.
  destruct (optional_landmark a (snd entry)) as [c |],
           (optional_landmark b (snd entry)) as [r |]; try reflexivity.
  now rewrite jointScoreOf_symmetric.
Qed.

Lemma flat_map_pointwise {A B : Type} (f g : A -> list B) (l : list A) :
  (forall a, f a = g a) -> flat_map f l = flat_map g l.
Proof.
  intros H. induction l as [| a l IH]; cbn; [reflexivity |].
  now rewrite H, IH.
Qed.

Lemma score_keys_filtered (current reference : option Pose)
  (joints : list (string * nat)) :
  map fst (flat_map (scoreEntry current reference) joints)
  = map fst
      (filter (fun entry =>
                 match optional_landmark current (snd entry),
                       optional_landmark reference (snd entry) with
                 | Some _, Some _ => true
                 | _, _ => false
                 end) joints).
Proof.
  induction joints as [| entry joints IH]; cbn [flat_map filter map];
    [reflexivity |].
  rewrite map_app, IH. unfold scoreEntry at 1.
  destruct (optional_landmark current (snd entry)),
           (optional_landmark reference (snd entry)); reflexivity.
Qed.

Lemma kept_keys_distinct {Entry Key : Type} (key : Entry -> Key)
  (keep : Entry -> bool) (entries : list Entry)
  (Hdistinct : NoDup (map key entries)) :
  NoDup (map key (filter keep entries)).
Proof.
  induction entries as [| e entries IH]; [constructor |].
  apply NoDup_cons_iff in Hdistinct. destruct Hdistinct as [Hfresh Hrest].
  cbn [filter]. destruct (keep e); [| now apply IH].
  cbn [map]. constructor; [| now apply IH].
  intros Hin. apply Hfresh.
  apply in_map_iff in Hin. destruct Hin as (e' & Hkey & Hin).
  apply filter_In in Hin. apply in_map_iff. exists e'. tauto.
Qed.

End JointScoresMore.

(** X4.  Every joint score has a whole accuracy between 0 and 100 and a
    distance that is not negative.  Its status follows the distance:
    "excellent" below 0.02, "good" from 0.02 to below 0.04, "needsWork"
    from 0.04 on.  The status is taken before the accuracy is rounded:
    an accuracy shown above 80 is always "excellent", and an
    "excellent" joint shows at least 80. *)
Theorem jointScores_range_and_status :
  forall current reference : option PoseDiffVisualizer.Pose,
    Forall
      (fun entry : string * PoseDiffVisualizer.JointScore =>
         let sc := snd entry in
         0 <= PoseDiffVisualizer.score_distance sc /\
         (exists z : Z, PoseDiffVisualizer.accuracy sc = IZR z
                        /\ (0 <= z <= 100)%Z) /\
         (PoseDiffVisualizer.status sc = PoseDiffVisualizer.excellent
            <-> PoseDiffVisualizer.score_distance sc < 0.02) /\
         (PoseDiffVisualizer.status sc = PoseDiffVisualizer.good
            <-> 0.02 <= PoseDiffVisualizer.score_distance sc < 0.04) /\
         (PoseDiffVisualizer.status sc = PoseDiffVisualizer.needsWork
            <-> 0.04 <= PoseDiffVisualizer.score_distance sc) /\
         (PoseDiffVisualizer.status sc = PoseDiffVisualizer.excellent
            -> 80 <= PoseDiffVisualizer.accuracy sc) /\
         (80 < PoseDiffVisualizer.accuracy sc
            -> PoseDiffVisualizer.status sc = PoseDiffVisualizer.excellent))
      (PoseDiffVisualizer.calculateJointAccuracyScores current reference).
Proof.
  intros current reference.
  rewrite calculateJointAccuracyScores_closed_form.
  apply Forall_forall. intros [name sc] Hin.
  apply in_flat_map in Hin. destruct Hin as (entry & _ & Hin).
  unfold PoseDiffSpec.scoreEntry in Hin.
  destruct (PoseDiffVisualizer.optional_landmark current (snd entry)) as [c |];
    [| destruct Hin].
  destruct (PoseDiffVisualizer.optional_landmark reference (snd entry)) as [r |];
    [| destruct Hin].
  destruct Hin as [Heq | []]. injection Heq as _ <-.
  exact (jointScoreOf_facts c r).
Qed.

(** X5.  The object of scores has one key per joint, never the same key
    twice and at most twelve keys; when both [kp] arrays have at least 29
    landmarks its keys are the twelve names of [criticalJoints], in that
    order. *)
Theorem jointScores_keys :
  forall current reference : option PoseDiffVisualizer.Pose,
    let scores :=
      PoseDiffVisualizer.calculateJointAccuracyScores current reference in
    NoDup (map fst scores) /\
    (List.length scores <= 12)%nat /\
    (forall ckp rkp,
       PoseDiffVisualizer.optional_kp current = Some ckp ->
       PoseDiffVisualizer.optional_kp reference = Some rkp ->
       (29 <= List.length ckp)%nat -> (29 <= List.length rkp)%nat ->
       map fst scores = map fst PoseDiffVisualizer.criticalJoints).
Proof.
  intros current reference. cbn zeta.
  rewrite calculateJointAccuracyScores_closed_form.
  split; [| split].
  - rewrite score_keys_filtered. apply kept_keys_distinct.
    apply criticalJoints_names_distinct.
  - rewrite <- (length_map fst), score_keys_filtered, length_map.
    etransitivity; [apply filter_length_le | reflexivity].
  - intros ckp rkp Hc Hr Hlc Hlr. rewrite score_keys_filtered. f_equal.
    apply forallb_filter_id. apply forallb_forall. intros [name index] Hin.
    unfold PoseDiffVisualizer.optional_landmark, at_index. rewrite Hc, Hr.
    cbn [snd].
    assert (Hindex : (index < 29)%nat).
    { apply (in_map snd) in Hin. cbn in Hin.
      repeat (destruct Hin as [<- | Hin]; [lia |]). destruct Hin. }
    destruct (nth_error ckp index) eqn:Ec;
      [| apply nth_error_None in Ec; lia].
    destruct (nth_error rkp index) eqn:Er;
      [| apply nth_error_None in Er; lia].
    reflexivity.
Qed.

(** X6.  The joint scores do not depend on which pose is the live one and
    which the reference; a pose scored against itself gets accuracy 100,
    distance 0 and "excellent" for every critical joint it has. *)
Theorem jointScores_symmetric :
  forall a b : option PoseDiffVisualizer.Pose,
    PoseDiffVisualizer.calculateJointAccuracyScores a b
      = PoseDiffVisualizer.calculateJointAccuracyScores b a /\
    Forall
      (fun entry : string * PoseDiffVisualizer.JointScore =>
         snd entry
         = {| PoseDiffVisualizer.accuracy := 100;
              PoseDiffVisualizer.score_distance := 0;
              PoseDiffVisualizer.status := PoseDiffVisualizer.excellent |})
      (PoseDiffVisualizer.calculateJointAccuracyScores a a).
Proof.
  intros a b. rewrite !calculateJointAccuracyScores_closed_form. split.
  - apply flat_map_pointwise. intros entry. apply scoreEntry_symmetric.
  - apply Forall_forall. intros [name sc] Hin.
    apply in_flat_map in Hin. destruct Hin as (entry & _ & Hin).
    unfold PoseDiffSpec.scoreEntry in Hin.
    destruct (PoseDiffVisualizer.optional_landmark a (snd entry)) as [c |];
      [| destruct Hin].
    destruct Hin as [Heq | []]. injection Heq as _ <-.
    apply jointScoreOf_same.
Qed.

(** ** The summary of the differences *)

Section Summary.

Import PoseDiffVisualizer PoseDiffSummary.

Lemma severity_partition (ds : list Difference) :
  (List.length (filter (has_severity high) ds)
   + List.length (filter (has_severity medium) ds)
   + List.length (filter (has_severity low) ds))%nat
  = List.length ds.
Proof.
  induction ds as [| d ds IH]; [reflexivity |].
  cbn [filter].
  assert (Hh : has_severity high d
               = match severity d with high => true | _ => false end)
    by (unfold has_severity; now destruct (severity d)).
  assert (Hm : has_severity medium d
               = match severity d with medium => true | _ => false end)
    by (unfold has_severity; now destruct (severity d)).
  assert (Hl : has_severity low d
               = match severity d with low => true | _ => false end)
    by (unfold has_severity; now destruct (severity d)).
  rewrite Hh, Hm, Hl. destruct (severity d); cbn [List.length]; lia.
Qed.

Lemma accuracyPercent_range (ds : list Difference) :
  ds <> [] -> 0 <= accuracyPercent ds <= 100.
Proof.
  intros Hne. unfold accuracyPercent.
  set (k := List.length (filter (has_severity low) ds)).
  set (n := List.length ds).
  assert (Hn : 0 < INR n).
  { apply lt_0_INR. subst n. destruct ds; [contradiction | cbn; lia]. }
  assert (Hk : 0 <= INR k <= INR n).
  { split; [apply pos_INR | apply le_INR]. subst k n. apply filter_length_le. }
  assert (Hq : 0 <= INR k / INR n * 100 <= 100).
  { assert (Hinv : 0 < / INR n) by now apply Rinv_0_lt_compat.
    assert (Hone : INR n * / INR n = 1) by (apply Rinv_r; lra).
    unfold Rdiv. split; nra. }
  pose proof (Math_round_mono _ _ (proj1 Hq)) as H0.
  pose proof (Math_round_mono _ _ (proj2 Hq)) as H100.
  rewrite (Math_round_IZR 0) in H0. rewrite (Math_round_IZR 100) in H100.
  split; assumption.
Qed.

End Summary.

(** X7.  The summary is shown exactly for a list of differences that is
    there and not empty.  Its major and minor issues never count more
    than the differences there are, the remaining ones being those of
    severity low, and its accuracy is a percentage between 0 and 100,
    which is 100 when no difference is major or minor. *)
Theorem summary_figures :
  forall poseDifferences : option (list PoseDiffVisualizer.Difference),
    (PoseDiffSummary.summary poseDifferences = None <->
       poseDifferences = None \/ poseDifferences = Some []) /\
    (forall major minor percent,
       PoseDiffSummary.summary poseDifferences = Some (major, minor, percent) ->
       exists differences,
         poseDifferences = Some differences /\
         (major + minor
          + List.length
              (filter (PoseDiffSummary.has_severity PoseDiffVisualizer.low)
                 differences))%nat
         = List.length differences /\
         0 <= percent <= 100 /\
         ((major + minor = 0)%nat -> percent = 100)).
Proof.
  intros poseDifferences. split.
  - destruct poseDifferences as [[| d ds] |]; cbn; split; intros H;
      try reflexivity; try discriminate; auto.
    destruct H as [H | H]; discriminate.
  - intros major minor percent Hs.
    destruct poseDifferences as [[| d ds] |]; try discriminate.
    cbn [PoseDiffSummary.summary] in Hs. injection Hs as <- <- <-.
    exists (d :: ds). split; [reflexivity |].
    pose proof (severity_partition (d :: ds)) as Hpart.
    split; [exact Hpart |]. split.
    + apply accuracyPercent_range. discriminate.
    + intros Hzero. unfold PoseDiffSummary.accuracyPercent.
      unfold PoseDiffSummary.majorIssues, PoseDiffSummary.minorIssues in *.
      replace (List.length
                 (filter (PoseDiffSummary.has_severity PoseDiffVisualizer.low)
                    (d :: ds)))
        with (List.length (d :: ds)) by lia.
      rewrite Rdiv_diag, Rmult_1_l; [apply (Math_round_IZR 100) |].
      apply not_0_INR. discriminate.
Qed.

Lemma summary_figures_witness :
  exists differences,
    Some [PoseDiffSpec.differenceOf 0 Inputs.seen Inputs.seen]
      = Some differences /\
    (PoseDiffSummary.majorIssues
       [PoseDiffSpec.differenceOf 0 Inputs.seen Inputs.seen]
     + PoseDiffSummary.minorIssues
         [PoseDiffSpec.differenceOf 0 Inputs.seen Inputs.seen]
     + List.length
         (filter (PoseDiffSummary.has_severity PoseDiffVisualizer.low)
            differences))%nat
    = List.length differences /\
    0 <= PoseDiffSummary.accuracyPercent
           [PoseDiffSpec.differenceOf 0 Inputs.seen Inputs.seen] <= 100 /\
    ((PoseDiffSummary.majorIssues
        [PoseDiffSpec.differenceOf 0 Inputs.seen Inputs.seen]
      + PoseDiffSummary.minorIssues
          [PoseDiffSpec.differenceOf 0 Inputs.seen Inputs.seen] = 0)%nat ->
     PoseDiffSummary.accuracyPercent
       [PoseDiffSpec.differenceOf 0 Inputs.seen Inputs.seen] = 100).
Proof.
  apply (proj2 (summary_figures
                  (Some [PoseDiffSpec.differenceOf 0 Inputs.seen Inputs.seen]))).
  reflexivity.
Defined.

(** ** The overlay of the video player *)

Section Overlay.

Import Canvas VideoPlayerOverlay.

Lemma toScreen_visibility (w h : number) (lm : Landmark) :
  visibility (toScreen w h lm) = lm_visibility lm.
Proof.
  unfold toScreen.
  now destruct (gt (Math_abs (lm_x lm)) 1 || gt (Math_abs (lm_y lm)) 1).
Qed.

Lemma at_index_screen (w h : number) (lms : list Landmark) (i : nat)
  (p : ScreenLandmark) :
  at_index (map (toScreen w h) lms) i = Some p ->
  exists lm, In lm lms /\ p = toScreen w h lm.
Proof.
  unfold at_index. intros H. apply nth_error_In, in_map_iff in H.
  destruct H as (lm & <- & Hin). now exists lm.
Qed.

Lemma drawConnection_visible (w h : number) (lms : list Landmark)
  (connection : nat * nat) (cmd : Command) (px py : number) :
  In cmd (drawConnection (map (toScreen w h) lms) connection) ->
  drawsAt cmd = Some (px, py) ->
  exists lm, In lm lms /\ lm_visibility lm > 0.5 /\
             px = x (toScreen w h lm) /\ py = y (toScreen w h lm).
Proof.
  destruct connection as [startIdx endIdx]. unfold drawConnection.
  destruct (at_index (map (toScreen w h) lms) startIdx) as [s |] eqn:Es;
    [| intros []].
  destruct (at_index (map (toScreen w h) lms) endIdx) as [e |] eqn:Ee;
    [| intros []].
  apply at_index_screen in Es. destruct Es as (ls & Hls & ->).
  apply at_index_screen in Ee. destruct Ee as (le & Hle & ->).
  rewrite !toScreen_visibility. unfold gt.
  destruct (Rgt_dec (lm_visibility ls) 0.5); [| intros []].
  destruct (Rgt_dec (lm_visibility le) 0.5); [| intros []].
  intros [<- | [<- | [<- | [<- | []]]]] Hat; cbn in Hat; try discriminate;
    injection Hat as <- <-.
  - now exists ls.
  - now exists le.
Qed.

Lemma drawLandmark_visible (w h : number) (lm : Landmark) (cmd : Command)
  (px py : number) :
  In cmd (drawLandmark (toScreen w h lm)) ->
  drawsAt cmd = Some (px, py) ->
  lm_visibility lm > 0.5 /\
  px = x (toScreen w h lm) /\ py = y (toScreen w h lm).
Proof.
  unfold drawLandmark. rewrite toScreen_visibility. unfold gt.
  destruct (Rgt_dec (lm_visibility lm) 0.5); [| intros []].
  intros [<- | [<- | [<- | []]]] Hat; cbn in Hat; try discriminate.
  injection Hat as <- <-. now repeat split.
Qed.

Lemma drawSkeleton_visible (landmarks : option (list Landmark)) (w h : number)
  (cmd : Command) (px py : number) :
  In cmd (drawSkeleton landmarks w h) ->
  drawsAt cmd = Some (px, py) ->
  exists lms lm, landmarks = Some lms /\ In lm lms /\ lm_visibility lm > 0.5 /\
                 px = x (toScreen w h lm) /\ py = y (toScreen w h lm).
Proof.
  destruct landmarks as [[| l0 ls] |]; cbn [drawSkeleton];
    [intros [] | | intros []].
  set (lms := l0 :: ls). intros Hin Hat. exists lms.
  cbn [app] in Hin.
  destruct Hin as [<- | [<- | [<- | Hin]]]; try discriminate.
  apply in_app_iff in Hin. destruct Hin as [Hin | Hin].
  - apply in_flat_map in Hin. destruct Hin as (connection & _ & Hin).
    destruct (drawConnection_visible w h lms connection cmd px py Hin Hat)
      as (lm & H1 & H2 & H3 & H4).
    now exists lm.
  - destruct Hin as [<- | Hin]; [discriminate |].
    apply in_flat_map in Hin. destruct Hin as (p & Hp & Hin).
    apply in_map_iff in Hp. destruct Hp as (lm & <- & Hlm).
    destruct (drawLandmark_visible w h lm cmd px py Hin Hat) as (H2 & H3 & H4).
    now exists lm.
Qed.

Lemma arcs_of_connections (screen : list ScreenLandmark)
  (connections : list (nat * nat)) :
  filter isArc (flat_map (drawConnection screen) connections) = [].
Proof.
  induction connections as [| [s e] cs IH]; [reflexivity |].
  cbn [flat_map]. rewrite filter_app, IH, app_nil_r. unfold drawConnection.
  destruct (at_index screen s), (at_index screen e); try reflexivity.
  now destruct (gt (visibility s0) 0.5 && gt (visibility s1) 0.5).
Qed.

Lemma arcs_of_landmarks (w h : number) (lms : list Landmark) :
  List.length (filter isArc (flat_map drawLandmark (map (toScreen w h) lms)))
  = List.length (PoseDiffFacts.visible lms).
Proof.
  induction lms as [| lm lms IH]; [reflexivity |].
  cbn [map flat_map PoseDiffFacts.visible filter].
  rewrite filter_app, length_app, IH. unfold drawLandmark.
  rewrite toScreen_visibility.
  destruct (gt (lm_visibility lm) 0.5); reflexivity.
Qed.

End Overlay.

(** X8.  A landmark given in normalised coordinates, inside the unit
    square, lands inside the frame of the video, and its visibility is
    carried over unchanged. *)
Theorem toScreen_inside_frame :
  forall (videoWidth videoHeight : number) (lm : Landmark),
    0 <= videoWidth -> 0 <= videoHeight ->
    0 <= lm_x lm <= 1 -> 0 <= lm_y lm <= 1 ->
    let p := VideoPlayerOverlay.toScreen videoWidth videoHeight lm in
    0 <= VideoPlayerOverlay.x p <= videoWidth /\
    0 <= VideoPlayerOverlay.y p <= videoHeight /\
    VideoPlayerOverlay.visibility p = lm_visibility lm.
Proof.
  intros w h lm Hw Hh Hx Hy. cbn zeta. unfold VideoPlayerOverlay.toScreen.
  unfold Math_abs. rewrite (Rabs_right (lm_x lm)), (Rabs_right (lm_y lm)) by lra.
  rewrite !gt_false by lra. cbn. repeat split; nra.
Qed.

Lemma toScreen_inside_frame_witness :
  0 <= VideoPlayerOverlay.x (VideoPlayerOverlay.toScreen 640 480 Inputs.seen)
    <= 640 /\
  0 <= VideoPlayerOverlay.y (VideoPlayerOverlay.toScreen 640 480 Inputs.seen)
    <= 480 /\
  VideoPlayerOverlay.visibility (VideoPlayerOverlay.toScreen 640 480 Inputs.seen)
    = lm_visibility Inputs.seen.
Proof.
  apply (toScreen_inside_frame 640 480 Inputs.seen); cbn; lra.
Defined.

(** X9.  [drawSkeleton] does nothing for missing or empty landmarks.
    Otherwise every point it puts on the canvas, the end of a line or
    the centre of a dot, is the screen position of a landmark above the
    visibility threshold, and it draws as many dots as there are such
    landmarks. *)
Theorem drawSkeleton_only_visible :
  forall (landmarks : option (list Landmark)) (videoWidth videoHeight : number),
    (landmarks = None \/ landmarks = Some [] ->
     VideoPlayerOverlay.drawSkeleton landmarks videoWidth videoHeight = []) /\
    Forall
      (fun cmd =>
         forall px py, Canvas.drawsAt cmd = Some (px, py) ->
           exists lms lm,
             landmarks = Some lms /\ In lm lms /\ lm_visibility lm > 0.5 /\
             px = VideoPlayerOverlay.x
                    (VideoPlayerOverlay.toScreen videoWidth videoHeight lm) /\
             py = VideoPlayerOverlay.y
                    (VideoPlayerOverlay.toScreen videoWidth videoHeight lm))
      (VideoPlayerOverlay.drawSkeleton landmarks videoWidth videoHeight) /\
    (forall lms, landmarks = Some lms ->
       List.length
         (filter Canvas.isArc
            (VideoPlayerOverlay.drawSkeleton landmarks videoWidth videoHeight))
       = List.length (PoseDiffFacts.visible lms)).
Proof.
  intros landmarks w h. split; [| split].
  - intros [-> | ->]; reflexivity.
  - apply Forall_forall. intros cmd Hin px py Hat.
    exact (drawSkeleton_visible landmarks w h cmd px py Hin Hat).
  - intros lms ->. destruct lms as [| l0 ls]; [reflexivity |].
    cbn [VideoPlayerOverlay.drawSkeleton]. set (lms := l0 :: ls).
    cbn [app filter Canvas.isArc].
    rewrite filter_app, arcs_of_connections. cbn [app filter Canvas.isArc].
    apply arcs_of_landmarks.
Qed.

(** X10.  [drawPose] does nothing while the video has no size.  Otherwise
    it first clears the canvas, and what it then draws comes from the
    record [findPoseForTime] answers for the current time only: nothing
    when there is no record or when that record has [ok] false, and
    otherwise only visible landmarks of that record. *)
Theorem drawPose_nearest_only :
  forall (poseData : option (list VideoPlayer.FrameRecord))
         (currentTime videoWidth videoHeight canvasWidth canvasHeight : number),
    (videoWidth = 0 \/ videoHeight = 0 ->
     VideoPlayerOverlay.drawPose poseData currentTime videoWidth videoHeight
       canvasWidth canvasHeight = []) /\
    (videoWidth <> 0 -> videoHeight <> 0 ->
     exists drawn,
       VideoPlayerOverlay.drawPose poseData currentTime videoWidth videoHeight
         canvasWidth canvasHeight
       = Canvas.clearRect 0 0 canvasWidth canvasHeight :: drawn /\
       (VideoPlayer.findPoseForTime poseData currentTime = None -> drawn = []) /\
       (forall r, VideoPlayer.findPoseForTime poseData currentTime = Some r ->
          (VideoPlayer.ok r = false -> drawn = []) /\
          (VideoPlayer.ok r = true ->
           drawn = VideoPlayerOverlay.drawSkeleton (VideoPlayer.kp r)
                     videoWidth videoHeight) /\
          forall cmd px py, In cmd drawn ->
            Canvas.drawsAt cmd = Some (px, py) ->
            exists lms lm,
              VideoPlayer.kp r = Some lms /\ In lm lms /\
              lm_visibility lm > 0.5 /\
              px = VideoPlayerOverlay.x
                     (VideoPlayerOverlay.toScreen videoWidth videoHeight lm) /\
              py = VideoPlayerOverlay.y
                     (VideoPlayerOverlay.toScreen videoWidth videoHeight lm))).
Proof.
  intros poseData time w h cw ch. unfold VideoPlayerOverlay.drawPose.
  unfold Canvas.not_number. split.
  - intros [-> | ->].
    + destruct (Req_dec_T 0 0); [reflexivity | contradiction].
    + destruct (Req_dec_T w 0); [reflexivity |].
      destruct (Req_dec_T 0 0); [reflexivity | contradiction].
  - intros Hw Hh.
    destruct (Req_dec_T w 0); [contradiction |].
    destruct (Req_dec_T h 0); [contradiction |]. cbn [orb].
    eexists. split; [reflexivity |].
    destruct (VideoPlayer.findPoseForTime poseData time) as [r |].
    + split; [discriminate |]. intros r' Hr. injection Hr as <-.
      destruct (VideoPlayer.ok r); cbn [negb]; repeat split;
        try reflexivity; try discriminate.
      * intros cmd px py Hin Hat.
        exact (drawSkeleton_visible _ w h cmd px py Hin Hat).
      * intros cmd px py [].
    + split; [reflexivity | discriminate].
Qed.

Lemma drawPose_nearest_only_witness :
  exists drawn,
    VideoPlayerOverlay.drawPose
      (Some [Inputs.frame0; Inputs.frame1; Inputs.frame2]) 0.75 640 480 640 480
    = Canvas.clearRect 0 0 640 480 :: drawn.
Proof.
  destruct (proj2 (drawPose_nearest_only
                     (Some [Inputs.frame0; Inputs.frame1; Inputs.frame2])
                     0.75 640 480 640 480)) as (drawn & H & _).
  - lra.
  - lra.
  - exists drawn. exact H.
Defined.

(** ** The frame controls of the pose data viewer *)

Section FrameControls.

Import PoseDataViewer.

Lemma handleFrameChange_in_range (total : Z) (direction : string) (sel : Z) :
  (0 <= sel < total)%Z ->
  (0 <= handleFrameChange total direction sel < total)%Z.
Proof.
  intros H. unfold handleFrameChange.
  destruct (String.eqb direction "prev" && (0 <? sel)%Z) eqn:E1.
  - apply andb_prop in E1. destruct E1 as [_ E1]. apply Z.ltb_lt in E1. lia.
  - destruct (String.eqb direction "next" && (sel <? total - 1)%Z) eqn:E2;
      [| exact H].
    apply andb_prop in E2. destruct E2 as [_ E2]. apply Z.ltb_lt in E2. lia.
Qed.

Lemma handleFrameJump_in_range (total frameIndex : Z) :
  (0 < total)%Z -> (0 <= handleFrameJump total frameIndex < total)%Z.
Proof. intros H. unfold handleFrameJump. lia. Qed.

Lemma act_in_range (total sel : Z) (a : Action) :
  (0 <= sel < total)%Z -> (0 <= act total sel a < total)%Z.
Proof.
  intros H. destruct a as [direction | frameIndex]; cbn [act].
  - now apply handleFrameChange_in_range.
  - apply handleFrameJump_in_range. lia.
Qed.

Lemma frameAt_in_range (frames : list VideoPlayer.FrameRecord) (sel : Z) :
  (0 <= sel < Z.of_nat (List.length frames))%Z ->
  exists frame, frameAt frames sel = Some frame.
Proof.
  intros H. unfold frameAt, at_index.
  replace (sel <? 0)%Z with false by (symmetry; apply Z.ltb_ge; lia).
  destruct (nth_error frames (Z.to_nat sel)) as [frame |] eqn:E;
    [now exists frame |].
  apply nth_error_None in E. lia.
Qed.

End FrameControls.

(** X11.  Whatever the user does with the previous and next buttons and
    the slider, on a timeline that is not empty the selected frame stays
    a frame of the timeline: [poseData[selectedFrame]] is never
    undefined. *)
Theorem selectedFrame_stays_in_range :
  forall (poseData : list VideoPlayer.FrameRecord)
         (actions : list PoseDataViewer.Action),
    poseData <> [] ->
    let totalFrames := Z.of_nat (List.length poseData) in
    let selectedFrame :=
      fold_left (PoseDataViewer.act totalFrames) actions 0%Z in
    (0 <= selectedFrame < totalFrames)%Z /\
    exists currentPose,
      PoseDataViewer.frameAt poseData selectedFrame = Some currentPose.
Proof.
  intros poseData actions Hne. cbn zeta.
  set (total := Z.of_nat (List.length poseData)).
  assert (Htotal : (0 < total)%Z).
  { subst total. destruct poseData; [contradiction | cbn [List.length]; lia]. }
  assert (Hinv : forall sel, (0 <= sel < total)%Z ->
            (0 <= fold_left (PoseDataViewer.act total) actions sel < total)%Z).
  { induction actions as [| a actions IH]; intros sel Hsel; [exact Hsel |].
    cbn [fold_left]. apply IH. now apply act_in_range. }
  specialize (Hinv 0%Z ltac:(lia)). split; [exact Hinv |].
  now apply frameAt_in_range.
Qed.

Lemma selectedFrame_stays_in_range_witness :
  (0 <= fold_left (PoseDataViewer.act 3)
          [PoseDataViewer.change "next"; PoseDataViewer.jump 7;
           PoseDataViewer.change "next"; PoseDataViewer.change "prev"] 0%Z
     < 3)%Z /\
  exists currentPose,
    PoseDataViewer.frameAt [Inputs.frame0; Inputs.frame1; Inputs.frame2]
      (fold_left (PoseDataViewer.act 3)
         [PoseDataViewer.change "next"; PoseDataViewer.jump 7;
          PoseDataViewer.change "next"; PoseDataViewer.change "prev"] 0%Z)
    = Some currentPose.
Proof.
  apply (selectedFrame_stays_in_range
           [Inputs.frame0; Inputs.frame1; Inputs.frame2]
           [PoseDataViewer.change "next"; PoseDataViewer.jump 7;
            PoseDataViewer.change "next"; PoseDataViewer.change "prev"]).
  discriminate.
Defined.

(** X12.  On a selected frame of the timeline, a button is disabled
    exactly when pressing it would change nothing; pressing next and then
    previous, or previous and then next, where the first press moves,
    comes back to the same frame; a direction other than "prev" and
    "next" changes nothing. *)
Theorem frame_buttons :
  forall (frames : list VideoPlayer.FrameRecord) (selectedFrame : Z)
         (controls : PoseDataViewer.Controls),
    PoseDataViewer.render (Some frames) selectedFrame
      = Ok (PoseDataViewer.viewer controls) ->
    let total := Z.of_nat (List.length frames) in
    (0 <= selectedFrame < total)%Z /\
    (PoseDataViewer.prevDisabled controls = true <->
       PoseDataViewer.handleFrameChange total "prev" selectedFrame
         = selectedFrame) /\
    (PoseDataViewer.nextDisabled controls = true <->
       PoseDataViewer.handleFrameChange total "next" selectedFrame
         = selectedFrame) /\
    (PoseDataViewer.nextDisabled controls = false ->
       PoseDataViewer.handleFrameChange total "prev"
         (PoseDataViewer.handleFrameChange total "next" selectedFrame)
       = selectedFrame) /\
    (PoseDataViewer.prevDisabled controls = false ->
       PoseDataViewer.handleFrameChange total "next"
         (PoseDataViewer.handleFrameChange total "prev" selectedFrame)
       = selectedFrame) /\
    (forall direction, direction <> "prev"%string -> direction <> "next"%string ->
       PoseDataViewer.handleFrameChange total direction selectedFrame
       = selectedFrame).
Proof.
  intros frames sel controls Hrender. cbn zeta.
  set (total := Z.of_nat (List.length frames)).
  assert (Hrange : (0 <= sel < total)%Z /\
                   PoseDataViewer.prevDisabled controls = (sel =? 0)%Z /\
                   PoseDataViewer.nextDisabled controls = (sel =? total - 1)%Z).
  { destruct frames as [| f fs]; [discriminate |].
    cbn [PoseDataViewer.render] in Hrender. fold total in Hrender.
    unfold PoseDataViewer.frameAt, at_index in Hrender.
    destruct (sel <? 0)%Z eqn:Eneg; [discriminate |].
    apply Z.ltb_ge in Eneg.
    destruct (nth_error (f :: fs) (Z.to_nat sel)) as [frame |] eqn:Eframe;
      [| discriminate].
    assert (Hlt : (Z.to_nat sel < List.length (f :: fs))%nat)
      by (apply nth_error_Some; congruence).
    cbn [property bind] in Hrender.
    destruct (VideoPlayer.ok frame).
    - destruct (VideoPlayer.kp frame); cbn [property bind] in Hrender;
        [| discriminate].
      injection Hrender as <-.
      cbn [PoseDataViewer.prevDisabled PoseDataViewer.nextDisabled].
      subst total. repeat split; try reflexivity; lia.
    - cbn [bind] in Hrender. injection Hrender as <-.
      cbn [PoseDataViewer.prevDisabled PoseDataViewer.nextDisabled].
      subst total. repeat split; try reflexivity; lia. }
  destruct Hrange as (Hrange & -> & ->). split; [exact Hrange |].
  unfold PoseDataViewer.handleFrameChange. cbn [String.eqb Ascii.eqb Bool.eqb andb].
  repeat split.
  - intros H. apply Z.eqb_eq in H. subst sel. reflexivity.
  - destruct (0 <? sel)%Z eqn:E; [intros; lia | intros _].
    apply Z.ltb_ge in E. apply Z.eqb_eq. lia.
  - intros H. apply Z.eqb_eq in H.
    replace (sel <? total - 1)%Z with false
      by (symmetry; apply Z.ltb_ge; lia).
    reflexivity.
  - destruct (sel <? total - 1)%Z eqn:E; [intros; lia | intros _].
    apply Z.ltb_ge in E. apply Z.eqb_eq. lia.
  - intros H. apply Z.eqb_neq in H.
    replace (sel <? total - 1)%Z with true
      by (symmetry; apply Z.ltb_lt; lia).
    replace (0 <? sel + 1)%Z with true by (symmetry; apply Z.ltb_lt; lia).
    lia.
  - intros H. apply Z.eqb_neq in H.
    replace (0 <? sel)%Z with true by (symmetry; apply Z.ltb_lt; lia).
    replace (sel - 1 <? total - 1)%Z with true
      by (symmetry; apply Z.ltb_lt; lia).
    lia.
  - intros direction Hp Hn.
    apply String.eqb_neq in Hp. apply String.eqb_neq in Hn.
    unfold PoseDataViewer.handleFrameChange. now rewrite Hp, Hn.
Qed.

Lemma frame_buttons_witness :
  (0 <= 1 < 3)%Z /\
  (false = true <->
     PoseDataViewer.handleFrameChange 3 "prev" 1 = 1%Z) /\
  (false = true <->
     PoseDataViewer.handleFrameChange 3 "next" 1 = 1%Z) /\
  (false = false ->
     PoseDataViewer.handleFrameChange 3 "prev"
       (PoseDataViewer.handleFrameChange 3 "next" 1) = 1%Z) /\
  (false = false ->
     PoseDataViewer.handleFrameChange 3 "next"
       (PoseDataViewer.handleFrameChange 3 "prev" 1) = 1%Z) /\
  (forall direction, direction <> "prev"%string -> direction <> "next"%string ->
     PoseDataViewer.handleFrameChange 3 direction 1 = 1%Z).
Proof.
  apply (frame_buttons [Inputs.frame0; Inputs.frame1; Inputs.frame2] 1
           {| PoseDataViewer.frameNumber := 2;
              PoseDataViewer.totalFrames := 3;
              PoseDataViewer.time := 0.5;
              PoseDataViewer.prevDisabled := false;
              PoseDataViewer.nextDisabled := false;
              PoseDataViewer.poseDetected := false;
              PoseDataViewer.landmarkCount := None |}).
  reflexivity.
Defined.

(** X13.  The slider can only select a frame of the timeline:
    [handleFrameJump] keeps an index that is one, and otherwise takes
    the first or the last frame, whichever is nearer. *)
Theorem handleFrameJump_clamps :
  forall totalFrames frameIndex : Z,
    (0 < totalFrames)%Z ->
    let selected := PoseDataViewer.handleFrameJump totalFrames frameIndex in
    (0 <= selected < totalFrames)%Z /\
    ((0 <= frameIndex < totalFrames)%Z -> selected = frameIndex) /\
    ((frameIndex < 0)%Z -> selected = 0%Z) /\
    ((totalFrames <= frameIndex)%Z -> selected = (totalFrames - 1)%Z) /\
    PoseDataViewer.handleFrameJump totalFrames selected = selected.
Proof.
  intros total frameIndex H. cbn zeta. unfold PoseDataViewer.handleFrameJump.
  repeat split; lia.
Qed.

Lemma handleFrameJump_clamps_witness :
  (0 <= PoseDataViewer.handleFrameJump 3 7 < 3)%Z /\
  ((0 <= 7 < 3)%Z -> PoseDataViewer.handleFrameJump 3 7 = 7%Z) /\
  ((7 < 0)%Z -> PoseDataViewer.handleFrameJump 3 7 = 0%Z) /\
  ((3 <= 7)%Z -> PoseDataViewer.handleFrameJump 3 7 = (3 - 1)%Z) /\
  PoseDataViewer.handleFrameJump 3 (PoseDataViewer.handleFrameJump 3 7)
    = PoseDataViewer.handleFrameJump 3 7.
Proof.
  apply (handleFrameJump_clamps 3 7). lia.
Defined.

(** ** Grades *)

Section Grades.

Import GameEnding.

Lemma ge_true (x y : number) : x >= y -> ge x y = true.
Proof. intros H; unfold ge; destruct (Rge_dec x y); [reflexivity | lra]. Qed.

Lemma ge_false (x y : number) : x < y -> ge x y = false.
Proof. intros H; unfold ge; destruct (Rge_dec x y); [lra | reflexivity]. Qed.

Lemma grade_of_rank (score : number) :
  (getScoreGrade score, getScoreMessage score)
  = nth (gradeRank (getScoreGrade score)) brackets ("D", "KEEP PRACTICING! 💃")%string /\
  (gradeRank (getScoreGrade score) = 0%nat <-> 2000 <= score) /\
  (gradeRank (getScoreGrade score) = 1%nat <-> 1500 <= score < 2000) /\
  (gradeRank (getScoreGrade score) = 2%nat <-> 1000 <= score < 1500) /\
  (gradeRank (getScoreGrade score) = 3%nat <-> 500 <= score < 1000) /\
  (gradeRank (getScoreGrade score) = 4%nat <-> 100 <= score < 500) /\
  (gradeRank (getScoreGrade score) = 5%nat <-> score < 100).
Proof.
  unfold getScoreGrade, getScoreMessage, ge.
  destruct (Rge_dec score 2000);
    [cbn; repeat split; intros; try lra; try lia; try discriminate |].
  destruct (Rge_dec score 1500);
    [cbn; repeat split; intros; try lra; try lia; try discriminate |].
  destruct (Rge_dec score 1000);
    [cbn; repeat split; intros; try lra; try lia; try discriminate |].
  destruct (Rge_dec score 500);
    [cbn; repeat split; intros; try lra; try lia; try discriminate |].
  destruct (Rge_dec score 100);
    cbn; repeat split; intros; try lra; try lia; try discriminate.
Qed.

End Grades.

(** X14.  The grade and the message shown for a final score always come
    from the same bracket ("S+" with "INCREDIBLE!" from 2000, "S" from
    1500, "A" from 1000, "B" from 500, "C" from 100, "D" below), and a
    higher score never gets a lower grade. *)
Theorem grade_and_message_agree :
  forall score : number,
    In (GameEnding.getScoreGrade score, GameEnding.getScoreMessage score)
       GameEnding.brackets /\
    (GameEnding.getScoreGrade score = "S+"%string <-> 2000 <= score) /\
    (GameEnding.getScoreGrade score = "D"%string <-> score < 100) /\
    (forall better : number, score <= better ->
       (GameEnding.gradeRank (GameEnding.getScoreGrade better)
          <= GameEnding.gradeRank (GameEnding.getScoreGrade score))%nat).
Proof.
  intros score.
  destruct (grade_of_rank score) as (Hpair & H0 & H1 & H2 & H3 & H4 & H5).
  assert (Hrank : (GameEnding.gradeRank (GameEnding.getScoreGrade score) <= 5)%nat).
  { unfold GameEnding.getScoreGrade.
    repeat (match goal with |- context [if ?b then _ else _] => destruct b end);
      cbn; lia. }
  split; [| split; [| split]].
  - rewrite Hpair. apply nth_In. cbn. lia.
  - rewrite <- H0. unfold GameEnding.getScoreGrade.
    repeat (match goal with |- context [if ?b then _ else _] => destruct b end);
      cbn; split; intros; try reflexivity; try discriminate; try lia.
  - rewrite <- H5. unfold GameEnding.getScoreGrade.
    repeat (match goal with |- context [if ?b then _ else _] => destruct b end);
      cbn; split; intros; try reflexivity; try discriminate; try lia.
  - intros better Hle.
    destruct (grade_of_rank better) as (_ & B0 & B1 & B2 & B3 & B4 & B5).
    set (rs := GameEnding.gradeRank (GameEnding.getScoreGrade score)) in *.
    set (rb := GameEnding.gradeRank (GameEnding.getScoreGrade better)) in *.
    assert (Hcases : rs = 0%nat \/ rs = 1%nat \/ rs = 2%nat \/ rs = 3%nat
                     \/ rs = 4%nat \/ rs = 5%nat) by lia.
    destruct (Nat.le_gt_cases rb rs) as [Hok | Hgt]; [exact Hok | exfalso].
    assert (Hb : rb = 1%nat \/ rb = 2%nat \/ rb = 3%nat \/ rb = 4%nat
                 \/ rb = 5%nat \/ (6 <= rb)%nat) by lia.
    assert (Hrb : (rb <= 5)%nat).
    { subst rb. unfold GameEnding.getScoreGrade.
      repeat (match goal with |- context [if ?b then _ else _] => destruct b end);
        cbn; lia. }
    destruct Hcases as [E | [E | [E | [E | [E | E]]]]];
      destruct Hb as [F | [F | [F | [F | [F | F]]]]]; try lia;
      try (apply H0 in E); try (apply H1 in E); try (apply H2 in E);
      try (apply H3 in E); try (apply H4 in E); try (apply H5 in E);
      try (apply B1 in F); try (apply B2 in F); try (apply B3 in F);
      try (apply B4 in F); try (apply B5 in F); lra.
Qed.

(** ** The coach: suggestions, tips, trend *)

Section Coach.

Import AIChatCoach.

Lemma suggestions_cases (similarity : number)
  (pose : option PoseDiffVisualizer.Pose) :
  (70 <= similarity /\
   map joint (generateImprovementSuggestions similarity pose) = []) \/
  (60 <= similarity < 70 /\
   map joint (generateImprovementSuggestions similarity pose) = ["arms"%string]) \/
  (50 <= similarity < 60 /\
   map joint (generateImprovementSuggestions similarity pose)
   = ["arms"; "legs"]%string) \/
  (similarity < 50 /\
   map joint (generateImprovementSuggestions similarity pose)
   = ["arms"; "legs"; "torso"]%string).
Proof.
  unfold generateImprovementSuggestions, lt.
  destruct (Rlt_dec similarity 70), (Rlt_dec similarity 60),
           (Rlt_dec similarity 50); cbn;
    first [ exfalso; lra
          | left; split; [lra | reflexivity]
          | right; left; split; [lra | reflexivity]
          | right; right; left; split; [lra | reflexivity]
          | right; right; right; split; [lra | reflexivity] ].
Qed.

Lemma analyzePosePerformanceOf_number (similarity : number)
  (pose : option PoseDiffVisualizer.Pose) :
  analyzePosePerformanceOf (aNumber similarity) pose
  = analyzePosePerformance similarity pose.
Proof. reflexivity. Qed.

Lemma sum_from (xs : list HistoryEntry) (a : number) :
  fold_left (fun sum p => sum + similarityOr0 p) xs a
  = a + fold_left (fun sum p => sum + similarityOr0 p) xs 0.
Proof.
  revert a. induction xs as [| x xs IH]; intros a; cbn [fold_left]; [lra |].
  rewrite IH, (IH (0 + similarityOr0 x)). lra.
Qed.

Lemma sum_bounds (lo hi : number) (xs : list HistoryEntry) :
  Forall (fun p => lo <= similarityOr0 p <= hi) xs ->
  lo * INR (List.length xs)
    <= fold_left (fun sum p => sum + similarityOr0 p) xs 0
    <= hi * INR (List.length xs).
Proof.
  induction 1 as [| x xs Hx _ IH].
  - cbn. lra.
  - cbn [fold_left]. rewrite sum_from. cbn [List.length]. rewrite S_INR. lra.
Qed.

Lemma averageOf_bounds (lo hi : number) (xs : list HistoryEntry) :
  xs <> [] ->
  Forall (fun p => lo <= similarityOr0 p <= hi) xs ->
  lo <= averageOf xs <= hi.
Proof.
  intros Hne Hall. unfold averageOf.
  pose proof (sum_bounds lo hi xs Hall) as Hsum.
  set (total := fold_left (fun sum p => sum + similarityOr0 p) xs 0) in *.
  assert (Hn : 0 < INR (List.length xs)).
  { apply lt_0_INR. destruct xs; [contradiction | cbn; lia]. }
  set (n := INR (List.length xs)) in *.
  assert (Hinv : 0 < / n) by now apply Rinv_0_lt_compat.
  assert (Hone : n * / n = 1) by (apply Rinv_r; lra).
  unfold Rdiv. split.
  - replace lo with (lo * n * / n) by (rewrite Rmult_assoc, Hone; lra).
    apply Rmult_le_compat_r; lra.
  - replace hi with (hi * n * / n) by (rewrite Rmult_assoc, Hone; lra).
    apply Rmult_le_compat_r; lra.
Qed.

Lemma in_firstn {A : Type} (n : nat) (l : list A) (a : A) :
  In a (firstn n l) -> In a l.
Proof.
  intros H. rewrite <- (firstn_skipn n l). apply in_or_app. now left.
Qed.

Lemma in_skipn {A : Type} (n : nat) (l : list A) (a : A) :
  In a (skipn n l) -> In a l.
Proof.
  intros H. rewrite <- (firstn_skipn n l). apply in_or_app. now right.
Qed.

Lemma sliceLast_length {A : Type} (n : nat) (l : list A) :
  List.length (sliceLast n l) = Nat.min n (List.length l).
Proof. unfold sliceLast. rewrite length_skipn. lia. Qed.

Lemma sliceBetween_length {A : Type} (from to : nat) (l : list A) :
  (to <= from)%nat ->
  List.length (sliceBetween from to l)
  = (Nat.min from (List.length l) - Nat.min to (List.length l))%nat.
Proof.
  intros H. unfold sliceBetween. rewrite length_firstn, length_skipn. lia.
Qed.

Lemma sliceLast_app {A : Type} (n : nat) (old l : list A) :
  (n <= List.length l)%nat -> sliceLast n (old ++ l) = sliceLast n l.
Proof.
  intros H. unfold sliceLast. rewrite length_app, skipn_app.
  replace (List.length old + List.length l - n - List.length old)%nat
    with (List.length l - n)%nat by lia.
  rewrite skipn_all2 by lia. reflexivity.
Qed.

Lemma sliceBetween_app {A : Type} (from to : nat) (old l : list A) :
  (to <= from)%nat -> (from <= List.length l)%nat ->
  sliceBetween from to (old ++ l) = sliceBetween from to l.
Proof.
  intros Hto H. unfold sliceBetween. rewrite length_app, skipn_app.
  replace (List.length old + List.length l - from - List.length old)%nat
    with (List.length l - from)%nat by lia.
  rewrite skipn_all2 by lia. cbn [app]. f_equal. lia.
Qed.

End Coach.

(** X15.  The improvement suggestions come in the fixed order arms, legs,
    torso and are nested: none from a similarity of 70, the arms below
    70, the legs as well below 60, the torso as well below 50. *)
Theorem suggestions_by_similarity :
  forall (similarity : number) (pose : option PoseDiffVisualizer.Pose),
    let joints :=
      map AIChatCoach.joint
        (AIChatCoach.generateImprovementSuggestions similarity pose) in
    (joints = [] <-> 70 <= similarity) /\
    (joints = ["arms"]%string <-> 60 <= similarity < 70) /\
    (joints = ["arms"; "legs"]%string <-> 50 <= similarity < 60) /\
    (joints = ["arms"; "legs"; "torso"]%string <-> similarity < 50) /\
    (forall higher, similarity <= higher ->
       (List.length (AIChatCoach.generateImprovementSuggestions higher pose)
          <= List.length
               (AIChatCoach.generateImprovementSuggestions similarity pose))%nat).
Proof.
  intros similarity pose. cbn zeta.
  destruct (suggestions_cases similarity pose)
    as [[H E] | [[H E] | [[H E] | [H E]]]]; rewrite E;
    (repeat split; try (intros; lra); try discriminate; try reflexivity);
    intros higher Hle;
    rewrite <- (length_map AIChatCoach.joint), <- (length_map AIChatCoach.joint _),
      E;
    destruct (suggestions_cases higher pose)
      as [[H' E'] | [[H' E'] | [[H' E'] | [H' E']]]]; rewrite E';
    cbn; try lia; lra.
Qed.

(** X16.  The coach dispatches nothing without a pose, for a similarity
    that is [null], or while the game is not active.  For a pose, an
    active game and a similarity that is a number it dispatches one
    message, the same text as the current tip, and then one action per
    suggestion: a message of type "success" (from 75) never comes with a
    suggestion; one of type "warning" (below 60) always comes with the
    suggestions for the arms and for the legs.  A similarity that is
    left out passes the guard, which refuses [null] only: the coach then
    dispatches a message of type "warning", the same text as the tip,
    and no suggestion. *)
Theorem coach_dispatches :
  forall (currentPose : option PoseDiffVisualizer.Pose)
         (similarity : AIChatCoach.SimilarityProp) (gameActive : bool),
    let actions :=
      AIChatCoach.analysisEffect currentPose similarity gameActive in
    (currentPose = None \/ similarity = AIChatCoach.isNull
     \/ gameActive = false ->
     actions = []) /\
    (forall pose s,
       currentPose = Some pose -> similarity = AIChatCoach.aNumber s ->
       gameActive = true ->
       exists tip type,
         actions
         = [AIChatCoach.addMessage tip type; AIChatCoach.updateCurrentTip tip]
           ++ map AIChatCoach.addImprovementSuggestion
                (AIChatCoach.generateImprovementSuggestions s currentPose) /\
         (type = "success"%string <-> 75 <= s) /\
         (type = "tip"%string <-> 60 <= s < 75) /\
         (type = "warning"%string <-> s < 60) /\
         (type = "success"%string ->
          AIChatCoach.generateImprovementSuggestions s currentPose = []) /\
         (type = "warning"%string ->
          exists rest,
            map AIChatCoach.joint
              (AIChatCoach.generateImprovementSuggestions s currentPose)
            = ("arms" :: "legs" :: rest)%string)) /\
    (forall pose,
       currentPose = Some pose -> similarity = AIChatCoach.omitted ->
       gameActive = true ->
       exists tip,
         actions
         = [AIChatCoach.addMessage tip "warning";
            AIChatCoach.updateCurrentTip tip]).
Proof.
  intros currentPose similarity gameActive. cbn zeta. split; [| split].
  - intros [-> | [-> | ->]]; [reflexivity | |].
    + now destruct currentPose.
    + unfold AIChatCoach.analysisEffect.
      now destruct currentPose, similarity.
  - intros pose s -> -> ->. cbn [AIChatCoach.analysisEffect].
    rewrite analyzePosePerformanceOf_number.
    unfold AIChatCoach.analyzePosePerformance.
    pose proof (suggestions_cases s (Some pose)) as Hs.
    assert (Hnil : 70 <= s ->
              AIChatCoach.generateImprovementSuggestions s (Some pose) = []).
    { intros H70. destruct Hs as [[_ E] | [[H _] | [[H _] | [H _]]]];
        try lra.
      now apply map_eq_nil in E. }
    unfold ge.
    destruct (Rge_dec s 90);
      [do 2 eexists; split; [reflexivity |];
       repeat split; try (intros; lra); try discriminate; try reflexivity;
       intros; apply Hnil; lra |].
    destruct (Rge_dec s 75);
      [do 2 eexists; split; [reflexivity |];
       repeat split; try (intros; lra); try discriminate; try reflexivity;
       intros; apply Hnil; lra |].
    destruct (Rge_dec s 60);
      [do 2 eexists; split; [reflexivity |];
       repeat split; try (intros; lra); try discriminate; try reflexivity |].
    assert (Hboth : exists rest,
              map AIChatCoach.joint
                (AIChatCoach.generateImprovementSuggestions s (Some pose))
              = ("arms" :: "legs" :: rest)%string).
    { destruct Hs as [[H _] | [[H _] | [[_ E] | [_ E]]]]; try lra;
        rewrite E; eexists; reflexivity. }
    destruct (Rge_dec s 40);
      do 2 eexists; (split; [reflexivity |]);
      repeat split; try (intros; lra); try discriminate; try reflexivity;
      intros _; exact Hboth.
  - intros pose -> -> ->. eexists. reflexivity.
Qed.

Lemma coach_dispatches_witness :
  (exists tip type,
     AIChatCoach.analysisEffect (Some Inputs.allSeen) (AIChatCoach.aNumber 80)
       true
     = [AIChatCoach.addMessage tip type; AIChatCoach.updateCurrentTip tip]
       ++ map AIChatCoach.addImprovementSuggestion
            (AIChatCoach.generateImprovementSuggestions 80
               (Some Inputs.allSeen)) /\
     (type = "success"%string <-> 75 <= 80)) /\
  (exists tip,
     AIChatCoach.analysisEffect (Some Inputs.allSeen) AIChatCoach.omitted true
     = [AIChatCoach.addMessage tip "warning";
        AIChatCoach.updateCurrentTip tip]).
Proof.
  split.
  - destruct (proj1 (proj2 (coach_dispatches (Some Inputs.allSeen)
                              (AIChatCoach.aNumber 80) true))
                Inputs.allSeen 80 eq_refl eq_refl eq_refl)
      as (tip & type & H1 & H2 & _).
    exists tip, type. split; assumption.
  - exact (proj2 (proj2 (coach_dispatches (Some Inputs.allSeen)
                           AIChatCoach.omitted true))
             Inputs.allSeen eq_refl eq_refl eq_refl).
Defined.

(** X17.  The trend is "neutral" exactly for a history of at most ten
    entries.  It depends on the last twenty entries only, and a history
    of more than ten entries that all have the same similarity is
    "stable". *)
Theorem trend_of_history :
  forall poseHistory : list AIChatCoach.HistoryEntry,
    (AIChatCoach.calculateImprovementTrend poseHistory = "neutral"%string
       <-> (List.length poseHistory <= 10)%nat) /\
    In (AIChatCoach.calculateImprovementTrend poseHistory)
       ["neutral"; "improving"; "declining"; "stable"]%string /\
    (forall older, (20 <= List.length poseHistory)%nat ->
       AIChatCoach.calculateImprovementTrend (older ++ poseHistory)
       = AIChatCoach.calculateImprovementTrend poseHistory) /\
    (forall s, (10 < List.length poseHistory)%nat ->
       Forall (fun p => AIChatCoach.similarityOr0 p = s) poseHistory ->
       AIChatCoach.calculateImprovementTrend poseHistory = "stable"%string).
Proof.
  intros h.
  assert (Hrecent : List.length (AIChatCoach.sliceLast 10 h)
                    = Nat.min 10 (List.length h)) by apply sliceLast_length.
  assert (Holder : List.length (AIChatCoach.sliceBetween 20 10 h)
                   = (Nat.min 20 (List.length h) - Nat.min 10 (List.length h))%nat)
    by (apply sliceBetween_length; lia).
  split; [| split; [| split]].
  - unfold AIChatCoach.calculateImprovementTrend. cbv zeta.
    rewrite Hrecent, Holder.
    destruct (Nat.le_gt_cases (List.length h) 10) as [Hle | Hgt].
    + replace (Nat.min 20 (List.length h) - Nat.min 10 (List.length h))%nat
        with 0%nat by lia.
      rewrite Nat.eqb_refl, orb_true_r. tauto.
    + replace (Nat.min 10 (List.length h) =? 0)%nat with false
        by (symmetry; apply Nat.eqb_neq; lia).
      replace (Nat.min 20 (List.length h) - Nat.min 10 (List.length h) =? 0)%nat
        with false by (symmetry; apply Nat.eqb_neq; lia).
      cbn [orb].
      destruct (gt _ _); [split; [discriminate | lia] |].
      destruct (lt _ _); split; try discriminate; lia.
  - unfold AIChatCoach.calculateImprovementTrend. cbv zeta.
    destruct (_ || _); [now left |].
    destruct (gt _ _); [right; now left |].
    destruct (lt _ _); [right; right; now left | right; right; right; now left].
  - intros older H20. unfold AIChatCoach.calculateImprovementTrend.
    rewrite sliceLast_app, sliceBetween_app by lia. reflexivity.
  - intros s Hlen Hall.
    unfold AIChatCoach.calculateImprovementTrend. cbv zeta.
    rewrite Hrecent, Holder.
    replace (Nat.min 10 (List.length h) =? 0)%nat with false
      by (symmetry; apply Nat.eqb_neq; lia).
    replace (Nat.min 20 (List.length h) - Nat.min 10 (List.length h) =? 0)%nat
      with false by (symmetry; apply Nat.eqb_neq; lia).
    cbn [orb].
    assert (Hsub : forall xs, (forall p, In p xs -> In p h) -> xs <> [] ->
              AIChatCoach.averageOf xs = s).
    { intros xs Hin Hne.
      assert (Hb : s <= AIChatCoach.averageOf xs <= s); [| lra].
      apply averageOf_bounds; [exact Hne |].
      apply Forall_forall. intros p Hp. rewrite Forall_forall in Hall.
      rewrite (Hall p (Hin p Hp)). lra. }
    rewrite (Hsub (AIChatCoach.sliceLast 10 h)), (Hsub (AIChatCoach.sliceBetween 20 10 h)).
    + rewrite gt_false, lt_false by lra. reflexivity.
    + intros p Hp. unfold AIChatCoach.sliceBetween in Hp.
      apply in_firstn, in_skipn in Hp. exact Hp.
    + intros Hnil. apply (f_equal (@List.length _)) in Hnil.
      rewrite Holder in Hnil. cbn [List.length] in Hnil. lia.
    + intros p Hp. unfold AIChatCoach.sliceLast in Hp.
      apply in_skipn in Hp. exact Hp.
    + intros Hnil. apply (f_equal (@List.length _)) in Hnil.
      rewrite Hrecent in Hnil. cbn [List.length] in Hnil. lia.
Qed.

(** X18.  The average similarity is 0 for an empty history; otherwise it
    lies between any two bounds that hold for every entry, an entry
    without similarity counting as 0. *)
Theorem averageSimilarity_bounds :
  forall (poseHistory : list AIChatCoach.HistoryEntry) (lo hi : number),
    AIChatCoach.averageSimilarity [] = 0 /\
    (poseHistory <> [] ->
     Forall (fun p => lo <= AIChatCoach.similarityOr0 p <= hi) poseHistory ->
     lo <= AIChatCoach.averageSimilarity poseHistory <= hi).
Proof.
  intros h lo hi. split; [reflexivity |].
  intros Hne Hall. unfold AIChatCoach.averageSimilarity.
  destruct h as [| p h]; [contradiction |]. cbn [List.length Nat.ltb Nat.leb].
  now apply averageOf_bounds.
Qed.

Lemma averageSimilarity_bounds_witness :
  0 <= AIChatCoach.averageSimilarity
         [AIChatCoach.mkEntry (Some 80); AIChatCoach.mkEntry None;
          AIChatCoach.mkEntry (Some 100)] <= 100.
Proof.
  apply (proj2 (averageSimilarity_bounds
                  [AIChatCoach.mkEntry (Some 80); AIChatCoach.mkEntry None;
                   AIChatCoach.mkEntry (Some 100)] 0 100)).
  - discriminate.
  - repeat constructor; cbn; lra.
Defined.

(** ** The scorer with refs between its events *)

Section ScorerInvariants.

Import RealtimeScorer ScorerFacts.

Lemma mount_consistent (started poseData : bool) :
  consistent (mount started poseData).
Proof.
  unfold consistent. destruct started; cbn; repeat split; intros; try lia;
    reflexivity.
Qed.

Lemma step_consistent (s s' : State) (e : Event) :
  consistent s -> step s e = Some s' -> consistent s'.
Proof.
  unfold consistent.
  intros (Htimer & Hiref & Hsref & Htotal & Hzero & Hacc) Hstep.
  destruct e as [started poseData changed | | p | |]; cbn [step] in Hstep.
  - injection Hstep as <-. unfold render, intervalEffect, clearIfSet.
    cbn [refs intervalRef updateRefs withProps isGameStarted].
    destruct (negb (Bool.eqb started (isGameStarted s)) || changed) eqn:Edeps.
    + destruct started, (intervalRef (refs s)) eqn:Ei; cbn; rewrite ?Ei; cbn;
        repeat split; intros; try lia; try reflexivity; try assumption;
        try (now apply Hzero); try (now apply Hacc); congruence.
    + apply orb_false_elim in Edeps. destruct Edeps as [Edeps _].
      apply negb_false_iff, Bool.eqb_prop in Edeps. subst started.
      cbn. repeat split; intros; try assumption;
        try (now apply Hzero); now apply Hacc.
  - destruct (timerRunning s) eqn:Et; [| discriminate]. injection Hstep as <-.
    unfold sendPoseForScoring_call.
    destruct (negb (isGameStartedRef (refs s)) || negb (poseDataRef (refs s)));
      cbn; repeat split; intros; try assumption; try congruence;
      try (now apply Hzero); now apply Hacc.
  - destruct (0 <? inFlight s)%nat; [| discriminate]. injection Hstep as <-.
    unfold sendPoseForScoring_resume, answered.
    cbn [scores refs totalScoreRef totalScore accuracy frameCount
         timerRunning isGameStarted intervalRef isGameStartedRef].
    replace (0 <? frameCount (scores s) + 1)%nat with true
      by (symmetry; apply Nat.ltb_lt; lia).
    repeat split; intros; try assumption; try reflexivity; lia.
  - destruct (0 <? inFlight s)%nat; [| discriminate]. injection Hstep as <-.
    cbn. repeat split; intros; try assumption;
      try (now apply Hzero); now apply Hacc.
  - destruct (0 <? hideTimers s)%nat; [| discriminate]. injection Hstep as <-.
    cbn. repeat split; intros; try assumption;
      try (now apply Hzero); now apply Hacc.
Qed.

Lemma run_consistent (events : list Event) :
  forall s s', consistent s -> run s events = Some s' -> consistent s'.
Proof.
  induction events as [| e events IH]; intros s s' Hs Hrun.
  - now injection Hrun as <-.
  - cbn [run] in Hrun. destruct (step s e) as [s1 |] eqn:Hstep; [| discriminate].
    apply (IH s1 s'); [| exact Hrun]. exact (step_consistent s s1 e Hs Hstep).
Qed.

Lemma step_requests (s s' : State) (e : Event) :
  step s e = Some s' ->
  (requests s' + inFlight s = requests s + inFlight s' + settled [e])%nat /\
  (requests s' <= requests s + ticks [e])%nat /\
  (withoutPose e = true -> poseDataRef (refs s) = false ->
   poseDataRef (refs s') = false /\ requests s' = requests s).
Proof.
  intros Hstep.
  destruct e as [started poseData changed | | p | |]; cbn [step] in Hstep;
    cbn [settled ticks withoutPose].
  - injection Hstep as <-. unfold render, intervalEffect, clearIfSet.
    cbn [refs intervalRef updateRefs withProps].
    destruct (negb (Bool.eqb started (isGameStarted s)) || changed);
      [destruct started, (intervalRef (refs s)) eqn:Ei |];
      cbn; rewrite ?Ei; cbn;
      (split; [lia | split; [lia |]]);
      intros Hw _; apply negb_true_iff in Hw; subst poseData;
      split; reflexivity.
  - destruct (timerRunning s); [| discriminate]. injection Hstep as <-.
    unfold sendPoseForScoring_call.
    destruct (isGameStartedRef (refs s)), (poseDataRef (refs s)) eqn:Ep;
      cbn; (split; [lia | split; [lia |]]);
      intros _ Hr; first [discriminate | split; [assumption | reflexivity]].
  - destruct (0 <? inFlight s)%nat eqn:E; [| discriminate].
    apply Nat.ltb_lt in E. injection Hstep as <-.
    cbn. split; [lia | split; [lia |]].
    intros _ Hr; split; [assumption | reflexivity].
  - destruct (0 <? inFlight s)%nat eqn:E; [| discriminate].
    apply Nat.ltb_lt in E. injection Hstep as <-.
    cbn. split; [lia | split; [lia |]].
    intros _ Hr; split; [assumption | reflexivity].
  - destruct (0 <? hideTimers s)%nat; [| discriminate]. injection Hstep as <-.
    cbn. split; [lia | split; [lia |]].
    intros _ Hr; split; [assumption | reflexivity].
Qed.

Lemma run_requests (events : list Event) :
  forall s s',
    run s events = Some s' ->
    (requests s' + inFlight s = requests s + inFlight s' + settled events)%nat /\
    (requests s' <= requests s + ticks events)%nat /\
    (forallb withoutPose events = true -> poseDataRef (refs s) = false ->
     requests s' = requests s).
Proof.
  induction events as [| e events IH]; intros s s' Hrun.
  - injection Hrun as <-. cbn. repeat split; lia.
  - cbn [run] in Hrun. destruct (step s e) as [s1 |] eqn:Hstep; [| discriminate].
    destruct (step_requests s s1 e Hstep) as (H1 & H2 & H3).
    destruct (IH s1 s' Hrun) as (I1 & I2 & I3).
    assert (Hs : settled (e :: events) = (settled [e] + settled events)%nat)
      by (destruct e; reflexivity).
    assert (Ht : ticks (e :: events) = (ticks [e] + ticks events)%nat)
      by (destruct e; reflexivity).
    rewrite Hs, Ht. repeat split; try lia.
    cbn [forallb]. intros Hall Hp. apply andb_prop in Hall.
    destruct Hall as [He Hes]. destruct (H3 He Hp) as [Hp1 Hr1].
    rewrite (I3 Hes Hp1). exact Hr1.
Qed.

Lemma step_bounded (s s' : State) (e : Event) :
  Forall (fun p => 0 <= p <= 100) (pointsEarned [e]) ->
  totalScoreRef (refs s) = totalScore (scores s) ->
  0 <= totalScore (scores s) <= 100 * INR (frameCount (scores s)) ->
  0 <= accuracy (scores s) <= 100 ->
  step s e = Some s' ->
  totalScoreRef (refs s') = totalScore (scores s') /\
  0 <= totalScore (scores s') <= 100 * INR (frameCount (scores s')) /\
  0 <= accuracy (scores s') <= 100.
Proof.
  intros Hp Href Htotal Hacc Hstep.
  destruct e as [started poseData changed | | p | |]; cbn [step] in Hstep.
  - injection Hstep as <-. unfold render, intervalEffect.
    destruct (negb (Bool.eqb started (isGameStarted s)) || changed);
      [destruct started |]; cbn;
      rewrite ?clearIfSet_scores, ?clearIfSet_refs; cbn;
      repeat split; try assumption; try lra; tauto.
  - destruct (timerRunning s); [| discriminate]. injection Hstep as <-.
    unfold sendPoseForScoring_call.
    destruct (negb (isGameStartedRef (refs s)) || negb (poseDataRef (refs s)));
      cbn; repeat split; try assumption; tauto.
  - destruct (0 <? inFlight s)%nat; [| discriminate]. injection Hstep as <-.
    cbn [pointsEarned] in Hp. inversion Hp as [| ? ? Hp0 _]; subst.
    unfold sendPoseForScoring_resume, answered.
    cbn [scores refs totalScoreRef totalScore accuracy frameCount].
    rewrite Href.
    replace (0 <? frameCount (scores s) + 1)%nat with true
      by (symmetry; apply Nat.ltb_lt; lia).
    rewrite plus_INR. cbn [INR].
    set (n := INR (frameCount (scores s))) in *.
    assert (Hn : 0 <= n) by apply pos_INR.
    assert (Hbounds : 0 <= totalScore (scores s) + p <= 100 * (n + 1)) by lra.
    split; [reflexivity |]. split; [exact Hbounds |].
    assert (Hq : 0 <= (totalScore (scores s) + p) / (n + 1) <= 100).
    { assert (Hinv : 0 < / (n + 1)) by (apply Rinv_0_lt_compat; lra).
      assert (Hone : (n + 1) * / (n + 1) = 1) by (apply Rinv_r; lra).
      unfold Rdiv. split.
      - apply Rmult_le_pos; lra.
      - replace 100 with (100 * (n + 1) * / (n + 1))
          by (rewrite Rmult_assoc, Hone; lra).
        apply Rmult_le_compat_r; lra. }
    pose proof (Math_round_mono _ _ (proj1 Hq)) as H0.
    pose proof (Math_round_mono _ _ (proj2 Hq)) as H100.
    rewrite (Math_round_IZR 0) in H0. rewrite (Math_round_IZR 100) in H100.
    split; assumption.
  - destruct (0 <? inFlight s)%nat; [| discriminate]. injection Hstep as <-.
    cbn. repeat split; try assumption; tauto.
  - destruct (0 <? hideTimers s)%nat; [| discriminate]. injection Hstep as <-.
    cbn. repeat split; try assumption; tauto.
Qed.

Lemma run_bounded (events : list Event) :
  forall s s',
    Forall (fun p => 0 <= p <= 100) (pointsEarned events) ->
    totalScoreRef (refs s) = totalScore (scores s) ->
    0 <= totalScore (scores s) <= 100 * INR (frameCount (scores s)) ->
    0 <= accuracy (scores s) <= 100 ->
    run s events = Some s' ->
    0 <= totalScore (scores s') <= 100 * INR (frameCount (scores s')) /\
    0 <= accuracy (scores s') <= 100.
Proof.
  induction events as [| e events IH]; intros s s' Hp Href Htotal Hacc Hrun.
  - injection Hrun as <-. split; assumption.
  - cbn [run] in Hrun. destruct (step s e) as [s1 |] eqn:Hstep; [| discriminate].
    assert (Hsplit : pointsEarned (e :: events)
                     = pointsEarned [e] ++ pointsEarned events)
      by (destruct e; reflexivity).
    rewrite Hsplit in Hp. apply Forall_app in Hp. destruct Hp as [Hp1 Hp2].
    destruct (step_bounded s s1 e Hp1 Href Htotal Hacc Hstep) as (H1 & H2 & H3).
    exact (IH s1 s' Hp2 H1 H2 H3 Hrun).
Qed.

End ScorerInvariants.

(** X19.  Between any two events of a mounted scorer, the interval runs
    exactly while the game is started, the ref of the total holds the
    total shown, and the accuracy shown is the rounded mean of the
    points per counted frame (and 0, like the total, while no frame is
    counted). *)
Theorem scorer_consistent :
  forall (started poseData : bool) (events : list RealtimeScorer.Event)
         (s : RealtimeScorer.State),
    RealtimeScorer.run (RealtimeScorer.mount started poseData) events = Some s ->
    RealtimeScorer.timerRunning s = RealtimeScorer.isGameStarted s /\
    RealtimeScorer.totalScoreRef (RealtimeScorer.refs s)
      = RealtimeScorer.totalScore (RealtimeScorer.scores s) /\
    (RealtimeScorer.frameCount (RealtimeScorer.scores s) = 0%nat ->
     RealtimeScorer.totalScore (RealtimeScorer.scores s) = 0 /\
     RealtimeScorer.accuracy (RealtimeScorer.scores s) = 0) /\
    ((0 < RealtimeScorer.frameCount (RealtimeScorer.scores s))%nat ->
     RealtimeScorer.accuracy (RealtimeScorer.scores s)
     = Math_round
         (RealtimeScorer.totalScore (RealtimeScorer.scores s)
          / INR (RealtimeScorer.frameCount (RealtimeScorer.scores s)))).
Proof.
  intros started poseData events s Hrun.
  destruct (run_consistent events _ s (mount_consistent started poseData) Hrun)
    as (H1 & _ & _ & H4 & H5 & H6).
  repeat split; try assumption; now apply H5.
Qed.

Lemma scorer_consistent_witness :
  exists s,
    RealtimeScorer.run (RealtimeScorer.mount true true)
      [RealtimeScorer.Tick; RealtimeScorer.Response 10;
       RealtimeScorer.Render false true false] = Some s /\
    RealtimeScorer.timerRunning s = RealtimeScorer.isGameStarted s.
Proof.
  eexists. split; [reflexivity |].
  apply (scorer_consistent true true
           [RealtimeScorer.Tick; RealtimeScorer.Response 10;
            RealtimeScorer.Render false true false]).
  reflexivity.
Defined.

(** X20.  When every answer earns between 0 and 100 points, the total
    never exceeds 100 points per counted frame and the accuracy shown
    stays between 0 and 100, through any starts, stops and late
    answers. *)
Theorem scorer_accuracy_is_percentage :
  forall (started poseData : bool) (events : list RealtimeScorer.Event)
         (s : RealtimeScorer.State),
    Forall (fun p => 0 <= p <= 100) (RealtimeScorer.pointsEarned events) ->
    RealtimeScorer.run (RealtimeScorer.mount started poseData) events = Some s ->
    0 <= RealtimeScorer.totalScore (RealtimeScorer.scores s)
      <= 100 * INR (RealtimeScorer.frameCount (RealtimeScorer.scores s)) /\
    0 <= RealtimeScorer.accuracy (RealtimeScorer.scores s) <= 100.
Proof.
  intros started poseData events s Hp Hrun.
  apply (run_bounded events (RealtimeScorer.mount started poseData) s Hp).
  - destruct started; reflexivity.
  - destruct started; cbn; lra.
  - destruct started; cbn; lra.
  - exact Hrun.
Qed.

Lemma scorer_accuracy_is_percentage_witness :
  exists s,
    RealtimeScorer.run (RealtimeScorer.mount true true)
      [RealtimeScorer.Tick; RealtimeScorer.Response 10;
       RealtimeScorer.Tick; RealtimeScorer.Response 100] = Some s /\
    0 <= RealtimeScorer.totalScore (RealtimeScorer.scores s)
      <= 100 * INR (RealtimeScorer.frameCount (RealtimeScorer.scores s)) /\
    0 <= RealtimeScorer.accuracy (RealtimeScorer.scores s) <= 100.
Proof.
  eexists. split; [reflexivity |].
  apply (scorer_accuracy_is_percentage true true
           [RealtimeScorer.Tick; RealtimeScorer.Response 10;
            RealtimeScorer.Tick; RealtimeScorer.Response 100]).
  - repeat constructor; lra.
  - reflexivity.
Defined.

(** X21.  Every request the scorer issued is either still awaited or has
    come back, answered or failed; it issues at most one request per tick
    of the interval, and none at all as long as no render hands it a
    pose. *)
Theorem scorer_requests :
  forall (started poseData : bool) (events : list RealtimeScorer.Event)
         (s : RealtimeScorer.State),
    RealtimeScorer.run (RealtimeScorer.mount started poseData) events = Some s ->
    (RealtimeScorer.requests s
     = RealtimeScorer.inFlight s + ScorerFacts.settled events)%nat /\
    (RealtimeScorer.requests s <= ScorerFacts.ticks events)%nat /\
    (poseData = false ->
     forallb ScorerFacts.withoutPose events = true ->
     RealtimeScorer.requests s = 0%nat).
Proof.
  intros started poseData events s Hrun.
  destruct (run_requests events _ s Hrun) as (H1 & H2 & H3).
  assert (Hr : RealtimeScorer.requests (RealtimeScorer.mount started poseData)
               = 0%nat) by (destruct started; reflexivity).
  assert (Hi : RealtimeScorer.inFlight (RealtimeScorer.mount started poseData)
               = 0%nat) by (destruct started; reflexivity).
  rewrite Hr, Hi in *. repeat split; try lia.
  intros -> Hall. apply H3; [exact Hall |]. destruct started; reflexivity.
Qed.

Lemma scorer_requests_witness :
  exists s,
    RealtimeScorer.run (RealtimeScorer.mount true true)
      [RealtimeScorer.Tick; RealtimeScorer.Tick; RealtimeScorer.Failure]
    = Some s /\
    (RealtimeScorer.requests s
     = RealtimeScorer.inFlight s
       + ScorerFacts.settled
           [RealtimeScorer.Tick; RealtimeScorer.Tick; RealtimeScorer.Failure])%nat.
Proof.
  eexists. split; [reflexivity |].
  apply (scorer_requests true true
           [RealtimeScorer.Tick; RealtimeScorer.Tick; RealtimeScorer.Failure]).
  reflexivity.
Defined.

(** ** The scorer with [useCallback] across sessions *)

Section Scorer2Total.

Import RealtimeScorer2 ScorerFacts.

Lemma step2_ref (s s' : State) (e : Event) :
  step s e = Some s' ->
  totalScoreRef s' = totalScoreRef s + RealtimeScorer.sumOf (pointsEarned2 [e]).
Proof.
  intros Hstep. unfold RealtimeScorer.sumOf.
  destruct e as [started pose changed | | k p | k |]; cbn [step] in Hstep;
    cbn [pointsEarned2 fold_right].
  - injection Hstep as <-. cbn. lra.
  - destruct (timerRunning s); [| discriminate]. injection Hstep as <-.
    unfold sendPoseForScoring_call.
    destruct (negb (callbackGameStarted s) || negb (poseData s)); cbn; lra.
  - destruct (nth_error (inFlight s) k); [| discriminate].
    injection Hstep as <-. cbn. lra.
  - destruct (nth_error (inFlight s) k); [| discriminate].
    injection Hstep as <-. cbn. lra.
  - destruct (0 <? hideTimers s)%nat; [| discriminate]. injection Hstep as <-.
    cbn. lra.
Qed.

Lemma run2_ref (events : list Event) :
  forall s s',
    run s events = Some s' ->
    totalScoreRef s' = totalScoreRef s + RealtimeScorer.sumOf (pointsEarned2 events).
Proof.
  induction events as [| e events IH]; intros s s' Hrun.
  - injection Hrun as <-. unfold RealtimeScorer.sumOf. cbn. lra.
  - cbn [run] in Hrun. destruct (step s e) as [s1 |] eqn:Hstep; [| discriminate].
    rewrite (IH s1 s' Hrun), (step2_ref s s1 e Hstep).
    assert (Hsplit : RealtimeScorer.sumOf (pointsEarned2 (e :: events))
                     = RealtimeScorer.sumOf (pointsEarned2 [e])
                       + RealtimeScorer.sumOf (pointsEarned2 events)).
    { unfold RealtimeScorer.sumOf.
      destruct e; cbn [pointsEarned2 fold_right]; lra. }
    rewrite Hsplit. lra.
Qed.

End Scorer2Total.

(** X22.  In the scorer with [useCallback] the stop of the game puts the
    total shown back to 0 but leaves the ref of the total alone: the ref
    holds the sum of all points answered since the mount, whatever was
    started and stopped in between, and every answer shows the ref plus
    its points as the new total. *)
Theorem scorer2_total_since_mount :
  forall (started pose : bool) (events : list RealtimeScorer2.Event)
         (s : RealtimeScorer2.State),
    RealtimeScorer2.run (RealtimeScorer2.mount started pose) events = Some s ->
    RealtimeScorer2.totalScoreRef s
      = RealtimeScorer.sumOf (ScorerFacts.pointsEarned2 events) /\
    (forall pose' changed,
       RealtimeScorer2.isGameStarted s = true ->
       RealtimeScorer2.totalScore
         (RealtimeScorer2.scores (RealtimeScorer2.render false pose' changed s))
       = 0 /\
       RealtimeScorer2.totalScoreRef (RealtimeScorer2.render false pose' changed s)
       = RealtimeScorer2.totalScoreRef s) /\
    (forall request points_earned s',
       RealtimeScorer2.step s (RealtimeScorer2.Response request points_earned)
         = Some s' ->
       RealtimeScorer2.totalScore (RealtimeScorer2.scores s')
       = RealtimeScorer.sumOf (ScorerFacts.pointsEarned2 events) + points_earned).
Proof.
  intros started pose events s Hrun.
  pose proof (run2_ref events _ s Hrun) as Href.
  assert (H0 : RealtimeScorer2.totalScoreRef (RealtimeScorer2.mount started pose)
               = 0) by reflexivity.
  rewrite H0, Rplus_0_l in Href. split; [exact Href |]. split.
  - intros pose' changed Hstarted. unfold RealtimeScorer2.render.
    rewrite Hstarted. cbn. split; reflexivity.
  - intros request p s' Hstep. cbn [RealtimeScorer2.step] in Hstep.
    destruct (nth_error (RealtimeScorer2.inFlight s) request); [| discriminate].
    injection Hstep as <-. cbn. now rewrite Href.
Qed.

Lemma scorer2_total_since_mount_witness :
  exists s,
    RealtimeScorer2.run (RealtimeScorer2.mount true true)
      [RealtimeScorer2.Tick; RealtimeScorer2.Response 0 10;
       RealtimeScorer2.Render false true false;
       RealtimeScorer2.Render true true false] = Some s /\
    RealtimeScorer2.totalScoreRef s
      = RealtimeScorer.sumOf
          (ScorerFacts.pointsEarned2
             [RealtimeScorer2.Tick; RealtimeScorer2.Response 0 10;
              RealtimeScorer2.Render false true false;
              RealtimeScorer2.Render true true false]).
Proof.
  eexists.
  split; [lazy -[IZR INR Math_round Rplus Rdiv gt]; reflexivity |].
  apply (scorer2_total_since_mount true true
           [RealtimeScorer2.Tick; RealtimeScorer2.Response 0 10;
            RealtimeScorer2.Render false true false;
            RealtimeScorer2.Render true true false]).
  lazy -[IZR INR Math_round Rplus Rdiv gt]. reflexivity.
Defined.

(** ** The countdown of the App *)

Section AppCountdown.

Import App.

Lemma sameCountdown_spec (a b : option nat) :
  sameCountdown a b = true <-> a = b.
Proof.
  destruct a as [m |], b as [n |]; cbn; try (split; congruence).
  rewrite Nat.eqb_eq. split; congruence.
Qed.

Lemma commit_timersAgree (started paused : bool) (countdown : option nat)
  (ended : bool) (score : number) (s : State) :
  timersAgree s ->
  (forall n, countdown = Some n -> (n <= 5)%nat) ->
  timersAgree (commit started paused countdown ended score s).
Proof.
  unfold timersAgree. intros (Htimer & Hgo & Hproc & Hle) Hnew.
  unfold commit.
  destruct (sameCountdown countdown (gameStartCountdown s)) eqn:Esame.
  - apply sameCountdown_spec in Esame. subst countdown. cbn.
    repeat split; assumption.
  - unfold countdownEffect. cbn [gameStartCountdown countdownTimer].
    destruct countdown as [[| n] |]; cbn.
    + split; [| split; [intros _; lia | split; [exact Hproc | exact Hnew]]].
      rewrite Htimer. destruct (gameStartCountdown s) as [[| m] |];
        reflexivity.
    + split; [reflexivity |].
      split; [discriminate | split; [exact Hproc | exact Hnew]].
    + split; [| split; [discriminate | split; [exact Hproc | exact Hnew]]].
      rewrite Htimer. destruct (gameStartCountdown s) as [[| m] |];
        reflexivity.
Qed.

Lemma step_timersAgree (s s' : State) (e : Event) :
  timersAgree s -> step s e = Some s' -> timersAgree s'.
Proof.
  intros Hs Hstep.
  destruct e as [file | | | | | | poseData | score | |]; cbn [step] in Hstep.
  - injection Hstep as <-. unfold handleFileUpload. destruct file; [| exact Hs].
    destruct Hs as (H1 & H2 & H3 & H4). unfold timersAgree. cbn.
    repeat split; try assumption. intros _. lia.
  - destruct (0 <? processingTimers s)%nat; [| discriminate].
    injection Hstep as <-. destruct Hs as (H1 & H2 & H3 & H4).
    unfold timersAgree. cbn. repeat split; try assumption. discriminate.
  - destruct (startDisabled s); [discriminate |]. injection Hstep as <-.
    unfold startGame. destruct (gameStartCountdown s) eqn:E; [exact Hs |].
    apply commit_timersAgree; [exact Hs |]. intros n [= <-]. lia.
  - injection Hstep as <-. apply commit_timersAgree; [exact Hs | discriminate].
  - destruct (showsEnding s); [| discriminate]. injection Hstep as <-.
    apply commit_timersAgree; [exact Hs |]. intros n [= <-]. lia.
  - injection Hstep as <-. apply commit_timersAgree; [exact Hs |].
    destruct Hs as (_ & _ & _ & H4). exact H4.
  - injection Hstep as <-. destruct Hs as (H1 & H2 & H3 & H4).
    unfold timersAgree. cbn. repeat split; assumption.
  - injection Hstep as <-. apply commit_timersAgree; [exact Hs |].
    destruct Hs as (_ & _ & _ & H4). exact H4.
  - destruct (countdownTimer s) as [captured |] eqn:Et; [| discriminate].
    injection Hstep as <-. destruct Hs as (H1 & H2 & H3 & H4).
    rewrite Et in H1.
    destruct (gameStartCountdown s) as [[| n] |] eqn:Ec; try discriminate.
    injection H1 as ->.
    unfold countdownTick, setGameStartCountdown, commit.
    cbn [gameStartCountdown isGameStarted isPaused isGameEnded finalScore].
    rewrite Ec.
    replace (sameCountdown (Some (S n - 1)%nat) (Some (S n))) with false
      by (symmetry; cbn; apply Nat.eqb_neq; lia).
    unfold countdownEffect. cbn [gameStartCountdown countdownTimer].
    pose proof (H4 _ eq_refl) as Hn.
    replace (S n - 1)%nat with n by lia.
    unfold timersAgree. destruct n as [| n]; cbn.
    + split; [reflexivity |].
      split; [intros _; lia | split; [exact H3 |]]. intros k [= <-]. lia.
    + split; [reflexivity |].
      split; [discriminate | split; [exact H3 |]]. intros k [= <-]. lia.
  - destruct (0 <? goTimers s)%nat eqn:Eg; [| discriminate].
    apply Nat.ltb_lt in Eg. injection Hstep as <-.
    destruct Hs as (H1 & H2 & H3 & H4).
    unfold go, commit.
    cbn [gameStartCountdown isGameEnded finalScore].
    destruct (gameStartCountdown s) as [[| n] |] eqn:Ec; cbn;
      unfold timersAgree; cbn; rewrite ?Ec;
      (split; [reflexivity || exact H1 |
               split; [discriminate | split; [exact H3 | discriminate]]]).
Qed.

Lemma run_timersAgree (events : list Event) :
  forall s s', timersAgree s -> run s events = Some s' -> timersAgree s'.
Proof.
  induction events as [| e events IH]; intros s s' Hs Hrun.
  - now injection Hrun as <-.
  - cbn [run] in Hrun. destruct (step s e) as [s1 |] eqn:Hstep; [| discriminate].
    exact (IH s1 s' (step_timersAgree s s1 e Hs Hstep) Hrun).
Qed.

Lemma initial_timersAgree : timersAgree initial.
Proof.
  unfold timersAgree. cbn. repeat split; try discriminate.
Qed.

End AppCountdown.

(** X23.  Once a file is uploaded and processed and no countdown is
    pending, a click on the start button counts 5, 4, 3, 2, 1, GO! on the
    overlay, one step per timer, and then starts the game, not paused,
    with the overlay gone; while GO! is shown the start button is still
    disabled and the game is as it was before the click. *)
Theorem start_counts_down :
  forall s : App.State,
    App.timersAgree s ->
    App.startDisabled s = false ->
    let events :=
      [App.StartClick; App.CountdownTimer; App.CountdownTimer;
       App.CountdownTimer; App.CountdownTimer; App.CountdownTimer] in
    exists s5 s',
      App.run s events = Some s5 /\
      App.step s5 App.GoTimer = Some s' /\
      App.overlays s events
      = [Some (App.seconds 5); Some (App.seconds 4); Some (App.seconds 3);
         Some (App.seconds 2); Some (App.seconds 1); Some App.GO] /\
      App.startDisabled s5 = true /\
      App.isGameStarted s5 = App.isGameStarted s /\
      App.isGameStarted s' = true /\
      App.isPaused s' = false /\
      App.overlay s' = None /\
      App.countdownTimer s' = None.
Proof.
  intros s (Htimer & Hgo & Hproc & Hle) Hdis events.
  unfold App.startDisabled in Hdis.
  destruct (App.gameStartCountdown s) eqn:Ec;
    [rewrite !orb_true_r in Hdis; discriminate |].
  destruct s as [started paused file processing countdown pose ended score
                 timer gos procs].
  cbn in Ec, Htimer, Hdis. subst countdown timer.
  destruct file, processing; try discriminate.
  subst events. eexists. eexists.
  split; [lazy; reflexivity |].
  split; [lazy; reflexivity |].
  split; [lazy; reflexivity |].
  repeat split; lazy; reflexivity.
Qed.

Lemma start_counts_down_witness :
  exists s5 s',
    App.run
      {| App.isGameStarted := false; App.isPaused := false;
         App.uploadedFile := true; App.isProcessing := false;
         App.gameStartCountdown := None; App.currentPoseData := false;
         App.isGameEnded := false; App.finalScore := 0;
         App.countdownTimer := None; App.goTimers := 0;
         App.processingTimers := 0 |}
      [App.StartClick; App.CountdownTimer; App.CountdownTimer;
       App.CountdownTimer; App.CountdownTimer; App.CountdownTimer]
    = Some s5 /\
    App.step s5 App.GoTimer = Some s' /\
    App.isGameStarted s' = true.
Proof.
  destruct (start_counts_down
              {| App.isGameStarted := false; App.isPaused := false;
                 App.uploadedFile := true; App.isProcessing := false;
                 App.gameStartCountdown := None; App.currentPoseData := false;
                 App.isGameEnded := false; App.finalScore := 0;
                 App.countdownTimer := None; App.goTimers := 0;
                 App.processingTimers := 0 |})
    as (s5 & s' & H1 & H2 & _ & _ & _ & H3 & _).
  - unfold App.timersAgree. cbn. repeat split; try discriminate.
  - reflexivity.
  - exists s5, s'. repeat split; assumption.
Defined.

(** X24.  Whatever is clicked and whichever timers fire after the mount,
    the timers agree with the countdown: the 1000 ms timer is pending
    exactly while the countdown is positive, a 500 ms timer is pending
    while the overlay shows GO!, the countdown never exceeds 5; so a
    countdown once begun can always go on, and while it is shown the
    start button is disabled. *)
Theorem countdown_never_stalls :
  forall (events : list App.Event) (s : App.State),
    App.run App.initial events = Some s ->
    App.timersAgree s /\
    (forall n, App.gameStartCountdown s = Some (S n) ->
       exists s', App.step s App.CountdownTimer = Some s' /\
                  App.gameStartCountdown s' = Some n) /\
    (App.gameStartCountdown s = Some 0%nat ->
       exists s', App.step s App.GoTimer = Some s' /\
                  App.isGameStarted s' = true /\
                  App.gameStartCountdown s' = None) /\
    (App.overlay s <> None -> App.step s App.StartClick = None).
Proof.
  intros events s Hrun.
  pose proof (run_timersAgree events _ s initial_timersAgree Hrun) as Hagree.
  split; [exact Hagree |].
  destruct Hagree as (Htimer & Hgo & _ & _).
  split; [| split].
  - intros n Hc. rewrite Hc in Htimer. cbn [App.step]. rewrite Htimer.
    eexists. split; [reflexivity |].
    unfold App.countdownTick, App.setGameStartCountdown, App.commit.
    cbn [App.gameStartCountdown]. rewrite Hc.
    replace (App.sameCountdown (Some (S n - 1)%nat) (Some (S n))) with false
      by (symmetry; cbn; apply Nat.eqb_neq; lia).
    unfold App.countdownEffect. cbn [App.gameStartCountdown].
    replace (S n - 1)%nat with n by lia. destruct n; reflexivity.
  - intros Hc. specialize (Hgo Hc). cbn [App.step].
    replace (0 <? App.goTimers s)%nat with true
      by (symmetry; apply Nat.ltb_lt; exact Hgo).
    eexists. split; [reflexivity |].
    unfold App.go, App.commit. cbn [App.gameStartCountdown]. rewrite Hc.
    cbn. split; reflexivity.
  - intros Hov. cbn [App.step]. unfold App.startDisabled.
    unfold App.overlay in Hov.
    destruct (App.gameStartCountdown s) as [[| n] |]; try congruence;
      now rewrite orb_true_r.
Qed.

Lemma countdown_never_stalls_witness :
  exists s,
    App.run App.initial
      [App.FileUpload true; App.ProcessingDone; App.StartClick] = Some s /\
    App.timersAgree s.
Proof.
  eexists. split; [lazy -[IZR]; reflexivity |].
  apply (countdown_never_stalls
           [App.FileUpload true; App.ProcessingDone; App.StartClick]).
  lazy -[IZR]. reflexivity.
Defined.

(** X25.  The reset clears the 1000 ms timer of a countdown, so a
    countdown that still shows a number is called off by it; the 500 ms
    timer set at GO! is never cleared: a reset while GO! is shown takes
    the overlay away, and the game starts all the same when that timer
    fires. *)
Theorem reset_during_countdown :
  forall (events : list App.Event) (s : App.State),
    App.run App.initial events = Some s ->
    (forall n, App.gameStartCountdown s = Some (S n) ->
       App.countdownTimer (App.resetGame s) = None /\
       App.goTimers (App.resetGame s) = App.goTimers s /\
       App.isGameStarted (App.resetGame s) = false /\
       App.overlay (App.resetGame s) = None) /\
    (App.gameStartCountdown s = Some 0%nat ->
       App.overlay (App.resetGame s) = None /\
       App.isGameStarted (App.resetGame s) = false /\
       exists s', App.run s [App.ResetClick; App.GoTimer] = Some s' /\
                  App.isGameStarted s' = true).
Proof.
  intros events s Hrun.
  pose proof (run_timersAgree events _ s initial_timersAgree Hrun)
    as (Htimer & Hgo & _ & _).
  split.
  - intros n Hc. unfold App.resetGame, App.commit. rewrite Hc. cbn.
    repeat split; reflexivity.
  - intros Hc. specialize (Hgo Hc).
    unfold App.resetGame, App.commit. rewrite Hc. cbn.
    split; [reflexivity |]. split; [reflexivity |].
    unfold App.resetGame, App.commit. rewrite Hc. cbn.
    destruct (App.goTimers s) as [| pending]; [lia |].
    eexists. split; reflexivity.
Qed.

Lemma reset_during_countdown_witness :
  exists s,
    App.run App.initial
      [App.FileUpload true; App.ProcessingDone; App.StartClick;
       App.CountdownTimer; App.CountdownTimer; App.CountdownTimer;
       App.CountdownTimer; App.CountdownTimer] = Some s /\
    App.gameStartCountdown s = Some 0%nat /\
    exists s', App.run s [App.ResetClick; App.GoTimer] = Some s' /\
               App.isGameStarted s' = true.
Proof.
  eexists. split; [lazy -[IZR]; reflexivity |]. split; [reflexivity |].
  apply (reset_during_countdown
           [App.FileUpload true; App.ProcessingDone; App.StartClick;
            App.CountdownTimer; App.CountdownTimer; App.CountdownTimer;
            App.CountdownTimer; App.CountdownTimer]);
    lazy -[IZR]; reflexivity.
Defined.

(** ** The slices of the store *)

Section StoreLists.

Import AIChatCoach cedarStore StoreFacts.

Lemma pushKeeping_sliceLast {A : Type} (n : nat) (xs : list A) (x : A) :
  pushKeeping n xs x = sliceLast n (xs ++ [x]).
Proof.
  unfold pushKeeping. cbv zeta.
  destruct (n <? List.length (xs ++ [x]))%nat eqn:E; [reflexivity |].
  apply Nat.ltb_ge in E. unfold sliceLast.
  replace (List.length (xs ++ [x]) - n)%nat with 0%nat by lia. reflexivity.
Qed.

Lemma sliceLast_push {A : Type} (n : nat) (l : list A) (x : A) :
  sliceLast n (sliceLast n l ++ [x]) = sliceLast n (l ++ [x]).
Proof.
  set (k := (List.length l - n)%nat).
  assert (Hinner : sliceLast n l = skipn k l) by reflexivity.
  assert (Hsplit : l ++ [x] = firstn k l ++ (skipn k l ++ [x]))
    by (rewrite app_assoc, firstn_skipn; reflexivity).
  rewrite Hinner, Hsplit.
  destruct (Nat.le_gt_cases n (List.length l)) as [Hle | Hgt].
  - symmetry. apply sliceLast_app. rewrite length_app, length_skipn.
    cbn [List.length]. lia.
  - replace k with 0%nat by lia. reflexivity.
Qed.

Lemma pushKeeping_length {A : Type} (n : nat) (xs : list A) (x : A) :
  List.length (pushKeeping n xs x) = Nat.min n (List.length xs + 1).
Proof.
  rewrite pushKeeping_sliceLast, sliceLast_length, length_app. reflexivity.
Qed.

Lemma newest_pushKeeping {A : Type} (n : nat) (xs : list A) (x : A) :
  (0 < n)%nat -> newest (pushKeeping n xs x) = Some x.
Proof.
  intros Hn. unfold newest. rewrite pushKeeping_length, pushKeeping_sliceLast.
  unfold sliceLast. rewrite nth_error_skipn, length_app. cbn [List.length].
  replace (List.length xs + 1 - n
           + (Nat.min n (List.length xs + 1) - 1))%nat
    with (List.length xs) by lia.
  rewrite nth_error_app2 by lia. rewrite Nat.sub_diag. reflexivity.
Qed.

Lemma map_pushKeeping {A B : Type} (f : A -> B) (n : nat) (xs : list A)
  (x : A) :
  map f (pushKeeping n xs x) = pushKeeping n (map f xs) (f x).
Proof.
  rewrite !pushKeeping_sliceLast. unfold sliceLast.
  rewrite <- skipn_map, map_app, !length_app, length_map. reflexivity.
Qed.

Lemma sliceLast_short {A : Type} (n : nat) (l : list A) :
  (List.length l <= n)%nat -> sliceLast n l = l.
Proof.
  intros H. unfold sliceLast.
  replace (List.length l - n)%nat with 0%nat by lia. reflexivity.
Qed.

End StoreLists.

Section PoseSlice.

Import cedarStore cedarStore.poseState StoreFacts.

Variable Pose : Type.

Lemma reducer_framesInOrder (now : number) (s : State Pose)
  (a : Action Pose) :
  framesInOrder s -> framesInOrder (reducer now s a).
Proof.
  unfold framesInOrder. intros [Hlen Hmap].
  destruct a as [[p |] | payload | payload | payload | | |];
    cbn [reducer poseHistory frameCount initialState];
    try (split; assumption); try (split; reflexivity).
  split.
  - rewrite pushKeeping_length. lia.
  - rewrite pushKeeping_length, map_pushKeeping, pushKeeping_sliceLast.
    cbn [frame]. unfold AIChatCoach.sliceLast.
    rewrite length_app, length_map, Hmap. cbn [List.length].
    set (len := List.length (poseHistory s)) in *.
    set (fc := frameCount s) in *.
    replace (seq (fc - len) len ++ [fc]) with (seq (fc - len) (S len))
      by (rewrite seq_S; do 2 f_equal; lia).
    rewrite skipn_seq. f_equal; lia.
Qed.

Lemma dispatchAll_framesInOrder (actions : list (number * Action Pose)) :
  forall s, framesInOrder s -> framesInOrder (dispatchAll s actions).
Proof.
  induction actions as [| [now a] actions IH]; intros s Hs; [exact Hs |].
  cbn [dispatchAll fold_left fst snd]. apply IH.
  now apply reducer_framesInOrder.
Qed.

Lemma initialState_framesInOrder :
  framesInOrder (initialState : State Pose).
Proof. split; reflexivity. Qed.

End PoseSlice.

(** X26.  Whatever is dispatched to the pose slice, its history holds
    the last frames only, at most 100 of them, and they are numbered as
    the counter went: the history has [min frameCount 100] entries, and
    their frame numbers are the consecutive numbers up to
    [frameCount - 1]. *)
Theorem poseHistory_numbers_frames :
  forall (Pose : Type)
         (actions : list (number * cedarStore.poseState.Action Pose)),
    let s := cedarStore.poseState.dispatchAll
               cedarStore.poseState.initialState actions in
    let history := cedarStore.poseState.poseHistory s in
    List.length history = Nat.min (cedarStore.poseState.frameCount s) 100 /\
    map cedarStore.poseState.frame history
    = seq (cedarStore.poseState.frameCount s - List.length history)
        (List.length history).
Proof.
  intros Pose actions.
  exact (dispatchAll_framesInOrder Pose actions _
           (initialState_framesInOrder Pose)).
Qed.

Section CoachSlice.

Import AIChatCoach StoreFacts.
Import cedarStore cedarStore.aiCoaching.

Variable Analysis : Type.

Lemma dispatchAll_suggestions
  (actions : list (number * aiCoaching.Action Analysis)) :
  forall (s : State Analysis) (before : list Suggestion),
    improvementSuggestions s = sliceLast 10 before ->
    improvementSuggestions (dispatchAll s actions)
    = sliceLast 10 (before ++ suggestionsOf actions).
Proof.
  induction actions as [| [now a] actions IH]; intros s before Hs.
  - cbn. now rewrite app_nil_r.
  - cbn [dispatchAll fold_left fst snd].
    destruct a; cbn [suggestionsOf];
      try (apply IH; cbn [reducer improvementSuggestions]; exact Hs).
    replace (before ++ payload :: suggestionsOf actions)
      with ((before ++ [payload]) ++ suggestionsOf actions)
      by (rewrite <- app_assoc; reflexivity).
    apply IH. cbn [reducer improvementSuggestions].
    rewrite pushKeeping_sliceLast, Hs. apply sliceLast_push.
Qed.

Lemma dispatchAll_messages
  (actions : list (number * aiCoaching.Action Analysis)) :
  forall (s : State Analysis) (before : list string),
    map content (messages s) = sliceLast 50 before ->
    Forall (fun m => type m <> EmptyString) (messages s) ->
    map content (messages (dispatchAll s actions))
    = sliceLast 50 (contentsSinceClear before actions) /\
    Forall (fun m => type m <> EmptyString) (messages (dispatchAll s actions)).
Proof.
  induction actions as [| [now a] actions IH]; intros s before Hs Htypes.
  - split; assumption.
  - cbn [dispatchAll fold_left fst snd].
    destruct a as [c t | | | | | |]; cbn [contentsSinceClear];
      try (apply IH; cbn [reducer messages]; assumption).
    + apply IH; cbn [reducer messages].
      * rewrite map_pushKeeping, pushKeeping_sliceLast, Hs. cbn [content].
        apply sliceLast_push.
      * rewrite pushKeeping_sliceLast. apply Forall_forall. intros m Hm.
        unfold sliceLast in Hm. apply in_skipn, in_app_or in Hm.
        destruct Hm as [Hm | [<- | []]].
        -- rewrite Forall_forall in Htypes. now apply Htypes.
        -- cbn [type]. destruct t as [[| ch t] |]; cbn; discriminate.
    + apply IH; cbn [reducer messages]; [reflexivity | constructor].
Qed.

End CoachSlice.

(** X27.  The slice of the coach keeps the latest of what it is sent:
    its suggestions are the last 10 of all suggestions dispatched, in
    order; its messages are the last 50 of those dispatched since the
    last [clearMessages]; and no message is stored without a type:
    a missing or empty type is stored as "info". *)
Theorem coach_slice_keeps_latest :
  forall (Analysis : Type)
         (actions : list (number * cedarStore.aiCoaching.Action Analysis)),
    let s := cedarStore.aiCoaching.dispatchAll
               cedarStore.aiCoaching.initialState actions in
    cedarStore.aiCoaching.improvementSuggestions s
    = AIChatCoach.sliceLast 10 (StoreFacts.suggestionsOf actions) /\
    map cedarStore.aiCoaching.content (cedarStore.aiCoaching.messages s)
    = AIChatCoach.sliceLast 50 (StoreFacts.contentsSinceClear [] actions) /\
    (List.length (cedarStore.aiCoaching.improvementSuggestions s) <= 10)%nat /\
    (List.length (cedarStore.aiCoaching.messages s) <= 50)%nat /\
    Forall (fun m => cedarStore.aiCoaching.type m <> EmptyString)
      (cedarStore.aiCoaching.messages s) /\
    (forall now content,
       option_map cedarStore.aiCoaching.type
         (StoreFacts.newest
            (cedarStore.aiCoaching.messages
               (cedarStore.aiCoaching.reducer now s
                  (cedarStore.aiCoaching.addMessage content None))))
       = Some "info"%string).
Proof.
  intros Analysis actions s.
  pose proof (dispatchAll_suggestions Analysis actions
                cedarStore.aiCoaching.initialState [] eq_refl) as Hsug.
  destruct (dispatchAll_messages Analysis actions
              cedarStore.aiCoaching.initialState [] eq_refl
              (Forall_nil _)) as [Hmsg Htypes].
  cbn [app] in Hsug. fold s in Hsug, Hmsg, Htypes.
  split; [exact Hsug |]. split; [exact Hmsg |].
  split; [rewrite Hsug, sliceLast_length; lia |].
  split.
  { rewrite <- (length_map cedarStore.aiCoaching.content), Hmsg,
      sliceLast_length. lia. }
  split; [exact Htypes |].
  intros now content. cbn [cedarStore.aiCoaching.reducer
                           cedarStore.aiCoaching.messages].
  rewrite newest_pushKeeping by lia. reflexivity.
Qed.

Section CoachToStore.

Import AIChatCoach StoreFacts.
Import cedarStore cedarStore.aiCoaching.

Variable Analysis : Type.

Lemma sliceLast_prefix {A : Type} (n : nat) (l rest : list A) :
  sliceLast n (sliceLast n l ++ rest) = sliceLast n (l ++ rest).
Proof.
  set (k := (List.length l - n)%nat).
  assert (Hinner : sliceLast n l = skipn k l) by reflexivity.
  assert (Hsplit : l ++ rest = firstn k l ++ (skipn k l ++ rest))
    by (rewrite app_assoc, firstn_skipn; reflexivity).
  rewrite Hinner, Hsplit.
  destruct (Nat.le_gt_cases n (List.length l)) as [Hle | Hgt].
  - symmetry. apply sliceLast_app. rewrite length_app, length_skipn. lia.
  - replace k with 0%nat by lia. reflexivity.
Qed.

Lemma dispatch_suggestions (now : number) (l : list Suggestion) :
  forall s : State Analysis,
    let s' :=
      dispatchAll s
        (map (fun a => (now, ofCoach a))
           (map AIChatCoach.addImprovementSuggestion l)) in
    messages s' = messages s /\
    currentTip s' = currentTip s /\
    chatHistory s' = chatHistory s /\
    ((List.length (improvementSuggestions s) <= 10)%nat ->
     improvementSuggestions s'
     = sliceLast 10 (improvementSuggestions s ++ l)).
Proof.
  induction l as [| x l IH]; intros s; cbn zeta.
  - cbn. repeat split. intros H. rewrite app_nil_r.
    symmetry. now apply sliceLast_short.
  - cbn [map dispatchAll fold_left fst snd ofCoach].
    destruct (IH (reducer now s (aiCoaching.addImprovementSuggestion x)))
      as (Hm & Ht & Hc & Hs).
    unfold dispatchAll in Hm, Ht, Hc, Hs.
    split; [exact Hm |]. split; [exact Ht |]. split; [exact Hc |].
    intros Hlen. rewrite Hs.
    + cbn [reducer improvementSuggestions].
      rewrite pushKeeping_sliceLast, sliceLast_prefix, <- app_assoc.
      reflexivity.
    + cbn [reducer improvementSuggestions]. rewrite pushKeeping_length. lia.
Qed.

Lemma analyzePosePerformance_shape (similarity : number)
  (pose : option PoseDiffVisualizer.Pose) :
  exists tip kind,
    analyzePosePerformance similarity pose
    = [AIChatCoach.addMessage tip kind; AIChatCoach.updateCurrentTip tip]
      ++ map AIChatCoach.addImprovementSuggestion
           (generateImprovementSuggestions similarity pose) /\
    (kind = "success" \/ kind = "tip" \/ kind = "warning")%string /\
    (kind = "success"%string <-> 75 <= similarity).
Proof.
  unfold analyzePosePerformance, ge.
  destruct (Rge_dec similarity 90); [| destruct (Rge_dec similarity 75);
    [| destruct (Rge_dec similarity 60); [| destruct (Rge_dec similarity 40)]]];
    eexists; eexists; (split; [reflexivity |]);
    (split; [tauto |]); split; intros H; try lra; try reflexivity;
    discriminate.
Qed.

End CoachToStore.

(** X28.  What the coach dispatches for a pose, once reduced by its
    slice of the store: the tip shown is the content of the newest
    message, whose type is "success" exactly from a similarity of 75 on
    and "tip" or "warning" below; the suggestions of the analysis come
    after those already held, the last 10 kept; the chat is not
    touched. *)
Theorem coach_analysis_in_store :
  forall (Analysis : Type) (s : cedarStore.aiCoaching.State Analysis)
         (now : number) (pose : PoseDiffVisualizer.Pose)
         (similarity : number),
    (List.length (cedarStore.aiCoaching.improvementSuggestions s) <= 10)%nat ->
    let dispatched :=
      AIChatCoach.analysisEffect (Some pose) (AIChatCoach.aNumber similarity)
        true in
    let s' :=
      cedarStore.aiCoaching.dispatchAll s
        (map (fun a => (now, cedarStore.aiCoaching.ofCoach a)) dispatched) in
    (exists m,
       StoreFacts.newest (cedarStore.aiCoaching.messages s') = Some m /\
       cedarStore.aiCoaching.currentTip s'
       = Some (cedarStore.aiCoaching.content m) /\
       (cedarStore.aiCoaching.type m = "success"
        \/ cedarStore.aiCoaching.type m = "tip"
        \/ cedarStore.aiCoaching.type m = "warning")%string /\
       (cedarStore.aiCoaching.type m = "success"%string <-> 75 <= similarity)) /\
    cedarStore.aiCoaching.improvementSuggestions s'
    = AIChatCoach.sliceLast 10
        (cedarStore.aiCoaching.improvementSuggestions s
         ++ AIChatCoach.generateImprovementSuggestions similarity (Some pose)) /\
    cedarStore.aiCoaching.chatHistory s' = cedarStore.aiCoaching.chatHistory s.
Proof.
  intros Analysis s now pose similarity Hlen. cbn zeta.
  cbn [AIChatCoach.analysisEffect]. rewrite analyzePosePerformanceOf_number.
  destruct (analyzePosePerformance_shape similarity (Some pose))
    as (tip & kind & -> & Hkind & Hsuccess).
  cbn [app map cedarStore.aiCoaching.dispatchAll fold_left fst snd
       cedarStore.aiCoaching.ofCoach].
  set (s2 := cedarStore.aiCoaching.reducer now
               (cedarStore.aiCoaching.reducer now s
                  (cedarStore.aiCoaching.addMessage tip (Some kind)))
               (cedarStore.aiCoaching.updateCurrentTip (Some tip))).
  destruct (dispatch_suggestions Analysis now
              (AIChatCoach.generateImprovementSuggestions similarity (Some pose))
              s2) as (Hm & Ht & Hc & Hs).
  unfold cedarStore.aiCoaching.dispatchAll in Hm, Ht, Hc, Hs.
  rewrite Hm, Ht, Hc, (Hs Hlen).
  split; [| split; reflexivity].
  exists {| cedarStore.aiCoaching.id := now;
            cedarStore.aiCoaching.content := tip;
            cedarStore.aiCoaching.type :=
              cedarStore.aiCoaching.typeOrInfo (Some kind);
            cedarStore.aiCoaching.timestamp := now |}.
  subst s2. cbn [cedarStore.aiCoaching.reducer cedarStore.aiCoaching.messages
                 cedarStore.aiCoaching.currentTip
                 cedarStore.aiCoaching.content cedarStore.aiCoaching.type].
  split; [apply newest_pushKeeping; lia |]. split; [reflexivity |].
  assert (Hsame : cedarStore.aiCoaching.typeOrInfo (Some kind) = kind)
    by (destruct Hkind as [-> | [-> | ->]]; reflexivity).
  rewrite Hsame. split; assumption.
Qed.

Lemma coach_analysis_in_store_witness :
  cedarStore.aiCoaching.currentTip
    (cedarStore.aiCoaching.dispatchAll
       (cedarStore.aiCoaching.initialState
        : cedarStore.aiCoaching.State unit)
       (map (fun a => (0, cedarStore.aiCoaching.ofCoach a))
          (AIChatCoach.analysisEffect (Some Inputs.allSeen)
             (AIChatCoach.aNumber 80) true)))
  <> None.
Proof.
  destruct (coach_analysis_in_store unit cedarStore.aiCoaching.initialState
              0 Inputs.allSeen 80) as ((m & _ & Htip & _) & _).
  - cbn. lia.
  - intros Hnone. pose proof (eq_trans (eq_sym Htip) Hnone) as Habsurd.
    discriminate Habsurd.
Defined.

Section VoiceSlice.

Import StoreFacts VoiceFacts.
Import cedarStore cedarStore.voiceControl.

Lemma markLast_newest (history : list Command) (c : Command) :
  newest history = Some c ->
  markLast history
  = firstn (List.length history - 1) history
    ++ [ {| command := command c; timestamp := timestamp c;
            executed := true |} ].
Proof.
  unfold newest, markLast. intros Hc.
  destruct (List.length history) as [| k] eqn:Elen.
  - destruct history; [discriminate | discriminate].
  - replace (S k - 1)%nat with k in * by lia. rewrite Hc. reflexivity.
Qed.

Lemma newest_snoc {A : Type} (xs : list A) (x : A) : newest (xs ++ [x]) = Some x.
Proof.
  unfold newest. rewrite length_app. cbn [List.length].
  rewrite nth_error_app2 by lia.
  replace (List.length xs + 1 - 1 - List.length xs)%nat with 0%nat by lia.
  reflexivity.
Qed.

Lemma newest_some {A : Type} (xs : list A) :
  (0 < List.length xs)%nat -> exists x, newest xs = Some x.
Proof.
  intros H. unfold newest.
  destruct (nth_error xs (List.length xs - 1)) as [x |] eqn:E;
    [now exists x |].
  apply nth_error_None in E. lia.
Qed.

Lemma reducer_heard (now : number) (s : State) (a : Action) :
  heard s -> heard (reducer now s a).
Proof.
  unfold heard. intros (Hlen & Hlast & Havail).
  destruct a as [payload | payload | | |];
    cbn [reducer commandHistory lastCommand availableCommands];
    try (repeat split; assumption).
  - split; [rewrite pushKeeping_length; lia |]. split; [| exact Havail].
    rewrite newest_pushKeeping by lia. reflexivity.
  - destruct (0 <? List.length (commandHistory s))%nat eqn:E;
      [| repeat split; assumption].
    apply Nat.ltb_lt in E. destruct (newest_some _ E) as [c Hc].
    rewrite (markLast_newest _ c Hc).
    split; [| split; [| exact Havail]].
    + rewrite length_app, length_firstn. cbn [List.length]. lia.
    + rewrite newest_snoc, Hlast, Hc. reflexivity.
Qed.

Lemma dispatchAll_heard (actions : list (number * Action)) :
  forall s, heard s -> heard (dispatchAll s actions).
Proof.
  induction actions as [| [now a] actions IH]; intros s Hs; [exact Hs |].
  cbn [dispatchAll fold_left fst snd]. apply IH. now apply reducer_heard.
Qed.

End VoiceSlice.

(** X29.  The voice slice keeps the last 20 commands, and its
    [lastCommand] is always the command of the newest entry of the
    history.  A command that is added and then marked is the newest
    entry, executed; marking changes no other entry and not the number
    of entries, and does nothing on an empty history. *)
Theorem command_history_marks_newest :
  forall (actions : list (number * cedarStore.voiceControl.Action)),
    let s := cedarStore.voiceControl.dispatchAll
               cedarStore.voiceControl.initialState actions in
    (List.length (cedarStore.voiceControl.commandHistory s) <= 20)%nat /\
    cedarStore.voiceControl.lastCommand s
    = option_map cedarStore.voiceControl.command
        (StoreFacts.newest (cedarStore.voiceControl.commandHistory s)) /\
    (forall (now now' : number) (transcript : string),
       let added :=
         cedarStore.voiceControl.reducer now s
           (cedarStore.voiceControl.addCommand transcript) in
       let marked :=
         cedarStore.voiceControl.reducer now' added
           cedarStore.voiceControl.markCommandExecuted in
       StoreFacts.newest (cedarStore.voiceControl.commandHistory added)
       = Some {| cedarStore.voiceControl.command := transcript;
                 cedarStore.voiceControl.timestamp := now;
                 cedarStore.voiceControl.executed := false |} /\
       cedarStore.voiceControl.commandHistory marked
       = firstn (List.length (cedarStore.voiceControl.commandHistory added) - 1)
           (cedarStore.voiceControl.commandHistory added)
         ++ [ {| cedarStore.voiceControl.command := transcript;
                 cedarStore.voiceControl.timestamp := now;
                 cedarStore.voiceControl.executed := true |} ] /\
       List.length (cedarStore.voiceControl.commandHistory marked)
       = List.length (cedarStore.voiceControl.commandHistory added) /\
       cedarStore.voiceControl.lastCommand marked = Some transcript) /\
    (cedarStore.voiceControl.commandHistory s = [] ->
     forall now,
       cedarStore.voiceControl.reducer now s
         cedarStore.voiceControl.markCommandExecuted = s).
Proof.
  intros actions s.
  destruct (dispatchAll_heard actions cedarStore.voiceControl.initialState)
    as (Hlen & Hlast & _).
  { unfold VoiceFacts.heard. cbn. repeat split; lia. }
  fold s in Hlen, Hlast.
  split; [exact Hlen |]. split; [exact Hlast |]. split.
  - intros now now' transcript. cbn zeta.
    cbn [cedarStore.voiceControl.reducer cedarStore.voiceControl.commandHistory
         cedarStore.voiceControl.lastCommand].
    set (entry := {| cedarStore.voiceControl.command := transcript;
                     cedarStore.voiceControl.timestamp := now;
                     cedarStore.voiceControl.executed := false |}).
    assert (Hnew : StoreFacts.newest
                     (cedarStore.pushKeeping 20
                        (cedarStore.voiceControl.commandHistory s) entry)
                   = Some entry) by (apply newest_pushKeeping; lia).
    assert (Hpos : (0 <? List.length
                           (cedarStore.pushKeeping 20
                              (cedarStore.voiceControl.commandHistory s) entry))%nat
                   = true).
    { apply Nat.ltb_lt. rewrite pushKeeping_length. lia. }
    rewrite Hpos, (markLast_newest _ entry Hnew).
    split; [exact Hnew |]. split; [reflexivity |]. split; [| reflexivity].
    rewrite length_app, length_firstn. cbn [List.length].
    apply Nat.ltb_lt in Hpos. lia.
  - intros Hnil now. destruct s as [listening lastc feedback avail history].
    cbn in Hnil. subst history. reflexivity.
Qed.

Section StoreToCoach.

Import AIChatCoach StoreFacts.

Lemma trend_without_similarity (h : list HistoryEntry) :
  Forall (fun p => similarityOr0 p = 0) h ->
  calculateImprovementTrend h
  = (if (List.length h <=? 10)%nat then "neutral" else "stable")%string /\
  averageSimilarity h = 0.
Proof.
  intros Hall.
  assert (Hrecent : List.length (sliceLast 10 h) = Nat.min 10 (List.length h))
    by apply sliceLast_length.
  assert (Holder : List.length (sliceBetween 20 10 h)
                   = (Nat.min 20 (List.length h) - Nat.min 10 (List.length h))%nat)
    by (apply sliceBetween_length; lia).
  assert (Hsub : forall xs, (forall p, In p xs -> In p h) -> xs <> [] ->
            averageOf xs = 0).
  { intros xs Hin Hne.
    assert (Hb : 0 <= averageOf xs <= 0); [| lra].
    apply averageOf_bounds; [exact Hne |].
    apply Forall_forall. intros p Hp. rewrite Forall_forall in Hall.
    rewrite (Hall p (Hin p Hp)). lra. }
  split.
  - unfold calculateImprovementTrend. cbv zeta. rewrite Hrecent, Holder.
    destruct (List.length h <=? 10)%nat eqn:E.
    + apply Nat.leb_le in E.
      replace (Nat.min 20 (List.length h) - Nat.min 10 (List.length h))%nat
        with 0%nat by lia.
      rewrite Nat.eqb_refl, orb_true_r. reflexivity.
    + apply Nat.leb_gt in E.
      replace (Nat.min 10 (List.length h) =? 0)%nat with false
        by (symmetry; apply Nat.eqb_neq; lia).
      replace (Nat.min 20 (List.length h) - Nat.min 10 (List.length h) =? 0)%nat
        with false by (symmetry; apply Nat.eqb_neq; lia).
      cbn [orb].
      rewrite (Hsub (sliceLast 10 h)), (Hsub (sliceBetween 20 10 h)).
      * rewrite gt_false, lt_false by lra. reflexivity.
      * intros p Hp. unfold sliceBetween in Hp.
        apply in_firstn, in_skipn in Hp. exact Hp.
      * intros Hnil. apply (f_equal (@List.length _)) in Hnil.
        rewrite Holder in Hnil. cbn [List.length] in Hnil. lia.
      * intros p Hp. unfold sliceLast in Hp. apply in_skipn in Hp. exact Hp.
      * intros Hnil. apply (f_equal (@List.length _)) in Hnil.
        rewrite Hrecent in Hnil. cbn [List.length] in Hnil. lia.
  - unfold averageSimilarity.
    destruct (0 <? List.length h)%nat eqn:E; [| reflexivity].
    apply Nat.ltb_lt in E. apply Hsub; [tauto |].
    intros ->. cbn in E. lia.
Qed.

End StoreToCoach.

(** X30.  The entries the pose slice writes to its history carry a pose,
    a time and a frame number but no similarity, and the coach reads the
    similarity of these entries: whatever was dispatched to the slice,
    the average similarity the coach computes from its history is 0, and
    the trend is "neutral" up to 10 counted frames and "stable" from
    then on, never "improving" or "declining". *)
Theorem coach_reads_no_similarity :
  forall (Pose : Type)
         (actions : list (number * cedarStore.poseState.Action Pose)),
    let s := cedarStore.poseState.dispatchAll
               cedarStore.poseState.initialState actions in
    let history := map StoreFacts.asRead (cedarStore.poseState.poseHistory s) in
    AIChatCoach.averageSimilarity history = 0 /\
    AIChatCoach.calculateImprovementTrend history
    = (if (cedarStore.poseState.frameCount s <=? 10)%nat
       then "neutral" else "stable")%string.
Proof.
  intros Pose actions s history.
  destruct (dispatchAll_framesInOrder Pose actions _
              (initialState_framesInOrder Pose)) as [Hlen _].
  fold s in Hlen.
  destruct (trend_without_similarity history) as [Htrend Havg].
  { apply Forall_forall. intros p Hp. subst history.
    apply in_map_iff in Hp. destruct Hp as (e & <- & _). reflexivity. }
  split; [exact Havg |]. rewrite Htrend.
  assert (Hh : List.length history
               = Nat.min (cedarStore.poseState.frameCount s) 100)
    by (subst history; rewrite length_map; exact Hlen).
  rewrite Hh.
  destruct (cedarStore.poseState.frameCount s <=? 10)%nat eqn:E.
  - apply Nat.leb_le in E.
    replace (Nat.min (cedarStore.poseState.frameCount s) 100 <=? 10)%nat
      with true by (symmetry; apply Nat.leb_le; lia).
    reflexivity.
  - apply Nat.leb_gt in E.
    replace (Nat.min (cedarStore.poseState.frameCount s) 100 <=? 10)%nat
      with false by (symmetry; apply Nat.leb_gt; lia).
    reflexivity.
Qed.

(** ** The end of a session in the program *)

Section ProgramSessions.

Import Program.













End ProgramSessions.


